(** * The task execution engine of the automation sidebar

    A shallow embedding of [executeSequence] and [executeTask] of the
    sidebar component (the file with the drag-and-drop builder), and the
    properties of the run they implement.

    Conventions of the embedding:
    - the task store ([tasks], [executionStatus]) is state threaded through
      a state-and-exception monad [M]; [updateTask], [setExecutionStatus],
      [addLog] and [clearLogs] are its writers;
    - the page view is an environment: every [executeJavaScript] call is
      answered from the page the view shows at that call;
    - timers ([setTimeout]) only delay and are not represented; the reads of
      the pause flag by the polling loop are a parameter of the engine,
      which [closureReads] instantiates for a run started from a render;
    - numbers are integers ([Z]); the pictographs that prefix the log lines
      are left out of the log strings;
    - a string is the sequence of the bytes of its UTF-8 encoding. *)

From stdpp Require Import base option list gmap strings pretty.
From Stdlib Require Import ZArith Lia.

Local Open Scope Z_scope.
Local Open Scope string_scope.

(** ** Data model *)

(** [task.type]; [TOther] stands for any string outside the nine known
    kinds (the [default] branch of the dispatcher). *)
Inductive TaskType :=
  | TSearch | TFind | TClick | TExtractDom | TType | TEnter | TScroll | TWait
  | TLoop | TOther (name : string).

Definition typeName (ty : TaskType) : string :=
  match ty with
  | TSearch => "search" | TFind => "find" | TClick => "click"
  | TExtractDom => "extract-dom" | TType => "type" | TEnter => "enter"
  | TScroll => "scroll" | TWait => "wait" | TLoop => "loop"
  | TOther name => name
  end.

#[global] Instance TaskType_eq_dec : EqDecision TaskType.
Proof. solve_decision. Defined.

Inductive TaskStatus := pending | running | completed | failed.

#[global] Instance TaskStatus_eq_dec : EqDecision TaskStatus.
Proof. solve_decision. Defined.

(** [task.config]: every field is optional ([None] is [undefined]). *)
Record TaskConfig := mkConfig {
  searchQuery : option string;
  text : option string;
  selector : option string;
  clickSelector : option string;
  typeText : option string;
  targetField : option string;
  scrollAmount : option Z;
  waitTime : option Z;
  loopCount : option Z;
}.

Definition emptyConfig : TaskConfig :=
  mkConfig None None None None None None None None None.

(** What the click scripts report back. *)
Inductive ClickResult :=
  | ClickedLink (url : string)
  | ClickedElement (element : string) (txt : string).

(** One entry of the extract handler's list: [{title, url?, type}]. *)
Inductive ItemType := link | heading.

Record ExtractedItem := mkItem {
  title : string;
  url : option string;
  item_type : ItemType;
}.

(** Values stored in the execution context. *)
Inductive Value :=
  | VStr (s : string)
  | VItems (items : list ExtractedItem)
  | VClick (c : ClickResult).

(** The execution context: a JS object used as a map from keys to values. *)
Abbreviation Context := (gmap string Value).

Record Task := mkTask {
  t_id : string;
  t_type : TaskType;
  t_config : TaskConfig;
  t_status : TaskStatus;
  t_result : option Context;
  t_error : option string;
}.

Record ExecutionStatus := mkStatus {
  isExecuting : bool;
  isPaused : bool;
  currentTaskIndex : Z;
  totalTasks : Z;
  currentLoop : option Z;
  totalLoops : option Z;
  extractedData : option (list ExtractedItem);
  logs : list string;
}.

(** ** JavaScript truthiness and coercions used by the handlers *)

(** [s || ...] and [!s] on an optional string: [undefined] and the empty
    string are falsy. *)
Definition truthy (o : option string) : option string :=
  match o with
  | Some s => if decide (s = "") then None else Some s
  | None => None
  end.

(** [a || b] on optional strings. *)
Definition orElse (a b : option string) : option string :=
  match truthy a with
  | Some s => Some s
  | None => b
  end.

(** [n || d] on an optional number: [undefined] and [0] are falsy. *)
Definition numOr (o : option Z) (d : Z) : Z :=
  match o with
  | Some n => if decide (n = 0) then d else n
  | None => d
  end.

(** Truthiness of a context value: arrays and objects are truthy, a string
    is truthy when it is not empty. *)
Definition truthyValue (o : option Value) : option Value :=
  match o with
  | Some (VStr s) => if decide (s = "") then None else Some (VStr s)
  | Some v => Some v
  | None => None
  end.

(** [String(v)], as a template literal applies it. *)
Definition jsString (v : Value) : string :=
  match v with
  | VStr s => s
  | VItems items =>
      String.concat "," (List.map (fun _ => "[object Object]") items)
  | VClick _ => "[object Object]"
  end.

(** [String.prototype.trim] strips the white space and line terminator
    code points from both ends: TAB, LF, VT, FF, CR, SP, U+00A0, U+1680,
    U+2000 to U+200A, U+2028, U+2029, U+202F, U+205F, U+3000 and U+FEFF.
    [whiteSpace] lists their UTF-8 encodings. *)
Definition whiteSpace : list (list Ascii.ascii) :=
  List.map (List.map Ascii.ascii_of_nat)
    [[9]; [10]; [11]; [12]; [13]; [32]; [194; 160]; [225; 154; 128];
     [226; 128; 128]; [226; 128; 129]; [226; 128; 130]; [226; 128; 131];
     [226; 128; 132]; [226; 128; 133]; [226; 128; 134]; [226; 128; 135];
     [226; 128; 136]; [226; 128; 137]; [226; 128; 138]; [226; 128; 168];
     [226; 128; 169]; [226; 128; 175]; [226; 129; 159]; [227; 128; 128];
     [239; 187; 191]]%nat.

(** The bytes that follow a white space character at the front. *)
Definition spaceAhead (l : list Ascii.ascii) : option (list Ascii.ascii) :=
  match list_find (fun w => w `prefix_of` l) whiteSpace with
  | Some (_, w) => Some (drop (length w) l)
  | None => None
  end.

(** The bytes in front of a white space character at the end. *)
Definition spaceBehind (l : list Ascii.ascii) : option (list Ascii.ascii) :=
  match list_find (fun w => w `suffix_of` l) whiteSpace with
  | Some (_, w) => Some (take (length l - length w) l)
  | None => None
  end.

(** [step] repeated until it no longer applies, [fuel] times at most. *)
Fixpoint strip (step : list Ascii.ascii -> option (list Ascii.ascii))
    (fuel : nat) (l : list Ascii.ascii) : list Ascii.ascii :=
  match fuel with
  | O => l
  | S fuel' =>
      match step l with
      | Some l' => strip step fuel' l'
      | None => l
      end
  end.

Definition trimStart (s : string) : string :=
  let l := String.list_ascii_of_string s in
  String.string_of_list_ascii (strip spaceAhead (length l) l).

Definition trimEnd (s : string) : string :=
  let l := String.list_ascii_of_string s in
  String.string_of_list_ascii (strip spaceBehind (length l) l).

Definition trim (s : string) : string := trimEnd (trimStart s).

(** [s.includes(sub)] *)
Definition includes (s sub : string) : bool :=
  match String.index 0 sub s with Some _ => true | None => false end.

(** [s.startsWith(p)] *)
Definition startsWith (s p : string) : bool := String.prefix p s.

(** ** The page view *)

(** An [a] element of the page: its resolved [href] (empty when it has
    none), its [textContent], and whether [offsetParent !== null]. *)
Record Anchor := mkAnchor {
  href : string;
  a_text : string;
  a_visible : bool;
}.

(** What the typing script reports. *)
Record InputInfo := mkInput { inputName : string; inputType : string }.

(** The scripts the handlers inject. *)
Inductive Script :=
  | OutlineBody
  | ClearHighlights
  | ScrollToMatch (searchText : string)
  | ClickFirstLink
  | ClickFoundText (searchText : string)
  | ClickSelector (sel : string)
  | ExtractDom
  | TypeInto (field searchText textToType : string)
  | PressEnter
  | ScrollBy (distance : Z).

(** The page as the injected scripts observe it.  [anchors] and
    [headings] are [querySelectorAll('a')] and
    [querySelectorAll('h1, h2, h3')] in document order; the next fields
    answer the element searches of the other scripts: [clickByText] the
    tag and text of the element the text-match click settles on,
    [findInput] the input the typing script settles on, [enterTarget] the
    tag of the element that receives the Enter key.  The last two fields
    answer for a script that is not the one its handler designed:
    [syntaxError] is the message with which the page view rejects a
    script that does not parse, [fault] the error, if any, with which a
    script fails whose spliced text is read as something else or whose
    selector is not a valid one. *)
Record Page := mkPage {
  anchors : list Anchor;
  headings : list string;
  visibleMatch : string -> bool;
  clickByText : string -> option (string * string);
  querySelector : string -> bool;
  findInput : string -> string -> option InputInfo;
  enterTarget : option string;
  syntaxError : Script -> string;
  fault : Script -> option string;
}.

(** The page-view control surface: the page shown at the n-th
    [executeJavaScript] call. *)
Record WebView := mkWebView { pageAt : nat -> Page }.

(** The link filter of the search-result click:
    [a.href && a.href.startsWith('http') &&
     !a.href.includes('duckduckgo.com') && a.offsetParent !== null]. *)
Definition isResultLink (a : Anchor) : bool :=
  negb (bool_decide (href a = "")) && startsWith (href a) "http"
  && negb (includes (href a) "duckduckgo.com") && a_visible a.

(** The link filter of the extraction:
    [a.href && a.textContent.trim() && a.offsetParent !== null]. *)
Definition isExtractLink (a : Anchor) : bool :=
  negb (bool_decide (href a = "")) && negb (bool_decide (trim (a_text a) = ""))
  && a_visible a.

Definition linkItem (a : Anchor) : ExtractedItem :=
  mkItem (trim (a_text a)) (Some (href a)) link.

Definition headingItem (h : string) : ExtractedItem :=
  mkItem (trim h) None heading.

(** The extraction script: the first 10 qualifying links, then the first 5
    headings. *)
Definition extractScript (p : Page) : list ExtractedItem :=
  List.map linkItem (take 10 (List.filter isExtractLink (anchors p)))
  ++ List.map headingItem (take 5 (headings p)).

(** ** Texts spliced into a script

    Four scripts are built by splicing a text of the task or of the
    context between double quotes into the source of the script.  What
    the page view then reads between the quotes is the text itself only
    when the text holds nothing that the syntax of a string literal gives
    another meaning. *)

(** How the page view reads a text spliced between double quotes:
    [Verbatim], the literal denotes the text; [Unterminated], the literal
    is not closed on its line and the script does not parse; [Other], the
    text is read as an escape sequence, ends the literal early, or is not
    known to be read verbatim. *)
Inductive Reading := Verbatim | Unterminated | Other.

(** What is done to a text before it is spliced. *)
Inductive Splice :=
  | Raw             (* the text as it is *)
  | Escaped         (* every double quote escaped by a backslash *)
  | EscapedTyped.   (* that, and every line feed replaced by backslash n *)

(** One character other than the backslash.  A carriage return, and a
    line feed that is not replaced, end the line inside the literal.  A
    double quote that is not escaped ends the literal.  Of a raw text the
    other control characters are not taken as read verbatim either: the
    typing script puts the field hint into a selector. *)
Definition readChar (how : Splice) (a : Ascii.ascii) : Reading :=
  let n := Ascii.nat_of_ascii a in
  if (n =? 13)%nat then Unterminated
  else if (n =? 10)%nat then
    match how with EscapedTyped => Verbatim | _ => Unterminated end
  else if (n =? 34)%nat || (n <? 32)%nat then
    match how with Raw => Other | _ => Verbatim end
  else Verbatim.

(** The text starts with U+2028 or U+2029, which older page views take
    as line terminators. *)
Definition separatorAhead (s : string) : bool :=
  match s with
  | String a (String b (String c _)) =>
      (Ascii.nat_of_ascii a =? 226)%nat && (Ascii.nat_of_ascii b =? 128)%nat
      && ((Ascii.nat_of_ascii c =? 168)%nat
          || (Ascii.nat_of_ascii c =? 169)%nat)
  | _ => false
  end.

(** The reading of a spliced text.  A backslash at the very end escapes
    the closing quote, so that the literal runs to the end of its line;
    a backslash anywhere else starts an escape sequence. *)
Fixpoint reading (how : Splice) (s : string) : Reading :=
  match s with
  | EmptyString => Verbatim
  | String a rest =>
      if (Ascii.nat_of_ascii a =? 92)%nat then
        match rest with EmptyString => Unterminated | _ => Other end
      else if separatorAhead s then Other
      else
        match readChar how a with
        | Verbatim => reading how rest
        | r => r
        end
  end.

(** The reading of several texts spliced one after the other: the first
    one that is not read verbatim decides. *)
Definition thenReading (r1 r2 : Reading) : Reading :=
  match r1 with Verbatim => r2 | _ => r1 end.

(** What each injected script computes on a page: the value it returns
    ([inr]) or the message of the error it throws ([inl]). *)
Definition Code (A : Type) : Type := Page -> string + A.

Definition plainCode : Code unit := fun _ => inr tt.

(** A script as designed, unless the page has a fault for it. *)
Definition unlessFault {A} (sc : Script) (designed : Code A) : Code A :=
  fun p =>
    match fault p sc with
    | Some message => inl message
    | None => designed p
    end.

(** The script [sc] with texts that are read as [r]: the script as
    [designed] when they are read verbatim; a syntax error when a literal
    is not terminated; otherwise whatever the page view makes of it, an
    error or an answer of the form designed. *)
Definition spliced {A} (sc : Script) (r : Reading) (designed : Code A)
  : Code A := fun p =>
  match r with
  | Verbatim => designed p
  | Unterminated => inl (syntaxError p sc)
  | Other => unlessFault sc designed p
  end.

(** The scroll script of the find handler; [textToFind] is spliced with
    its double quotes escaped. *)
Definition scrollToMatchCode (searchText : string) : Code bool :=
  spliced (ScrollToMatch searchText) (reading Escaped searchText)
    (fun p => inr (visibleMatch p searchText)).

Definition clickFirstLinkCode : Code string := fun p =>
  match List.filter isResultLink (anchors p) with
  | firstLink :: _ => inr (href firstLink)
  | [] => inl "No clickable links found"
  end.

(** The script of the click on a found text; [context.lastFoundText] is
    spliced with its double quotes escaped. *)
Definition clickFoundTextCode (searchText : string)
  : Code (string * string) :=
  spliced (ClickFoundText searchText) (reading Escaped searchText)
    (fun p =>
       match clickByText p searchText with
       | Some c => inr c
       | None => inl "Element not found for clicking"
       end).

(** The script of the click on a selector; [clickTarget] is spliced as
    it is into the argument of [document.querySelector].  A text that is
    read verbatim may still not be a valid selector, which is the page's
    to tell. *)
Definition clickSelectorCode (sel : string) : Code unit :=
  spliced (ClickSelector sel) (reading Raw sel)
    (unlessFault (ClickSelector sel)
       (fun p =>
          if querySelector p sel then inr tt else inl "Element not found")).

Definition extractCode : Code (list ExtractedItem) :=
  fun p => inr (extractScript p).

(** The typing script; [targetField || ''] and
    [context.lastFoundText || ''] are spliced as they are, then
    [task.config.typeText] with its double quotes escaped and its line
    feeds replaced. *)
Definition typeCode (field searchText textToType : string)
  : Code InputInfo :=
  spliced (TypeInto field searchText textToType)
    (thenReading (reading Raw field)
       (thenReading (reading Raw searchText)
          (reading EscapedTyped textToType)))
    (fun p =>
       match findInput p field searchText with
       | Some i => inr i
       | None =>
           inl ("No input field found"
                ++ (if decide (field = "") then "" else " for " ++ field))
       end).

Definition enterCode : Code string := fun p =>
  match enterTarget p with
  | Some tag => inr tag
  | None => inl "No target element for Enter key"
  end.

(** Calls made on the page view, in order. *)
Inductive WebviewCall :=
  | LoadURL (u : string)
  | ExecuteJavaScript (sc : Script)
  | FindInPage (t : string)
  | StopFindInPage (action : string).

(** ** The state of a run *)

(** One call of the dispatcher, as the sequence loop makes it: the loop
    iteration, the index in the pass, the task and the context handed over. *)
Record Dispatch := mkDispatch {
  d_loop : nat;
  d_index : nat;
  d_task : Task;
  d_context : Context;
}.

(** The store ([storeTasks], [storeStatus]) and what the run does to the
    outside: the page-view calls, the alerts shown, and the dispatches. *)
Record State := mkState {
  storeTasks : list Task;
  storeStatus : ExecutionStatus;
  jsCalls : nat;
  webviewCalls : list WebviewCall;
  alerts : list string;
  dispatched : list Dispatch;
}.

(** A computation returns, throws an error with a message, or stays
    suspended for ever. *)
Inductive Res (A : Type) :=
  | Ret (a : A)
  | Throw (message : string)
  | Hang.
Arguments Ret {A} a.
Arguments Throw {A} message.
Arguments Hang {A}.

Definition M (A : Type) : Type := State -> Res A * State.

#[global] Instance M_ret : MRet M := fun A a s => (Ret a, s).

#[global] Instance M_bind : MBind M := fun A B k m s =>
  match m s with
  | (Ret a, s') => k a s'
  | (Throw e, s') => (Throw e, s')
  | (Hang, s') => (Hang, s')
  end.

Definition throw {A} (message : string) : M A := fun s => (Throw message, s).

Definition hang {A} : M A := fun s => (Hang, s).

(** [try { m } catch (error) { h error.message }] *)
Definition tryCatch {A} (m : M A) (h : string -> M A) : M A := fun s =>
  match m s with
  | (Throw e, s') => h e s'
  | r => r
  end.

(** ** The task store

    The store module ([useTaskStore]) is outside the component modelled
    here.  The spec describes it as an ordered list of task descriptors
    and an execution-status record that the engine reads and writes; the
    calls in [executeSequence] pass partial objects, which are merged field
    by field into the record they update. *)

(** A partial status object, as a list of [key: value] assignments. *)
Inductive StatusField :=
  | SetIsExecuting (b : bool)
  | SetIsPaused (b : bool)
  | SetCurrentTaskIndex (i : Z)
  | SetTotalTasks (n : Z)
  | SetCurrentLoop (l : option Z)
  | SetTotalLoops (l : option Z)
  | SetExtractedData (d : list ExtractedItem).

Definition assignStatus (st : ExecutionStatus) (f : StatusField)
  : ExecutionStatus :=
  let '(mkStatus ex pa ix tot cl tl ed lg) := st in
  match f with
  | SetIsExecuting b => mkStatus b pa ix tot cl tl ed lg
  | SetIsPaused b => mkStatus ex b ix tot cl tl ed lg
  | SetCurrentTaskIndex i => mkStatus ex pa i tot cl tl ed lg
  | SetTotalTasks n => mkStatus ex pa ix n cl tl ed lg
  | SetCurrentLoop l => mkStatus ex pa ix tot l tl ed lg
  | SetTotalLoops l => mkStatus ex pa ix tot cl l ed lg
  | SetExtractedData d => mkStatus ex pa ix tot cl tl (Some d) lg
  end.

Definition withLogs (st : ExecutionStatus) (lg : list string)
  : ExecutionStatus :=
  mkStatus (isExecuting st) (isPaused st) (currentTaskIndex st)
    (totalTasks st) (currentLoop st) (totalLoops st) (extractedData st) lg.

(** A partial task object. *)
Inductive TaskField :=
  | SetStatus (st : TaskStatus)
  | SetResult (r : Context)
  | SetError (message : string).

Definition assignTask (t : Task) (f : TaskField) : Task :=
  let '(mkTask i ty cf st rs er) := t in
  match f with
  | SetStatus st' => mkTask i ty cf st' rs er
  | SetResult r => mkTask i ty cf st (Some r) er
  | SetError e => mkTask i ty cf st rs (Some e)
  end.

Definition onStatus (f : ExecutionStatus -> ExecutionStatus) : M unit :=
  fun s => (Ret tt, mkState (storeTasks s) (f (storeStatus s)) (jsCalls s)
                      (webviewCalls s) (alerts s) (dispatched s)).

Definition onTasks (f : list Task -> list Task) : M unit :=
  fun s => (Ret tt, mkState (f (storeTasks s)) (storeStatus s) (jsCalls s)
                      (webviewCalls s) (alerts s) (dispatched s)).

(** Modelled from the spec: [setExecutionStatus] of the task store, which
    is missing; it merges the given fields into the execution status. *)
Definition setExecutionStatus (updates : list StatusField) : M unit :=
  onStatus (fun st => foldl assignStatus st updates).

(** Modelled from the spec: [addLog] of the task store, which is missing;
    the log is an append-only ordered list of lines. *)
Definition addLog (line : string) : M unit :=
  onStatus (fun st => withLogs st (logs st ++ [line])).

(** Modelled from the spec: [clearLogs] of the task store, which is
    missing; it empties the log. *)
Definition clearLogs : M unit := onStatus (fun st => withLogs st []).

Definition patchTask (taskId : string) (updates : list TaskField) (t : Task)
  : Task :=
  if decide (t_id t = taskId) then foldl assignTask t updates else t.

(** Modelled from the spec: [updateTask] of the task store, which is
    missing; it merges the given fields into the task with that id. *)
Definition updateTask (taskId : string) (updates : list TaskField) : M unit :=
  onTasks (List.map (patchTask taskId updates)).

(** ** Effects outside the store *)

Definition alert (message : string) : M unit :=
  fun s => (Ret tt, mkState (storeTasks s) (storeStatus s) (jsCalls s)
                      (webviewCalls s) (alerts s ++ [message]) (dispatched s)).

Definition recordCall (c : WebviewCall) (s : State) : State :=
  mkState (storeTasks s) (storeStatus s) (jsCalls s)
    (webviewCalls s ++ [c]) (alerts s) (dispatched s).

Definition loadURL (u : string) : M unit :=
  fun s => (Ret tt, recordCall (LoadURL u) s).

Definition findInPage (t : string) : M unit :=
  fun s => (Ret tt, recordCall (FindInPage t) s).

Definition stopFindInPage (action : string) : M unit :=
  fun s => (Ret tt, recordCall (StopFindInPage action) s).

(** [await webview.executeJavaScript(code)]: the script runs on the page
    shown at this call; an error thrown inside it rejects the promise. *)
Definition executeJavaScript {A} (webview : WebView) (sc : Script)
    (code : Code A) : M A := fun s =>
  let s' := mkState (storeTasks s) (storeStatus s) (S (jsCalls s))
              (webviewCalls s ++ [ExecuteJavaScript sc]) (alerts s)
              (dispatched s) in
  match code (pageAt webview (jsCalls s)) with
  | inr a => (Ret a, s')
  | inl e => (Throw e, s')
  end.

Definition recordDispatch (d : Dispatch) : M unit :=
  fun s => (Ret tt, mkState (storeTasks s) (storeStatus s) (jsCalls s)
                      (webviewCalls s) (alerts s) (dispatched s ++ [d])).

(** ** The engine *)

(** The answer of [analyzeTaskSequence]; the optimizer is outside the
    component modelled here, and the engine only logs its suggestions. *)
Record Analysis := mkAnalysis {
  isOptimal : bool;
  suggestions : list string;
}.

Inductive Outcome :=
  | Aborted
  | Completed
  | Failed (loop i : nat) (message : string).

Definition quote : string := String (Ascii.ascii_of_nat 34) EmptyString.

Definition quoted (s : string) : string := quote ++ s ++ quote.

(** ** The panels and dialogs of the sidebar *)

(** The accordion sections of the sidebar and their open/closed state. *)
Inductive SectionName :=
  | SecActions | SecSequence | SecExtractedData | SecLogs.

#[global] Instance SectionName_eq_dec : EqDecision SectionName.
Proof. solve_decision. Defined.

Record SectionsExpanded := mkSections {
  exp_actions : bool;
  exp_sequence : bool;
  exp_extractedData : bool;
  exp_logs : bool;
}.

(** [prev[section]] *)
Definition expanded (prev : SectionsExpanded) (section : SectionName) : bool :=
  match section with
  | SecActions => exp_actions prev
  | SecSequence => exp_sequence prev
  | SecExtractedData => exp_extractedData prev
  | SecLogs => exp_logs prev
  end.

(** [setSectionsExpanded(prev => ({ ...prev, [section]: !prev[section] }))] *)
Definition toggleSection (section : SectionName) (prev : SectionsExpanded)
  : SectionsExpanded :=
  match section with
  | SecActions =>
      mkSections (negb (exp_actions prev)) (exp_sequence prev)
        (exp_extractedData prev) (exp_logs prev)
  | SecSequence =>
      mkSections (exp_actions prev) (negb (exp_sequence prev))
        (exp_extractedData prev) (exp_logs prev)
  | SecExtractedData =>
      mkSections (exp_actions prev) (exp_sequence prev)
        (negb (exp_extractedData prev)) (exp_logs prev)
  | SecLogs =>
      mkSections (exp_actions prev) (exp_sequence prev)
        (exp_extractedData prev) (negb (exp_logs prev))
  end.

(** [list.slice(-n)] *)
Definition sliceLast {A} (n : nat) (l : list A) : list A :=
  drop (length l - n) l.

(** The lines the log panel renders: [executionStatus.logs.slice(-10)]. *)
Definition visibleLogs (st : ExecutionStatus) : list string :=
  sliceLast 10 (logs st).

(** The click handler of an entry of the extracted-data panel:
    [if (item.url && webviewRef?.current) { loadURL(item.url); addLog(...) }] *)
Definition onItemClick (item : ExtractedItem) (webviewRef : option WebView)
  : M unit :=
  match truthy (url item), webviewRef with
  | Some address, Some _ =>
      loadURL address;;
      addLog ("Navigated to: " ++ title item)
  | _, _ => mret tt
  end.

(** A row of the list of saved sequences. *)
Record SavedSequence := mkSaved {
  seq_name : string;
  seq_tasks : list Task;
  seq_updated_at : string;
}.

(** Calls made on [window.database], in order. *)
Inductive DatabaseCall :=
  | GetAllSequences
  | SaveSequence (name : string) (tasks : list Task)
  | LoadSequence (name : string)
  | DeleteSequence (name : string).

(** The persistence collaborator: what it answers to each call, given the
    number of calls made before.  The answers are the objects
    [{success, sequences?}], [{success, error?}] and
    [{success, sequence?, error?}]. *)
Record Database := mkDatabase {
  getAllSequences : nat -> bool * option (list SavedSequence);
  saveSequence : nat -> string -> list Task -> bool * option string;
  loadSequence : nat -> string -> bool * option SavedSequence * option string;
  deleteSequence : nat -> string -> bool * option string;
}.

(** The state held by the sidebar component, the store it uses, and the
    calls it has made on the database and on the store's [loadSequence]. *)
Record Sidebar := mkSidebar {
  sequenceName : string;
  savedSequences : list SavedSequence;
  showSaveDialog : bool;
  showLoadDialog : bool;
  sectionsExpanded : SectionsExpanded;
  store : State;
  databaseCalls : list DatabaseCall;
  storeLoads : list SavedSequence;
}.

(** An effect on the store, run from a handler of the component. *)
Definition inStore (m : M unit) (u : Sidebar) : Sidebar :=
  mkSidebar (sequenceName u) (savedSequences u) (showSaveDialog u)
    (showLoadDialog u) (sectionsExpanded u) ((m (store u)).2)
    (databaseCalls u) (storeLoads u).

Definition called (c : DatabaseCall) (u : Sidebar) : Sidebar :=
  mkSidebar (sequenceName u) (savedSequences u) (showSaveDialog u)
    (showLoadDialog u) (sectionsExpanded u) (store u)
    (databaseCalls u ++ [c]) (storeLoads u).

Definition setSequenceName (name : string) (u : Sidebar) : Sidebar :=
  mkSidebar name (savedSequences u) (showSaveDialog u)
    (showLoadDialog u) (sectionsExpanded u) (store u)
    (databaseCalls u) (storeLoads u).

Definition setSavedSequences (l : list SavedSequence) (u : Sidebar)
  : Sidebar :=
  mkSidebar (sequenceName u) l (showSaveDialog u)
    (showLoadDialog u) (sectionsExpanded u) (store u)
    (databaseCalls u) (storeLoads u).

Definition setShowSaveDialog (b : bool) (u : Sidebar) : Sidebar :=
  mkSidebar (sequenceName u) (savedSequences u) b
    (showLoadDialog u) (sectionsExpanded u) (store u)
    (databaseCalls u) (storeLoads u).

Definition setShowLoadDialog (b : bool) (u : Sidebar) : Sidebar :=
  mkSidebar (sequenceName u) (savedSequences u) (showSaveDialog u)
    b (sectionsExpanded u) (store u)
    (databaseCalls u) (storeLoads u).

(** The store's [loadSequence(sequence)]; the store is outside the
    component, the call is recorded. *)
Definition storeLoadSequence (sequence : SavedSequence) (u : Sidebar)
  : Sidebar :=
  mkSidebar (sequenceName u) (savedSequences u) (showSaveDialog u)
    (showLoadDialog u) (sectionsExpanded u) (store u)
    (databaseCalls u) (storeLoads u ++ [sequence]).

(** [`${x}`] of an optional string: [undefined] prints as such. *)
Definition jsOptional (o : option string) : string :=
  match o with Some x => x | None => "undefined" end.

Definition loadSavedSequences (db : Database) (u : Sidebar) : Sidebar :=
  let result := getAllSequences db (length (databaseCalls u)) in
  let u1 := called GetAllSequences u in
  if result.1 then setSavedSequences (default [] result.2) u1 else u1.

Definition handleSaveSequence (db : Database) (u : Sidebar) : Sidebar :=
  if decide (trim (sequenceName u) = "") then
    inStore (alert "Please enter a sequence name") u
  else
    let tasks := storeTasks (store u) in
    let result :=
      saveSequence db (length (databaseCalls u)) (sequenceName u) tasks in
    let u1 := called (SaveSequence (sequenceName u) tasks) u in
    if result.1 then
      loadSavedSequences db
        (setSequenceName ""
           (setShowSaveDialog false
              (inStore (addLog ("Sequence " ++ quoted (sequenceName u)
                                ++ " saved successfully")) u1)))
    else inStore (alert ("Failed to save: " ++ jsOptional result.2)) u1.

Definition handleLoadSequence (db : Database) (name : string) (u : Sidebar)
  : Sidebar :=
  let result := loadSequence db (length (databaseCalls u)) name in
  let u1 := called (LoadSequence name) u in
  match result.1.1, result.1.2 with
  | true, Some sequence =>
      setShowLoadDialog false
        (inStore (addLog ("Loaded sequence " ++ quoted name))
           (storeLoadSequence sequence u1))
  | _, _ => inStore (alert ("Failed to load: " ++ jsOptional result.2)) u1
  end.

(** [confirmed] is the answer of the [confirm] dialog. *)
Definition handleDeleteSequence (db : Database) (name : string)
    (confirmed : bool) (u : Sidebar) : Sidebar :=
  if negb confirmed then u
  else
    let result := deleteSequence db (length (databaseCalls u)) name in
    let u1 := called (DeleteSequence name) u in
    if result.1 then
      loadSavedSequences db
        (inStore (addLog ("Deleted sequence " ++ quoted name)) u1)
    else inStore (alert ("Failed to delete: " ++ jsOptional result.2)) u1.

(** ** The settings modal *)

Module SettingsModal.

Record BookmarkItem := mkBookmark {
  id : Z;
  title : string;
  url : string;
  created_at : string;
}.

(** The component state. *)
Record ModalState := mkModal {
  bookmarks : list BookmarkItem;
  loading : bool;
}.

(** What [await window.bookmarks?.f?.(...)] gives: the answer (undefined
    when the bridge or the function is missing), or a rejection. *)
Inductive Reply (A : Type) :=
  | Replied (res : option A)
  | Rejected (message : string).
Arguments Replied {A} res.
Arguments Rejected {A} message.

(** [{success, bookmarks?}] *)
Record BookmarksResult := mkResult {
  success : bool;
  listed : option (list BookmarkItem);
}.

(** [res?.success] *)
Definition succeeded (res : option BookmarksResult) : bool :=
  match res with Some r => success r | None => false end.

(** [load]: the state afterwards and the error that escapes, if any. *)
Definition load (reply : Reply BookmarksResult) (st : ModalState)
  : option string * ModalState :=
  let st1 := mkModal (bookmarks st) true in
  match reply with
  | Replied res =>
      let st2 :=
        if succeeded res
        then mkModal (default [] (res ≫= listed)) (loading st1)
        else st1 in
      (None, mkModal (bookmarks st2) false)
  | Rejected message => (Some message, mkModal (bookmarks st1) false)
  end.

(** [handleRemove(url)] *)
Definition handleRemove (address : string) (reply : Reply BookmarksResult)
    (st : ModalState) : option string * ModalState :=
  match reply with
  | Replied res =>
      if succeeded res
      then (None,
            mkModal
              (List.filter
                 (fun b => negb (bool_decide (url b = address)))
                 (bookmarks st))
              (loading st))
      else (None, st)
  | Rejected message => (Some message, st)
  end.

End SettingsModal.

(** ** The first version of the sidebar *)

Module SimpleSidebar.

(** What the handlers do to the outside. *)
Inductive Effect :=
  | ConsoleLog (line : string)
  | Alert (message : string)
  | WindowOpen (address : string).

(** [setTasks((prev) => [...prev, task])] *)
Definition handleDrop (task : string) (prev : list string) : list string :=
  prev ++ [task].

(** [prev.filter((_, i) => i !== idx)], from index [i] on. *)
Fixpoint removeFrom (i idx : nat) (prev : list string) : list string :=
  match prev with
  | [] => []
  | task :: rest =>
      if bool_decide (i <> idx) then task :: removeFrom (S i) idx rest
      else removeFrom (S i) idx rest
  end.

(** The Remove button of the entry at [idx]. *)
Definition remove (idx : nat) (prev : list string) : list string :=
  removeFrom 0 idx prev.

Definition executeTask (encodeURIComponent : string -> string)
    (searchQuery : string) (task : string) (index : nat) : list Effect :=
  ConsoleLog ("Executing " ++ pretty (Z.of_nat index + 1) ++ ": " ++ task)
  :: (if decide (task = "Search") then
        if decide (searchQuery = "") then
          [Alert "Please enter a search term first."]
        else
          [ConsoleLog ("Searching web for: " ++ searchQuery);
           WindowOpen ("https://www.google.com/search?q="
                       ++ encodeURIComponent searchQuery)]
      else if decide (task = "Find") then
        [Alert "Simulating: Find element on page..."]
      else if decide (task = "Click") then
        [Alert "Simulating: Click element..."]
      else if decide (task = "Extract DOM") then
        [Alert "Simulating: Extracting DOM content..."]
      else []).

(** The [for] loop of [executeAll], from index [i] on. *)
Fixpoint executeFrom (encodeURIComponent : string -> string)
    (searchQuery : string) (i : nat) (tasks : list string) : list Effect :=
  match tasks with
  | [] => []
  | task :: rest =>
      executeTask encodeURIComponent searchQuery task i
      ++ executeFrom encodeURIComponent searchQuery (S i) rest
  end.

(** [executeAll]; the check mark in front of the text of the final alert is
    left out, as the pictographs of the log lines are. *)
Definition executeAll (encodeURIComponent : string -> string)
    (searchQuery : string) (tasks : list string) : list Effect :=
  executeFrom encodeURIComponent searchQuery 0 tasks
  ++ [Alert "All tasks executed in sequence!"].

Definition isWindowOpen (e : Effect) : bool :=
  match e with WindowOpen _ => true | _ => false end.

End SimpleSidebar.

(** ** The agent bar *)

Module AgentBar.

(** [handleSubmit]: the calls of [onToggleRun] it makes for the content
    [input] of the field. *)
Definition handleSubmit (input : string) : list string :=
  if decide (trim input = "") then [] else [trim input].

End AgentBar.

(** [s] does not start with a white space character. *)
Definition noLeadingSpace (s : string) : Prop :=
  Forall (fun w => ~ w `prefix_of` String.list_ascii_of_string s) whiteSpace.

(** [s] does not end with a white space character. *)
Definition noTrailingSpace (s : string) : Prop :=
  Forall (fun w => ~ w `suffix_of` String.list_ascii_of_string s) whiteSpace.

(** The state [s] with its log replaced by [lines]. *)
Definition replaceLog (s : State) (lines : list string) : State :=
  mkState (storeTasks s) (withLogs (storeStatus s) lines) (jsCalls s)
    (webviewCalls s) (alerts s) (dispatched s).

(** ** The pause flag as the run reads it *)

(** Modelled from the spec: the task store, which is missing, owns the
    execution-status record; [useTaskStore()] hands the component the
    current record at every render, and [setExecutionStatus] merges its
    argument into a new record, as every update of the store above does,
    so that a record handed out earlier keeps the values it had.
    [executeSequence] is a closure of the render whose Execute button was
    pressed, and the [executionStatus] that its polling loop reads is the
    record of that render.  [closureReads executionStatus] are the reads
    of [executionStatus.isPaused] by a run whose closure holds the record
    [executionStatus]: the same value at every poll. *)
Definition closureReads (executionStatus : ExecutionStatus)
  : nat -> option nat :=
  fun _ => if isPaused executionStatus then None else Some 0%nat.

Section Engine.

(** The JavaScript built-in [encodeURIComponent]. *)
Variable encodeURIComponent : string -> string.

Variable analyzeTaskSequence : list Task -> Analysis.

(** The reads of [executionStatus.isPaused] made by the polling loop in
    front of a task.  [pauseReads n = Some k]: in front of the dispatch
    that follows [n] earlier ones the flag reads true [k] times and then
    false; [pauseReads n = None]: it reads true at every poll. *)
Variable pauseReads : nat -> option nat.

(** [while (executionStatus.isPaused) await new Promise(... 100)] *)
Definition awaitResume : M unit := fun s =>
  match pauseReads (length (dispatched s)) with
  | Some _ => (Ret tt, s)
  | None => hang s
  end.

(** The [find] handler from the resolved search text on. *)
Definition findText (webview : WebView) (textToFind : string) : M Context :=
  addLog ("  Searching for: " ++ quoted textToFind);;
  findInPage textToFind;;
  scrolled ← executeJavaScript webview (ScrollToMatch textToFind)
               (scrollToMatchCode textToFind);
  (if scrolled : bool
   then addLog ("  Found and scrolled to: " ++ quoted textToFind)
   else addLog ("  Text found but may not be visible: "
                ++ quoted textToFind));;
  mret {[ "lastFoundText" := VStr textToFind ]}.

Definition executeTask (task : Task) (webview : WebView)
    (context : Context) : M Context :=
  let config := t_config task in
  match t_type task with
  | TSearch =>
      match truthy (searchQuery config) with
      | None => throw "Search query is required"
      | Some query =>
          executeJavaScript webview OutlineBody plainCode;;
          loadURL ("https://duckduckgo.com/?q=" ++ encodeURIComponent query);;
          mret {[ "lastSearchQuery" := VStr query ]}
      end
  | TFind =>
      stopFindInPage "clearSelection";;
      executeJavaScript webview ClearHighlights plainCode;;
      match truthy (orElse (text config) (selector config)) with
      | Some textToFind => findText webview textToFind
      | None =>
          match truthyValue (context !! "lastFoundText") with
          | Some inherited =>
              addLog ("  Using text from previous Find: "
                      ++ quoted (jsString inherited));;
              match inherited with
              | VStr textToFind => findText webview textToFind
              | _ =>
                  (* [findInPage] takes a string only *)
                  addLog ("  Searching for: " ++ quoted (jsString inherited));;
                  throw "TypeError"
              end
          | None => throw "Text to find is required"
          end
      end
  | TClick =>
      match truthy (clickSelector config),
            truthyValue (context !! "lastFoundText"),
            truthyValue (context !! "lastSearchQuery") with
      | None, None, Some _ =>
          addLog "  Auto-clicking first link on search results";;
          stopFindInPage "clearSelection";;
          result ← executeJavaScript webview ClickFirstLink
                     clickFirstLinkCode;
          addLog ("  Clicked: " ++ result);;
          mret (<["clickedElement" := VClick (ClickedLink result)]> context)
      | None, Some found, _ =>
          addLog ("  Auto-targeting element from previous Find: "
                  ++ quoted (jsString found));;
          stopFindInPage "activateSelection";;
          match found with
          | VStr searchText =>
              tryCatch
                (clickResult ← executeJavaScript webview
                                 (ClickFoundText searchText)
                                 (clickFoundTextCode searchText);
                 addLog ("  Clicked " ++ fst clickResult ++ ": "
                         ++ quote ++ snd clickResult ++ "..." ++ quote);;
                 mret (<["clickedElement" :=
                           VClick (ClickedElement (fst clickResult)
                                     (snd clickResult))]> context))
                (fun message =>
                   addLog ("  Auto-click failed: " ++ message);;
                   throw message)
          | _ =>
              (* [context.lastFoundText.replace] is not a function *)
              throw "TypeError"
          end
      | Some clickTarget, _, _ =>
          executeJavaScript webview (ClickSelector clickTarget)
            (clickSelectorCode clickTarget);;
          mret context
      | None, None, None =>
          throw "No click target specified and no context from previous Find/Search"
      end
  | TExtractDom =>
      extracted ← executeJavaScript webview ExtractDom extractCode;
      addLog ("Extracted " ++ pretty (length extracted) ++ " items");;
      setExecutionStatus [SetExtractedData extracted];;
      mret (<["extractedData" := VItems extracted]> context)
  | TType =>
      match truthy (typeText config) with
      | None => throw "Text to type is required"
      | Some typed =>
          let field := default "" (truthy (targetField config)) in
          let searchText :=
            from_option jsString ""
              (truthyValue (context !! "lastFoundText")) in
          addLog ("  Typing: " ++ quoted typed
                  ++ (if decide (field = "") then ""
                      else " into " ++ field));;
          result ← executeJavaScript webview
                     (TypeInto field searchText typed)
                     (typeCode field searchText typed);
          addLog ("  Typed into " ++ inputName result
                  ++ " (" ++ inputType result ++ ")");;
          mret (<["typedText" := VStr typed]> context)
      end
  | TEnter =>
      addLog "  Pressing Enter key";;
      executeJavaScript webview PressEnter enterCode;;
      addLog "  Enter key pressed";;
      mret context
  | TScroll =>
      let amount := numOr (scrollAmount config) 500 in
      addLog ("  Scrolling " ++ pretty amount ++ "px");;
      executeJavaScript webview (ScrollBy amount) plainCode;;
      mret context
  | TWait =>
      let time := numOr (waitTime config) 1000 in
      addLog ("  Waiting " ++ pretty time ++ "ms");;
      mret context
  | TLoop =>
      addLog "Loop task - execution handled at sequence level";;
      mret context
  | TOther name => throw ("Unknown task type: " ++ name)
  end.

(** [tasks[tasks.length - 1]?.type === 'loop'] *)
Definition hasLoop (tasks : list Task) : bool :=
  match last tasks with
  | Some lastTask => bool_decide (t_type lastTask = TLoop)
  | None => false
  end.

(** [hasLoop ? (lastTask.config.loopCount || 1) : 1] *)
Definition loopCountOf (tasks : list Task) : Z :=
  match last tasks with
  | Some lastTask =>
      if bool_decide (t_type lastTask = TLoop)
      then numOr (loopCount (t_config lastTask)) 1
      else 1
  | None => 1
  end.

(** [hasLoop ? tasks.slice(0, -1) : tasks] *)
Definition tasksToExecute (tasks : list Task) : list Task :=
  if hasLoop tasks then take (length tasks - 1)%nat tasks else tasks.

(** The body of the inner [for] loop for the task at index [i]: the
    context for the next task, or the outcome with which the [catch]
    block returns from [executeSequence]. *)
Definition runTask (webview : WebView) (loop i : nat) (task : Task)
    (executionContext : Context) : M (Context + Outcome) :=
  awaitResume;;
  updateTask (t_id task) [SetStatus running];;
  setExecutionStatus [SetCurrentTaskIndex (Z.of_nat i)];;
  addLog ("Executing task " ++ pretty (Z.of_nat i + 1) ++ ": "
          ++ typeName (t_type task));;
  tryCatch
    (recordDispatch (mkDispatch loop i task executionContext);;
     result ← executeTask task webview executionContext;
     updateTask (t_id task) [SetStatus completed; SetResult result];;
     addLog ("Task " ++ pretty (Z.of_nat i + 1) ++ " completed");;
     mret (inl (result ∪ executionContext)))
    (fun message =>
       updateTask (t_id task) [SetStatus failed; SetError message];;
       addLog ("Task " ++ pretty (Z.of_nat i + 1) ++ " failed: "
               ++ message);;
       setExecutionStatus [SetIsExecuting false; SetIsPaused false];;
       mret (inr (Failed loop i message))).

(** The inner [for] loop of one pass, from index [i] on; [Some o] when
    the [catch] block returned from [executeSequence]. *)
Fixpoint runTasks (webview : WebView) (loop i : nat)
    (remaining : list Task) (executionContext : Context)
    : M (option Outcome) :=
  match remaining with
  | [] => mret None
  | task :: rest =>
      r ← runTask webview loop i task executionContext;
      match r with
      | inl executionContext' =>
          runTasks webview loop (S i) rest executionContext'
      | inr o => mret (Some o)
      end
  end.

(** [if (hasLoop && loop > 0) { addLog(...); setExecutionStatus(...) }] *)
Definition announceRestart (tasks : list Task) (loop : nat) : M unit :=
  if hasLoop tasks && bool_decide (0 < loop)%nat
  then
    addLog ("\nLoop " ++ pretty (Z.of_nat loop + 1) ++ "/"
            ++ pretty (loopCountOf tasks) ++ " - Restarting sequence");;
    setExecutionStatus [SetCurrentLoop (Some (Z.of_nat loop + 1))]
  else mret tt.

(** The outer [for (let loop = 0; loop < loopCount; loop++)], with
    [passes] iterations left. *)
Fixpoint runLoops (webview : WebView) (tasks : list Task)
    (passes loop : nat) : M (option Outcome) :=
  match passes with
  | O => mret None
  | S passes' =>
      announceRestart tasks loop;;
      r ← runTasks webview loop 0 (tasksToExecute tasks) ∅;
      match r with
      | Some o => mret (Some o)
      | None => runLoops webview tasks passes' (S loop)
      end
  end.

(** The number of iterations of the outer loop: the [loop] values with
    [0 <= loop < loopCount]. *)
Definition passesOf (tasks : list Task) : nat := Z.to_nat (loopCountOf tasks).

Definition executeSequence (tasks : list Task)
    (webviewRef : option WebView) : M Outcome :=
  if decide (length tasks = 0%nat) then
    alert "No tasks to execute";; mret Aborted
  else
    match webviewRef with
    | None => alert "Webview not available";; mret Aborted
    | Some webview =>
        let analysis := analyzeTaskSequence tasks in
        (if isOptimal analysis then mret tt
         else
           addLog "Sequence analysis warnings:";;
           foldr (fun s k => addLog ("  - " ++ s);; k) (mret tt)
             (suggestions analysis));;
        setExecutionStatus
          [SetIsExecuting true; SetIsPaused false; SetCurrentTaskIndex 0;
           SetTotalTasks (Z.of_nat (length tasks));
           SetTotalLoops
             (if hasLoop tasks then Some (loopCountOf tasks) else None)];;
        clearLogs;;
        addLog "Starting execution...";;
        (if hasLoop tasks
         then addLog ("Sequence will loop " ++ pretty (loopCountOf tasks)
                      ++ " times")
         else mret tt);;
        r ← runLoops webview tasks (passesOf tasks) 0;
        match r with
        | Some o => mret o
        | None =>
            addLog "All tasks executed successfully!";;
            setExecutionStatus
              [SetIsExecuting false; SetIsPaused false;
               SetCurrentTaskIndex (-1); SetCurrentLoop None];;
            mret Completed
        end
    end.



(** ** The Pause button during a run *)

(** The Pause/Resume button, which is rendered while a run executes:
    [onClick={() => setExecutionStatus({ isPaused: !executionStatus.isPaused })}],
    with the record of the render that shows the button, the current
    one. *)
Definition pressPause : M unit := fun s =>
  if isExecuting (storeStatus s)
  then setExecutionStatus [SetIsPaused (negb (isPaused (storeStatus s)))] s
  else (Ret tt, s).

Fixpoint pressTimes (n : nat) : M unit :=
  match n with
  | O => mret tt
  | S n' => pressPause;; pressTimes n'
  end.

(** [await new Promise(resolve => setTimeout(resolve, 500))] after a task,
    and the longer wait between two passes: while the loop waits, the
    user presses the button [presses n] times, [n] being the number of
    dispatches made so far. *)
Definition delayWith (presses : nat -> nat) : M unit := fun s =>
  pressTimes (presses (length (dispatched s))) s.

(** The flag of the store, as an observer of the run reads it. *)
Definition storePaused : M bool :=
  fun s => (Ret (isPaused (storeStatus s)), s).

(** The inner loop, with the user at the button.  Besides the outcome it
    returns, for every task it started, what the flag of the store was
    when the poll in front of that task was passed. *)
Fixpoint runTasksWith (presses : nat -> nat) (webview : WebView)
    (loop i : nat) (remaining : list Task) (executionContext : Context)
    : M (option Outcome * list bool) :=
  match remaining with
  | [] => mret (None, [])
  | task :: rest =>
      paused ← storePaused;
      r ← runTask webview loop i task executionContext;
      match r with
      | inl executionContext' =>
          delayWith presses;;
          next ← runTasksWith presses webview loop (S i) rest
                   executionContext';
          mret (next.1, paused :: next.2)
      | inr o => mret (Some o, [paused])
      end
  end.

Fixpoint runLoopsWith (presses : nat -> nat) (webview : WebView)
    (tasks : list Task) (passes loop : nat)
    : M (option Outcome * list bool) :=
  match passes with
  | O => mret (None, [])
  | S passes' =>
      announceRestart tasks loop;;
      r ← runTasksWith presses webview loop 0 (tasksToExecute tasks) ∅;
      match r.1 with
      | Some o => mret (Some o, r.2)
      | None =>
          next ← runLoopsWith presses webview tasks passes' (S loop);
          mret (next.1, (r.2 ++ next.2)%list)
      end
  end.

(** [executeSequence], with the user at the button. *)
Definition executeSequenceWith (presses : nat -> nat) (tasks : list Task)
    (webviewRef : option WebView) : M (Outcome * list bool) :=
  if decide (length tasks = 0%nat) then
    alert "No tasks to execute";; mret (Aborted, [])
  else
    match webviewRef with
    | None => alert "Webview not available";; mret (Aborted, [])
    | Some webview =>
        let analysis := analyzeTaskSequence tasks in
        (if isOptimal analysis then mret tt
         else
           addLog "Sequence analysis warnings:";;
           foldr (fun s k => addLog ("  - " ++ s);; k) (mret tt)
             (suggestions analysis));;
        setExecutionStatus
          [SetIsExecuting true; SetIsPaused false; SetCurrentTaskIndex 0;
           SetTotalTasks (Z.of_nat (length tasks));
           SetTotalLoops
             (if hasLoop tasks then Some (loopCountOf tasks) else None)];;
        clearLogs;;
        addLog "Starting execution...";;
        (if hasLoop tasks
         then addLog ("Sequence will loop " ++ pretty (loopCountOf tasks)
                      ++ " times")
         else mret tt);;
        r ← runLoopsWith presses webview tasks (passesOf tasks) 0;
        match r.1 with
        | Some o => mret (o, r.2)
        | None =>
            addLog "All tasks executed successfully!";;
            setExecutionStatus
              [SetIsExecuting false; SetIsPaused false;
               SetCurrentTaskIndex (-1); SetCurrentLoop None];;
            mret (Completed, r.2)
        end
    end.

(** ** The expected order of dispatches *)

(** What identifies a dispatch: loop iteration, index in the pass, task. *)
Definition dispatchKey (d : Dispatch) : nat * nat * Task :=
  (d_loop d, d_index d, d_task d).

(** The tasks [ts] in list order, numbered from [i], in iteration [loop]. *)
Fixpoint passFrom (loop i : nat) (ts : list Task) : list (nat * nat * Task) :=
  match ts with
  | [] => []
  | t :: rest => (loop, i, t) :: passFrom loop (S i) rest
  end.

(** [passes] consecutive passes over [body], the first one numbered
    [loop]. *)
Fixpoint schedule (passes loop : nat) (body : list Task)
  : list (nat * nat * Task) :=
  match passes with
  | O => []
  | S passes' => passFrom loop 0 body ++ schedule passes' (S loop) body
  end.

(** ** Relations between states used to describe a run *)

(** A handler writes log lines and the extracted data, and calls the page
    view; the task list, the dispatch record, the alerts and the other
    status fields stay as they are. *)
Record handlerFrame (s s' : State) : Prop := mkFrame {
  frame_tasks : storeTasks s' = storeTasks s;
  frame_dispatched : dispatched s' = dispatched s;
  frame_alerts : alerts s' = alerts s;
  frame_isExecuting :
    isExecuting (storeStatus s') = isExecuting (storeStatus s);
  frame_isPaused : isPaused (storeStatus s') = isPaused (storeStatus s);
  frame_currentTaskIndex :
    currentTaskIndex (storeStatus s') = currentTaskIndex (storeStatus s);
  frame_totalTasks : totalTasks (storeStatus s') = totalTasks (storeStatus s);
  frame_currentLoop :
    currentLoop (storeStatus s') = currentLoop (storeStatus s);
  frame_totalLoops : totalLoops (storeStatus s') = totalLoops (storeStatus s);
}.

(** [Frames m]: [m] respects the frame and never stays suspended. *)
Definition Frames {A} (m : M A) : Prop :=
  forall s r s', m s = (r, s') -> handlerFrame s s' /\ r <> Hang.

(** What [runTask] does around the handler call, whatever the handler
    answers: one dispatch is recorded, the task goes through [running] to
    the status given by [final], and the current index is set. *)
Record stepped (loop i : nat) (task : Task) (context : Context)
    (final : list TaskField) (s s' : State) : Prop := mkStepped {
  step_dispatched :
    dispatched s' = (dispatched s ++ [mkDispatch loop i task context])%list;
  step_tasks :
    storeTasks s' =
      List.map (patchTask (t_id task) final)
        (List.map (patchTask (t_id task) [SetStatus running]) (storeTasks s));
  step_alerts : alerts s' = alerts s;
  step_totalTasks : totalTasks (storeStatus s') = totalTasks (storeStatus s);
  step_currentLoop :
    currentLoop (storeStatus s') = currentLoop (storeStatus s);
  step_totalLoops : totalLoops (storeStatus s') = totalLoops (storeStatus s);
  step_index : currentTaskIndex (storeStatus s') = Z.of_nat i;
}.

(** The state in which the outer loop starts. *)
Record started (tasks : list Task) (s s0 : State) : Prop := mkStarted {
  start_tasks : storeTasks s0 = storeTasks s;
  start_dispatched : dispatched s0 = dispatched s;
  start_alerts : alerts s0 = alerts s;
  start_isExecuting : isExecuting (storeStatus s0) = true;
  start_isPaused : isPaused (storeStatus s0) = false;
  start_index : currentTaskIndex (storeStatus s0) = 0;
  start_totalTasks :
    totalTasks (storeStatus s0) = Z.of_nat (length tasks);
  start_totalLoops :
    totalLoops (storeStatus s0)
    = if hasLoop tasks then Some (loopCountOf tasks) else None;
  start_currentLoop :
    currentLoop (storeStatus s0) = currentLoop (storeStatus s);
}.

(** The state after the lines that follow the outer loop. *)
Record finished (s1 s' : State) : Prop := mkFinished {
  finish_tasks : storeTasks s' = storeTasks s1;
  finish_dispatched : dispatched s' = dispatched s1;
  finish_alerts : alerts s' = alerts s1;
  finish_isExecuting : isExecuting (storeStatus s') = false;
  finish_isPaused : isPaused (storeStatus s') = false;
  finish_index : currentTaskIndex (storeStatus s') = -1;
  finish_currentLoop : currentLoop (storeStatus s') = None;
  finish_totalTasks : totalTasks (storeStatus s') = totalTasks (storeStatus s1);
  finish_totalLoops : totalLoops (storeStatus s') = totalLoops (storeStatus s1);
  finish_logs :
    logs (storeStatus s')
    = (logs (storeStatus s1) ++ ["All tasks executed successfully!"])%list;
}.

(** The contexts along the dispatches [ds] of one pass that starts with
    [context]: every dispatch receives the context built so far, and the
    next one receives it extended by what the handler returned. *)
Fixpoint chained (webview : WebView) (context : Context)
    (ds : list Dispatch) : Prop :=
  match ds with
  | [] => True
  | d :: rest =>
      d_context d = context
      /\ match rest with
         | [] => True
         | _ =>
             exists sa sb result,
               executeTask (d_task d) webview context sa = (Ret result, sb)
               /\ chained webview (result ∪ context) rest
         end
  end.

(** ** The handler calls of a run *)

(** A call of [executeTask] made by the sequence loop: the dispatch, the
    state in which the handler was called, its answer and the state it
    left. *)
Record Call := mkCall {
  c_dispatch : Dispatch;
  c_before : State;
  c_answer : Res Context;
  c_after : State;
}.

Definition returned (c : Call) : Prop :=
  match c_answer c with Ret _ => True | _ => False end.

(** The steps of the loop itself, from one handler call to the next: they
    leave the page view and the extracted data alone and only add lines
    to the log. *)
Record loopOnly (s s' : State) : Prop := mkLoopOnly {
  lo_jsCalls : jsCalls s' = jsCalls s;
  lo_webviewCalls : webviewCalls s' = webviewCalls s;
  lo_extractedData :
    extractedData (storeStatus s') = extractedData (storeStatus s);
  lo_logs : logs (storeStatus s) `prefix_of` logs (storeStatus s');
}.

(** From [s] to [s'] the loop has made the handler calls [calls], in this
    order and no other: every call is an execution of [executeTask] on
    the task and the context of its dispatch, in the state the loop had
    reached; the dispatch is recorded when the handler is called; one
    call starts from the state the previous one left, up to steps of the
    loop itself. *)
Fixpoint handled (webview : WebView) (calls : list Call) (s s' : State)
  : Prop :=
  match calls with
  | [] => loopOnly s s' /\ dispatched s' = dispatched s
  | c :: rest =>
      loopOnly s (c_before c)
      /\ dispatched (c_before c) = (dispatched s ++ [c_dispatch c])%list
      /\ executeTask (d_task (c_dispatch c)) webview
           (d_context (c_dispatch c)) (c_before c)
         = (c_answer c, c_after c)
      /\ handled webview rest (c_after c) s'
  end.

(** The calls of one pass over [ts], from index [i] and context [context]
    on: the tasks are called in list order, every call is handed the
    context extended by what the calls before it returned, and a call
    that does not return is the last one. *)
Fixpoint passCalls (loop i : nat) (ts : list Task) (context : Context)
    (calls : list Call) : Prop :=
  match calls with
  | [] => True
  | c :: rest =>
      match ts with
      | [] => False
      | task :: ts' =>
          c_dispatch c = mkDispatch loop i task context
          /\ match c_answer c with
             | Ret result => passCalls loop (S i) ts' (result ∪ context) rest
             | _ => rest = []
             end
      end
  end.

(** A pass over [ts] in which every task was called and returned. *)
Definition fullPass (ts : list Task) (calls : list Call) : Prop :=
  length calls = length ts /\ Forall returned calls.

(** The calls of consecutive iterations of the outer loop, the first one
    numbered [loop]: each iteration starts from the empty context, and
    only the last one may be cut short. *)
Fixpoint loopCalls (loop : nat) (body : list Task)
    (segments : list (list Call)) : Prop :=
  match segments with
  | [] => True
  | segment :: rest =>
      passCalls loop 0 body ∅ segment
      /\ (rest <> [] -> fullPass body segment)
      /\ loopCalls (S loop) body rest
  end.

(** ** States that differ in the pause flag only *)

(** [s] with the pause flag of the store cleared. *)
Definition unpaused (s : State) : State :=
  mkState (storeTasks s) (assignStatus (storeStatus s) (SetIsPaused false))
    (jsCalls s) (webviewCalls s) (alerts s) (dispatched s).

Definition sameButPaused (s1 s2 : State) : Prop := unpaused s1 = unpaused s2.

(** [m] does not look at the pause flag of the store: from states that
    differ in the flag only it gives the same answer and states that
    differ in the flag only. *)
Definition Unaware {A} (m : M A) : Prop :=
  forall s1 s2,
    sameButPaused s1 s2 ->
    (m s1).1 = (m s2).1 /\ sameButPaused (m s1).2 (m s2).2.

(** ** Relations used to describe the page-view calls of a run *)

Definition isLoadURL (c : WebviewCall) : Prop :=
  match c with LoadURL _ => True | _ => False end.

(** Between [s] and [s'] page-view calls were only added, and every added
    call satisfies [P]. *)
Definition callsAdded (P : WebviewCall -> Prop) (s s' : State) : Prop :=
  exists new,
    webviewCalls s' = (webviewCalls s ++ new)%list /\ Forall P new.

(** Every execution of [m] only adds page-view calls that satisfy [P]. *)
Definition KeepsCalls {A} (P : WebviewCall -> Prop) (m : M A) : Prop :=
  forall s r s', m s = (r, s') -> callsAdded P s s'.

(** ** Sample sequences, pages and environments *)

(** A stand-in for [encodeURIComponent] that is right on unreserved
    characters. *)
Definition sampleEncode (q : string) : string := q.

Definition noWarnings (_ : list Task) : Analysis := mkAnalysis true [].

(** The pause flag reads false at the first poll in front of every task. *)
Definition neverPaused (_ : nat) : option nat := Some 0%nat.

Definition idleStatus : ExecutionStatus :=
  mkStatus false false (-1) 0 None None None [].

(** A task as [handleDrop] creates it, with a configuration. *)
Definition newTask (taskId : string) (ty : TaskType) (config : TaskConfig)
  : Task := mkTask taskId ty config pending None None.

(** The state in front of a run: the store holds [tasks], nothing has
    happened yet. *)
Definition initialState (tasks : list Task) : State :=
  mkState tasks idleStatus 0 [] [] [].

Definition loopConfig (n : Z) : TaskConfig :=
  mkConfig None None None None None None None None (Some n).

Definition clickConfig (sel : string) : TaskConfig :=
  mkConfig None None None (Some sel) None None None None None.

Definition selectorConfig (sel : string) : TaskConfig :=
  mkConfig None None (Some sel) None None None None None None.

Definition blankPage : Page :=
  mkPage [] [] (fun _ => false) (fun _ => None) (fun _ => false)
    (fun _ _ => None) None (fun _ => "SyntaxError") (fun _ => None).

Definition blankView : WebView := mkWebView (fun _ => blankPage).

(** A page view whose page has the element looked for at the first script
    call only. *)
Definition vanishingView : WebView :=
  mkWebView (fun n =>
    mkPage [] [] (fun _ => false) (fun _ => None)
      (fun _ => bool_decide (n = 0%nat)) (fun _ _ => None) None
      (fun _ => "SyntaxError") (fun _ => None)).

(** A page with 12 links (one hidden, one without text) and 6 headings. *)
Definition busyPage : Page :=
  mkPage
    (mkAnchor "https://a.example/hidden" "hidden" false
     :: mkAnchor "https://a.example/blank" "   " true
     :: List.map (fun n : nat =>
                    mkAnchor ("https://a.example/" ++ pretty n)
                      (" link " ++ pretty n ++ " ") true)
          (seq 0 12))
    ["One"; " Two "; "Three"; "Four"; "Five"; "Six"]
    (fun _ => true) (fun _ => None) (fun _ => true) (fun _ _ => None) None
    (fun _ => "SyntaxError") (fun _ => None).

Definition busyView : WebView := mkWebView (fun _ => busyPage).

(** wait, scroll, loop twice *)
Definition loopedSequence : list Task :=
  [newTask "a" TWait emptyConfig; newTask "b" TScroll emptyConfig;
   newTask "c" TLoop (loopConfig 2)].

(** wait, loop with the count -3 *)
Definition negativeLoopSequence : list Task :=
  [newTask "a" TWait emptyConfig; newTask "c" TLoop (loopConfig (-3))].

(** a loop task in front of a wait task *)
Definition leadingLoopSequence : list Task :=
  [newTask "c" TLoop emptyConfig; newTask "a" TWait emptyConfig].

(** click on a selector, wait, loop twice *)
Definition clickLoopSequence : list Task :=
  [newTask "k" TClick (clickConfig "#next"); newTask "a" TWait emptyConfig;
   newTask "c" TLoop (loopConfig 2)].

Definition searchConfig (q : string) : TaskConfig :=
  mkConfig (Some q) None None None None None None None None.

Definition typeConfig (t : string) : TaskConfig :=
  mkConfig None None None None (Some t) None None None None.

(** A page view that rejects every script that is not the one designed. *)
Definition strictView : WebView :=
  mkWebView (fun _ =>
    mkPage [] [] (fun _ => true) (fun _ => None) (fun _ => true)
      (fun _ _ => None) None (fun _ => "SyntaxError")
      (fun _ => Some "SyntaxError")).

Definition backslash : string := String (Ascii.ascii_of_nat 92) EmptyString.

Definition lineFeed : string := String (Ascii.ascii_of_nat 10) EmptyString.

Definition textConfig (t : string) : TaskConfig :=
  mkConfig None (Some t) None None None None None None None.



(** search for 'cats', click *)
Definition searchThenClick : list Task :=
  [newTask "s" TSearch (searchConfig "cats");
   newTask "k" TClick emptyConfig].

(** The context a find of 'Contact' leaves behind. *)
Definition foundContext : Context :=
  {[ "lastFoundText" := VStr "Contact" ]}.

(** The context a search for 'cats' leaves behind. *)
Definition searchedContext : Context :=
  {[ "lastSearchQuery" := VStr "cats" ]}.

(** An analysis that has something to say about every sequence. *)
Definition fussy (_ : list Task) : Analysis :=
  mkAnalysis false ["Add a wait after the search"].

(** * Properties *)

(** ** What a handler leaves untouched *)

Lemma handlerFrame_refl s : handlerFrame s s.
Proof. by split. Qed.

Lemma handlerFrame_trans s1 s2 s3 :
  handlerFrame s1 s2 -> handlerFrame s2 s3 -> handlerFrame s1 s3.
Proof. intros [] []; split; congruence. Qed.

Lemma frames_ret {A} (a : A) : Frames (mret a).
Proof. intros s r s' [= <- <-]. split; [apply handlerFrame_refl | done]. Qed.

Lemma frames_throw {A} e : Frames (@throw A e).
Proof. intros s r s' [= <- <-]. split; [apply handlerFrame_refl | done]. Qed.

Lemma frames_bind {A B} (m : M A) (k : A -> M B) :
  Frames m -> (forall a, Frames (k a)) -> Frames (m ≫= k).
Proof.
  intros Hm Hk s r s' H. unfold mbind, M_bind in H.
  destruct (m s) as [[a | e |] s1] eqn:E; destruct (Hm _ _ _ E) as [F1 N1].
  - destruct (Hk a _ _ _ H) as [F2 N2].
    split; [by eapply handlerFrame_trans | done].
  - by injection H as <- <-.
  - done.
Qed.

Lemma frames_tryCatch {A} (m : M A) (h : string -> M A) :
  Frames m -> (forall e, Frames (h e)) -> Frames (tryCatch m h).
Proof.
  intros Hm Hh s r s' H. unfold tryCatch in H.
  destruct (m s) as [[a | e |] s1] eqn:E; destruct (Hm _ _ _ E) as [F1 N1].
  - by injection H as <- <-.
  - destruct (Hh e _ _ _ H) as [F2 N2].
    split; [by eapply handlerFrame_trans | done].
  - done.
Qed.

Lemma frames_addLog line : Frames (addLog line).
Proof. intros s r s' [= <- <-]. by split. Qed.

Lemma frames_setExtractedData d :
  Frames (setExecutionStatus [SetExtractedData d]).
Proof.
  intros s r s' [= <- <-]. by split; [split; simpl; destruct (storeStatus s) |].
Qed.

Lemma frames_loadURL u : Frames (loadURL u).
Proof. intros s r s' [= <- <-]. by split. Qed.

Lemma frames_findInPage t : Frames (findInPage t).
Proof. intros s r s' [= <- <-]. by split. Qed.

Lemma frames_stopFindInPage a : Frames (stopFindInPage a).
Proof. intros s r s' [= <- <-]. by split. Qed.

Lemma frames_executeJavaScript {A} webview sc (code : Code A) :
  Frames (executeJavaScript webview sc code).
Proof.
  intros s r s' H. unfold executeJavaScript in H.
  destruct (code _); injection H as <- <-; by split.
Qed.

Create HintDb frames.
#[local] Hint Resolve frames_ret frames_throw frames_addLog
  frames_setExtractedData frames_loadURL frames_findInPage
  frames_stopFindInPage frames_executeJavaScript : frames.

Ltac frames :=
  repeat first
    [ apply frames_bind; [| intros ?]
    | apply frames_tryCatch; [| intros ?]
    | solve [auto with frames]
    | case_match ].

Lemma frames_findText webview t : Frames (findText webview t).
Proof. unfold findText. frames. Qed.

Lemma frames_executeTask task webview context :
  Frames (executeTask task webview context).
Proof.
  unfold executeTask. pose proof frames_findText. frames.
Qed.

(** ** One step of the inner loop *)

Lemma runTask_spec webview loop i task context s r s' :
  runTask webview loop i task context s = (r, s') ->
  (pauseReads (length (dispatched s)) = None /\ r = Hang /\ s' = s)
  \/ (exists s1 s2 result,
        executeTask task webview context s1 = (Ret result, s2)
        /\ r = Ret (inl (result ∪ context))
        /\ stepped loop i task context
             [SetStatus completed; SetResult result] s s'
        /\ isExecuting (storeStatus s') = isExecuting (storeStatus s)
        /\ isPaused (storeStatus s') = isPaused (storeStatus s)
        /\ last (logs (storeStatus s'))
           = Some ("Task " ++ pretty (Z.of_nat i + 1) ++ " completed"))
  \/ (exists s1 s2 message,
        executeTask task webview context s1 = (Throw message, s2)
        /\ r = Ret (inr (Failed loop i message))
        /\ stepped loop i task context
             [SetStatus failed; SetError message] s s'
        /\ isExecuting (storeStatus s') = false
        /\ isPaused (storeStatus s') = false
        /\ last (logs (storeStatus s'))
           = Some ("Task " ++ pretty (Z.of_nat i + 1) ++ " failed: "
                   ++ message)).
Proof.
  unfold runTask, awaitResume. intros H.
  unfold mbind at 1, M_bind at 1 in H.
  destruct (pauseReads _) as [k|] eqn:Hp.
  2:{ left. by injection H as <- <-. }
  right.
  unfold mbind, M_bind, tryCatch in H. simpl in H.
  match type of H with
  | context [executeTask task webview context ?s1] =>
      destruct (executeTask task webview context s1) as [[result | e |] s2] eqn:E;
      destruct (frames_executeTask _ _ _ _ _ _ E) as [[] N]; simpl in *
  end.
  - left. injection H as <- <-. do 3 eexists. split; [exact E|].
    split; [done|].
    repeat split; simpl; try (by rewrite last_snoc);
      destruct (storeStatus s); simpl in *; congruence.
  - right. injection H as <- <-. do 3 eexists. split; [exact E|].
    split; [done|].
    repeat split; simpl; try (by rewrite last_snoc);
      destruct (storeStatus s), (storeStatus s2); simpl in *; congruence.
  - done.
Qed.

(** ** The pause poll *)

(** While the flag keeps reading true in front of a task, the step stays
    suspended and changes nothing. *)
Lemma runTask_suspended webview loop i task context s :
  pauseReads (length (dispatched s)) = None ->
  runTask webview loop i task context s = (Hang, s).
Proof.
  intros Hp. unfold runTask, awaitResume.
  unfold mbind at 1, M_bind at 1. by rewrite Hp.
Qed.

(** Once the flag has read false, the step runs to its end: the handler
    is called and the step returns. *)
Lemma runTask_resumed webview loop i task context s :
  is_Some (pauseReads (length (dispatched s))) ->
  exists r s',
    runTask webview loop i task context s = (Ret r, s')
    /\ dispatched s'
       = (dispatched s ++ [mkDispatch loop i task context])%list.
Proof.
  intros [k Hp].
  destruct (runTask webview loop i task context s) as [r s'] eqn:E.
  destruct (runTask_spec _ _ _ _ _ _ _ _ E)
    as [(Hn & _) | [(sa & sb & result & _ & -> & St & _)
                   | (sa & sb & message & _ & -> & St & _)]].
  - congruence.
  - eexists _, s'. split; [done | apply St].
  - eexists _, s'. split; [done | apply St].
Qed.

(** ** The dispatches of a pass *)

Lemma runTasks_trace webview loop i ts context s r s' :
  runTasks webview loop i ts context s = (r, s') ->
  exists new,
    dispatched s' = (dispatched s ++ new)%list
    /\ Forall (fun d => (i <= d_index d)%nat
                        /\ (d_index d = i -> d_context d = context)) new
    /\ match r with
       | Ret None => List.map dispatchKey new = passFrom loop i ts
       | Ret (Some o) =>
           exists k message,
             o = Failed loop (i + k) message /\ (k < length ts)%nat
             /\ List.map dispatchKey new = take (S k) (passFrom loop i ts)
       | Hang =>
           exists k,
             (k < length ts)%nat
             /\ List.map dispatchKey new = take k (passFrom loop i ts)
       | Throw _ => False
       end.
Proof.
  revert i context s. induction ts as [|task rest IH]; intros i context s H.
  - injection H as <- <-. exists []. by rewrite app_nil_r.
  - simpl in H. unfold mbind at 1, M_bind at 1 in H.
    destruct (runTask webview loop i task context s) as [r1 s1] eqn:E.
    apply runTask_spec in E
      as [(_ & -> & ->) | [(sa & sb & result & _ & -> & St & _)
                          | (sa & sb & message & _ & -> & St & _)]].
    + injection H as <- <-. exists []. rewrite app_nil_r.
      repeat split; [constructor|]. exists 0%nat. simpl. split; [lia | done].
    + apply IH in H as (new & Hd & Hall & Hr).
      exists (mkDispatch loop i task context :: new).
      rewrite Hd, (step_dispatched _ _ _ _ _ _ _ St), <- app_assoc.
      split; [done|]. split.
      * constructor; [simpl; split; [lia | done]|].
        eapply Forall_impl; [exact Hall|]. simpl. intros d [? _]. split; lia.
      * destruct r as [[o|] | |]; simpl.
        -- destruct Hr as (k & message & -> & Hk & Hr).
           exists (S k), message. rewrite Hr.
           split; [f_equal; lia|]. split; [lia | done].
        -- by rewrite Hr.
        -- done.
        -- destruct Hr as (k & Hk & Hr). exists (S k). rewrite Hr.
           split; [lia | done].
    + injection H as <- <-. exists [mkDispatch loop i task context].
      split; [apply (step_dispatched _ _ _ _ _ _ _ St)|]. split.
      * constructor; [simpl; split; [lia | done] | constructor].
      * exists 0%nat, message. simpl. rewrite Nat.add_0_r.
        split; [done|]. split; [lia | done].
Qed.

(** ** The dispatches of the outer loop *)

Lemma announceRestart_spec tasks loop s :
  exists s0,
    announceRestart tasks loop s = (Ret tt, s0)
    /\ storeTasks s0 = storeTasks s
    /\ dispatched s0 = dispatched s
    /\ alerts s0 = alerts s
    /\ isExecuting (storeStatus s0) = isExecuting (storeStatus s)
    /\ isPaused (storeStatus s0) = isPaused (storeStatus s)
    /\ totalTasks (storeStatus s0) = totalTasks (storeStatus s)
    /\ totalLoops (storeStatus s0) = totalLoops (storeStatus s).
Proof.
  unfold announceRestart. destruct (_ && _); eexists; (split; [reflexivity|]);
    simpl; by destruct (storeStatus s).
Qed.

Lemma runLoops_trace webview tasks passes loop s r s' :
  runLoops webview tasks passes loop s = (r, s') ->
  let body := tasksToExecute tasks in
  exists new,
    dispatched s' = (dispatched s ++ new)%list
    /\ Forall (fun d => d_index d = 0%nat -> d_context d = ∅) new
    /\ match r with
       | Ret None => List.map dispatchKey new = schedule passes loop body
       | Ret (Some o) =>
           exists p k message,
             o = Failed (loop + p) k message
             /\ (p < passes)%nat /\ (k < length body)%nat
             /\ List.map dispatchKey new
                = (schedule p loop body
                   ++ take (S k) (passFrom (loop + p) 0 body))%list
       | Hang =>
           exists p k,
             (p < passes)%nat /\ (k < length body)%nat
             /\ List.map dispatchKey new
                = (schedule p loop body
                   ++ take k (passFrom (loop + p) 0 body))%list
       | Throw _ => False
       end.
Proof.
  intros H body. revert loop s H.
  induction passes as [|passes IH]; intros loop s H.
  - injection H as <- <-. exists []. by rewrite app_nil_r.
  - simpl in H. unfold mbind at 1, M_bind at 1 in H.
    destruct (announceRestart_spec tasks loop s) as (s0 & Hpre & _ & Hs0 & _).
    rewrite Hpre in H. clear Hpre.
    unfold mbind at 1, M_bind at 1 in H. fold body in H.
    destruct (runTasks webview loop 0 body ∅ s0) as [r1 s1] eqn:E.
    apply runTasks_trace in E as (new1 & Hd1 & Hall1 & Hr1).
    rewrite Hs0 in Hd1.
    assert (Forall (fun d => d_index d = 0%nat -> d_context d = ∅) new1)
      as Hctx1 by (eapply Forall_impl; [exact Hall1 | by intros d [_ ?]]).
    destruct r1 as [[o|] | e |].
    + injection H as <- <-. exists new1. split; [done|]. split; [done|].
      destruct Hr1 as (k & message & -> & Hk & Hr1).
      exists 0%nat, k, message. rewrite Nat.add_0_r. simpl.
      split; [done|]. split; [lia|]. split; [done | exact Hr1].
    + apply IH in H as (new & Hd & Hall & Hr).
      exists (new1 ++ new)%list. rewrite Hd, Hd1, <- app_assoc.
      split; [done|]. split; [by apply Forall_app|].
      rewrite map_app, Hr1.
      destruct r as [[o|] | |]; simpl.
      * destruct Hr as (p & k & message & -> & Hp & Hk & Hr).
        exists (S p), k, message. rewrite Hr. simpl.
        replace (loop + S p)%nat with (S loop + p)%nat by lia.
        split; [done|]. split; [lia|]. split; [done|]. by rewrite <- app_assoc.
      * by rewrite Hr.
      * done.
      * destruct Hr as (p & k & Hp & Hk & Hr).
        exists (S p), k. rewrite Hr. simpl.
        replace (loop + S p)%nat with (S loop + p)%nat by lia.
        split; [lia|]. split; [done|]. by rewrite <- app_assoc.
    + done.
    + injection H as <- <-. exists new1. split; [done|]. split; [done|].
      destruct Hr1 as (k & Hk & Hr1). exists 0%nat, k.
      rewrite Nat.add_0_r. simpl. split; [lia|]. split; [done | exact Hr1].
Qed.

(** ** The start and the end of a run *)

Lemma suggestions_logged (l : list string) s :
  exists extra,
    foldr (fun x k => addLog ("  - " ++ x);; k) (mret tt) l s
    = (Ret tt, mkState (storeTasks s)
                 (withLogs (storeStatus s)
                    (logs (storeStatus s) ++ extra)%list)
                 (jsCalls s) (webviewCalls s) (alerts s) (dispatched s)).
Proof.
  revert s. induction l as [|x l IH]; intros s.
  - exists []. simpl. rewrite app_nil_r. by destruct s as [? []].
  - simpl. unfold mbind at 1, M_bind at 1. simpl.
    edestruct IH as [extra ->]. exists (("  - " ++ x) :: extra). simpl.
    by rewrite <- app_assoc.
Qed.

Lemma executeSequence_spec tasks webview s r s' :
  tasks <> [] ->
  executeSequence tasks (Some webview) s = (r, s') ->
  exists s0 r1 s1,
    started tasks s s0
    /\ runLoops webview tasks (passesOf tasks) 0 s0 = (r1, s1)
    /\ match r1 with
       | Ret None => r = Ret Completed /\ finished s1 s'
       | Ret (Some o) => r = Ret o /\ s' = s1
       | Throw e => r = Throw e /\ s' = s1
       | Hang => r = Hang /\ s' = s1
       end.
Proof.
  intros Hne H. unfold executeSequence in H.
  destruct (decide (length tasks = 0%nat)) as [Hl|_];
    [by destruct tasks|].
  set (warn := if isOptimal (analyzeTaskSequence tasks) then _ else _) in H.
  assert (exists extra,
    warn s = (Ret tt, mkState (storeTasks s)
                        (withLogs (storeStatus s)
                           (logs (storeStatus s) ++ extra)%list)
                        (jsCalls s) (webviewCalls s) (alerts s)
                        (dispatched s))) as [extra Hw].
  { subst warn. destruct (isOptimal _).
    - exists []. rewrite app_nil_r. by destruct s as [? []].
    - unfold mbind at 1, M_bind at 1. simpl. 
      edestruct suggestions_logged as [extra ->].
      exists ("Sequence analysis warnings:" :: extra). simpl.
      by rewrite <- app_assoc. }
  unfold mbind at 1, M_bind at 1 in H. rewrite Hw in H. clear Hw warn.
  set (announce := if hasLoop tasks then _ else _) in H.
  do 3 (unfold mbind at 1, M_bind at 1 in H; simpl in H).
  unfold mbind at 1, M_bind at 1 in H.
  match type of H with
  | context [announce ?s0] =>
      assert (exists s1, announce s0 = (Ret tt, s1)
                /\ started tasks s s1) as (s1 & Ha & Hst)
  end.
  { subst announce. destruct (hasLoop tasks) eqn:Hh; eexists;
      (split; [reflexivity|]); split; simpl; try done;
      try rewrite Hh; by destruct (storeStatus s). }
  rewrite Ha in H. clear Ha announce.
  unfold mbind at 1, M_bind at 1 in H.
  destruct (runLoops webview tasks (passesOf tasks) 0 s1) as [r1 s2] eqn:E.
  exists s1, r1, s2. split; [done|]. split; [done|].
  destruct r1 as [[o|] | e |]; by injection H as <- <-.
Qed.

(** ** Facts about the expected order *)

Lemma passFrom_lookup loop i ts :
  Forall (fun key : nat * nat * Task =>
            (i <= key.1.2)%nat /\ ts !! (key.1.2 - i)%nat = Some key.2)
    (passFrom loop i ts).
Proof.
  revert i. induction ts as [|t rest IH]; intros i; simpl; [constructor|].
  constructor; simpl.
  - split; [lia|]. by rewrite Nat.sub_diag.
  - eapply Forall_impl; [apply IH|]. intros [[l j] t'] [Hj Hl]; simpl in *.
    split; [lia|]. by replace (j - i)%nat with (S (j - S i)) by lia.
Qed.

Lemma schedule_lookup passes loop body :
  Forall (fun key : nat * nat * Task => body !! key.1.2 = Some key.2)
    (schedule passes loop body).
Proof.
  revert loop. induction passes as [|passes IH]; intros loop; simpl;
    [constructor|].
  apply Forall_app. split; [|apply IH].
  eapply Forall_impl; [apply passFrom_lookup|].
  intros [[l j] t] [_ H]; simpl in *. by rewrite Nat.sub_0_r in H.
Qed.

Lemma passFrom_tasks loop i ts : List.map snd (passFrom loop i ts) = ts.
Proof. revert i. induction ts; intros i; simpl; by f_equal. Qed.

Lemma schedule_tasks passes loop body :
  List.map snd (schedule passes loop body) = concat (replicate passes body).
Proof.
  revert loop. induction passes as [|passes IH]; intros loop; simpl; [done|].
  by rewrite map_app, passFrom_tasks, IH.
Qed.

Lemma tasksToExecute_lookup tasks j t :
  tasksToExecute tasks !! j = Some t ->
  tasks !! j = Some t
  /\ (j < length tasks - (if hasLoop tasks then 1 else 0))%nat.
Proof.
  unfold tasksToExecute. destruct (hasLoop tasks); intros H.
  - apply lookup_take_Some in H as [H ?]. done.
  - split; [done|]. apply lookup_lt_Some in H. lia.
Qed.

(** Whatever the outcome, the run dispatches tasks of the sequence at
    their own index, and none at the index of a trailing loop task. *)
Lemma runLoops_in_body webview tasks passes loop s r s' :
  runLoops webview tasks passes loop s = (r, s') ->
  exists new,
    dispatched s' = (dispatched s ++ new)%list
    /\ Forall (fun d => d_index d = 0%nat -> d_context d = ∅) new
    /\ Forall (fun d => tasks !! d_index d = Some (d_task d)
                /\ (d_index d
                    < length tasks - (if hasLoop tasks then 1 else 0))%nat)
         new.
Proof.
  intros H. apply runLoops_trace in H as (new & Hd & Hctx & Hr).
  exists new. split; [done|]. split; [done|].
  set (body := tasksToExecute tasks) in *.
  assert (Forall (fun key : nat * nat * Task => body !! key.1.2 = Some key.2)
            (List.map dispatchKey new)) as Hin.
  { destruct r as [[o|] | e |].
    - destruct Hr as (p & k & message & _ & _ & _ & ->).
      apply Forall_app. split; [apply schedule_lookup|].
      apply Forall_take. eapply Forall_impl; [apply passFrom_lookup|].
      intros [[l j] t] [_ H]; simpl in *. by rewrite Nat.sub_0_r in H.
    - rewrite Hr. apply schedule_lookup.
    - done.
    - destruct Hr as (p & k & _ & _ & ->).
      apply Forall_app. split; [apply schedule_lookup|].
      apply Forall_take. eapply Forall_impl; [apply passFrom_lookup|].
      intros [[l j] t] [_ H]; simpl in *. by rewrite Nat.sub_0_r in H. }
  apply Forall_fmap in Hin. eapply Forall_impl; [exact Hin|].
  intros d Hb; simpl in Hb. by apply tasksToExecute_lookup.
Qed.

Lemma runTasks_chained webview loop i ts context s r s' :
  runTasks webview loop i ts context s = (r, s') ->
  exists new,
    dispatched s' = (dispatched s ++ new)%list
    /\ chained webview context new.
Proof.
  revert i context s. induction ts as [|task rest IH]; intros i context s H.
  - injection H as <- <-. exists []. by rewrite app_nil_r.
  - simpl in H. unfold mbind at 1, M_bind at 1 in H.
    destruct (runTask webview loop i task context s) as [r1 s1] eqn:E.
    apply runTask_spec in E
      as [(_ & -> & ->) | [(sa & sb & result & Hret & -> & St & _)
                          | (sa & sb & message & _ & -> & St & _)]].
    + injection H as <- <-. exists []. by rewrite app_nil_r.
    + apply IH in H as (new & Hd & Hch).
      exists (mkDispatch loop i task context :: new).
      rewrite Hd, (step_dispatched _ _ _ _ _ _ _ St), <- app_assoc.
      split; [done|]. simpl. split; [done|].
      destruct new as [|d new']; [done|]. by exists sa, sb, result.
    + injection H as <- <-. exists [mkDispatch loop i task context].
      split; [apply (step_dispatched _ _ _ _ _ _ _ St) | done].
Qed.

Lemma runLoops_chained webview tasks passes loop s r s' :
  runLoops webview tasks passes loop s = (r, s') ->
  exists segments,
    dispatched s' = (dispatched s ++ concat segments)%list
    /\ Forall (chained webview ∅) segments.
Proof.
  revert loop s. induction passes as [|passes IH]; intros loop s H.
  - injection H as <- <-. exists []. by rewrite app_nil_r.
  - simpl in H. unfold mbind at 1, M_bind at 1 in H.
    destruct (announceRestart_spec tasks loop s) as (s0 & Hpre & _ & Hs0 & _).
    rewrite Hpre in H. clear Hpre.
    unfold mbind at 1, M_bind at 1 in H.
    destruct (runTasks webview loop 0 (tasksToExecute tasks) ∅ s0)
      as [r1 s1] eqn:E.
    apply runTasks_chained in E as (new1 & Hd1 & Hch1). rewrite Hs0 in Hd1.
    destruct r1 as [[o|] | e |]; try (injection H as <- <-).
    + exists [new1]. simpl. rewrite app_nil_r. split; [done | by constructor].
    + apply IH in H as (segments & Hd & Hall).
      exists (new1 :: segments). simpl. rewrite Hd, Hd1, <- app_assoc.
      split; [done | by constructor].
    + exists [new1]. simpl. rewrite app_nil_r. split; [done | by constructor].
    + exists [new1]. simpl. rewrite app_nil_r. split; [done | by constructor].
Qed.

Lemma executeSequence_abort tasks webviewRef s :
  tasks = [] \/ webviewRef = None ->
  executeSequence tasks webviewRef s
  = (Ret Aborted,
     mkState (storeTasks s) (storeStatus s) (jsCalls s) (webviewCalls s)
       (alerts s ++ [if decide (tasks = []) then "No tasks to execute"
                     else "Webview not available"])
       (dispatched s)).
Proof.
  intros H. unfold executeSequence.
  destruct (decide (length tasks = 0%nat)) as [Hl|Hl].
  - destruct tasks; [|done]. by rewrite decide_True.
  - destruct H as [-> | ->]; [done|]. rewrite decide_False; [done|].
    by intros ->.
Qed.

(** ** Runs that complete *)

Lemma runTasks_completes webview loop i ts context s :
  (forall n, is_Some (pauseReads n)) ->
  (forall task context' sa,
     In task ts ->
     exists result sb,
       executeTask task webview context' sa = (Ret result, sb)) ->
  exists s', runTasks webview loop i ts context s = (Ret None, s').
Proof.
  intros Hp. revert i context s.
  induction ts as [|task rest IH]; intros i context s Hok.
  - by eexists.
  - simpl. unfold mbind at 1, M_bind at 1.
    destruct (runTask webview loop i task context s) as [r1 s1] eqn:E.
    apply runTask_spec in E
      as [(Hn & _) | [(sa & sb & result & _ & -> & _)
                     | (sa & sb & message & Hth & _)]].
    + destruct (Hp (length (dispatched s))) as [k Hk]. congruence.
    + apply IH. intros task' context' sa' Hin. apply Hok. by right.
    + destruct (Hok task context sa (or_introl eq_refl)) as (result & sb' & Hr).
      congruence.
Qed.

Lemma runLoops_completes webview tasks passes loop s :
  (forall n, is_Some (pauseReads n)) ->
  (forall task context sa,
     In task (tasksToExecute tasks) ->
     exists result sb,
       executeTask task webview context sa = (Ret result, sb)) ->
  exists s', runLoops webview tasks passes loop s = (Ret None, s').
Proof.
  intros Hp Hok. revert loop s.
  induction passes as [|passes IH]; intros loop s.
  - by eexists.
  - simpl. unfold mbind at 1, M_bind at 1.
    destruct (announceRestart_spec tasks loop s) as (s0 & -> & _).
    unfold mbind at 1, M_bind at 1.
    destruct (runTasks_completes webview loop 0 (tasksToExecute tasks) ∅ s0
                Hp Hok) as (s1 & ->).
    apply IH.
Qed.

(** When the pause flag always ends up reading false and no handler
    throws, the run of a non-empty sequence returns with [Completed]. *)
Lemma executeSequence_completes tasks webview s :
  tasks <> [] ->
  (forall n, is_Some (pauseReads n)) ->
  (forall task context sa,
     In task (tasksToExecute tasks) ->
     exists result sb,
       executeTask task webview context sa = (Ret result, sb)) ->
  exists s', executeSequence tasks (Some webview) s = (Ret Completed, s').
Proof.
  intros Hne Hp Hok.
  destruct (executeSequence tasks (Some webview) s) as [r s'] eqn:E.
  apply (executeSequence_spec _ _ _ _ _ Hne) in E
    as (s0 & r1 & s1 & _ & Hrun & Hr).
  destruct (runLoops_completes webview tasks (passesOf tasks) 0 s0 Hp Hok)
    as (s2 & Hrun').
  rewrite Hrun' in Hrun. injection Hrun as <- <-.
  destruct Hr as [-> _]. by exists s'.
Qed.

(** No error escapes from [executeSequence]: what a handler throws is
    caught by the loop. *)
Lemma executeSequence_catches tasks webviewRef s e :
  (executeSequence tasks webviewRef s).1 <> Throw e.
Proof.
  destruct (decide (tasks = [] \/ webviewRef = None)) as [Ha|Ha].
  - by rewrite executeSequence_abort.
  - destruct webviewRef as [webview|]; [|tauto].
    assert (tasks <> []) as Hne by tauto.
    destruct (executeSequence tasks (Some webview) s) as [r s'] eqn:E.
    apply (executeSequence_spec _ _ _ _ _ Hne) in E
      as (s0 & r1 & s1 & _ & Hrun & Hr).
    apply runLoops_trace in Hrun as (new & _ & _ & Hk).
    destruct r1 as [[o|] | e1 |]; try done; destruct Hr as [-> _]; done.
Qed.

(** ** The handler calls behind the dispatches *)

Lemma loopOnly_refl s : loopOnly s s.
Proof. by split. Qed.

Lemma loopOnly_trans s1 s2 s3 :
  loopOnly s1 s2 -> loopOnly s2 s3 -> loopOnly s1 s3.
Proof. intros [] []. split; [congruence.. | by etrans]. Qed.

Lemma handled_before webview calls s0 s s' :
  loopOnly s0 s -> dispatched s = dispatched s0 ->
  handled webview calls s s' -> handled webview calls s0 s'.
Proof.
  intros Hl Hd. destruct calls as [|c rest]; simpl.
  - intros [Hl' Hd']. split; [by eapply loopOnly_trans | congruence].
  - intros (Hl' & Hd' & H). split; [by eapply loopOnly_trans|].
    split; [congruence | done].
Qed.

Lemma handled_after webview calls s s1 s' :
  handled webview calls s s1 ->
  loopOnly s1 s' -> dispatched s' = dispatched s1 ->
  handled webview calls s s'.
Proof.
  revert s. induction calls as [|c rest IH]; intros s; simpl.
  - intros [Hl Hd] Hl' Hd'. split; [by eapply loopOnly_trans | congruence].
  - intros (Hl & Hd & He & H) Hl' Hd'. do 3 (split; [done|]).
    by apply IH.
Qed.

Lemma handled_app webview calls1 calls2 s s1 s' :
  handled webview calls1 s s1 -> handled webview calls2 s1 s' ->
  handled webview (calls1 ++ calls2) s s'.
Proof.
  revert s. induction calls1 as [|c rest IH]; intros s; simpl.
  - intros [Hl Hd] H. by eapply handled_before.
  - intros (Hl & Hd & He & H) H2. do 3 (split; [done|]). by eapply IH.
Qed.

Lemma handled_dispatched webview calls s s' :
  handled webview calls s s' ->
  dispatched s' = (dispatched s ++ List.map c_dispatch calls)%list.
Proof.
  revert s. induction calls as [|c rest IH]; intros s; simpl.
  - intros [_ ->]. by rewrite app_nil_r.
  - intros (_ & Hd & He & H). rewrite (IH _ H).
    destruct (frames_executeTask _ _ _ _ _ _ He) as [[] _].
    rewrite frame_dispatched0, Hd, <- app_assoc. done.
Qed.

(** One step of the inner loop is one handler call, unless the step
    stays suspended in front of it. *)
Lemma runTask_call webview loop i task context s r s' :
  runTask webview loop i task context s = (r, s') ->
  (pauseReads (length (dispatched s)) = None /\ r = Hang /\ s' = s)
  \/ exists c,
       c_dispatch c = mkDispatch loop i task context
       /\ handled webview [c] s s'
       /\ match c_answer c with
          | Ret result => r = Ret (inl (result ∪ context))
          | Throw message => r = Ret (inr (Failed loop i message))
          | Hang => False
          end.
Proof.
  unfold runTask, awaitResume. intros H.
  unfold mbind at 1, M_bind at 1 in H.
  destruct (pauseReads _) as [k|] eqn:Hp.
  2:{ left. by injection H as <- <-. }
  right.
  unfold mbind, M_bind, tryCatch in H. simpl in H.
  match type of H with
  | context [executeTask task webview context ?s1] =>
      set (sa := s1) in *;
      destruct (executeTask task webview context sa) as [[result | e |] sb] eqn:E;
      destruct (frames_executeTask _ _ _ _ _ _ E) as [[] N]; simpl in *
  end.
  - injection H as <- <-.
    exists (mkCall (mkDispatch loop i task context) sa (Ret result) sb).
    split; [done|]. split; [|done]. simpl.
    split; [subst sa; split; simpl; try done;
            destruct (storeStatus s); simpl; by eexists|].
    split; [done|]. split; [exact E|].
    split; [|done]. split; simpl; try done.
    destruct (storeStatus sb); simpl; by eexists.
  - injection H as <- <-.
    exists (mkCall (mkDispatch loop i task context) sa (Throw e) sb).
    split; [done|]. split; [|done]. simpl.
    split; [subst sa; split; simpl; try done;
            destruct (storeStatus s); simpl; by eexists|].
    split; [done|]. split; [exact E|].
    split; [|done]. split; simpl; try done;
      destruct (storeStatus sb); simpl; try done; by eexists.
  - done.
Qed.

Lemma runTasks_handled webview loop i ts context s r s' :
  runTasks webview loop i ts context s = (r, s') ->
  exists calls,
    handled webview calls s s'
    /\ passCalls loop i ts context calls
    /\ match r with
       | Ret None => fullPass ts calls
       | Ret (Some o) =>
           exists front c message,
             calls = (front ++ [c])%list /\ Forall returned front
             /\ c_answer c = Throw message
             /\ o = Failed loop (d_index (c_dispatch c)) message
       | Hang =>
           Forall returned calls /\ (length calls < length ts)%nat
           /\ pauseReads (length (dispatched s')) = None
       | Throw _ => False
       end.
Proof.
  revert i context s. induction ts as [|task rest IH]; intros i context s H.
  - injection H as <- <-. exists []. simpl.
    split; [split; [apply loopOnly_refl | done]|]. split; [done|].
    split; [done | constructor].
  - simpl in H. unfold mbind at 1, M_bind at 1 in H.
    destruct (runTask webview loop i task context s) as [r1 s1] eqn:E.
    apply runTask_call in E as [(Hp & -> & ->) | (c & Hc & Hh & Hr)].
    + injection H as <- <-. exists []. simpl.
      split; [split; [apply loopOnly_refl | done]|]. split; [done|].
      split; [constructor|]. split; [lia | done].
    + destruct (c_answer c) as [result | message |] eqn:Ea; [| |done];
        subst r1.
      * apply IH in H as (calls & Hcalls & Hpass & Hout).
        exists (c :: calls).
        split; [exact (handled_app _ [c] _ _ _ _ Hh Hcalls)|].
        split; [simpl; by rewrite Ea, Hc|].
        destruct r as [[o|] | e |].
        -- destruct Hout as (front & c' & message & -> & Hf & Hth & ->).
           exists (c :: front), c', message.
           split; [done|]. split; [|done].
           constructor; [unfold returned; by rewrite Ea | done].
        -- destruct Hout as [Hlen Hall]. split; [simpl; by rewrite Hlen|].
           constructor; [unfold returned; by rewrite Ea | done].
        -- done.
        -- destruct Hout as (Hall & Hlen & Hp).
           split; [constructor; [unfold returned; by rewrite Ea | done]|].
           split; [simpl; lia | done].
      * injection H as <- <-. exists [c].
        split; [done|]. split; [simpl; by rewrite Ea, Hc|].
        exists [], c, message. rewrite Hc. simpl.
        split; [done|]. split; [constructor | done].
Qed.

Lemma runLoops_handled webview tasks passes loop s r s' :
  runLoops webview tasks passes loop s = (r, s') ->
  let body := tasksToExecute tasks in
  exists segments,
    handled webview (concat segments) s s'
    /\ loopCalls loop body segments
    /\ match r with
       | Ret None =>
           length segments = passes /\ Forall (fullPass body) segments
       | Ret (Some o) =>
           exists front c message,
             concat segments = (front ++ [c])%list /\ Forall returned front
             /\ c_answer c = Throw message
             /\ o = Failed (d_loop (c_dispatch c)) (d_index (c_dispatch c))
                      message
       | Hang =>
           Forall returned (concat segments)
           /\ pauseReads (length (dispatched s')) = None
       | Throw _ => False
       end.
Proof.
  intros H body. revert loop s H.
  induction passes as [|passes IH]; intros loop s H.
  - injection H as <- <-. exists []. simpl.
    split; [split; [apply loopOnly_refl | done]|]. split; [done|].
    split; [done | constructor].
  - simpl in H. unfold mbind at 1, M_bind at 1 in H.
    assert (exists s0, announceRestart tasks loop s = (Ret tt, s0)
              /\ loopOnly s s0 /\ dispatched s0 = dispatched s)
      as (s0 & Hpre & Hl0 & Hd0).
    { unfold announceRestart. destruct (_ && _); eexists;
        (split; [reflexivity|]); (split; [|done]); split; simpl; try done;
        destruct (storeStatus s); simpl; try done; by eexists. }
    rewrite Hpre in H. clear Hpre.
    unfold mbind at 1, M_bind at 1 in H. fold body in H.
    destruct (runTasks webview loop 0 body ∅ s0) as [r1 s1] eqn:E.
    apply runTasks_handled in E as (calls & Hcalls & Hpass & Hout).
    apply (handled_before _ _ s) in Hcalls; [|done..].
    destruct r1 as [[o|] | e |]; [| |done|].
    + injection H as <- <-. exists [calls]. simpl. rewrite app_nil_r.
      split; [done|]. split; [done|].
      destruct Hout as (front & c & message & -> & Hf & Hth & ->).
      exists front, c, message. split; [done|]. split; [done|].
      split; [done|]. f_equal.
      (* the loop number of the failing call *)
      clear -Hpass Hf. revert Hpass. generalize 0%nat (∅ : Context) body.
      induction front as [|c0 front IHf]; intros i ctx ts Hpass; simpl in *.
      * destruct ts; [done|]. destruct Hpass as [-> _]. done.
      * destruct ts; [done|]. destruct Hpass as [_ Hpass].
        apply Forall_cons_1 in Hf as [Hc0 Hf]. unfold returned in Hc0.
        destruct (c_answer c0); [|done..]. by eapply IHf.
    + apply IH in H as (segments & Hsegs & Hloop & Hr).
      exists (calls :: segments). simpl.
      split; [by eapply handled_app|]. split; [done|].
      destruct r as [[o|] | e |].
      * destruct Hr as (front & c & message & Hcat & Hf & Hth & ->).
        exists (calls ++ front)%list, c, message.
        rewrite Hcat, app_assoc. split; [done|].
        split; [apply Forall_app; split; [apply Hout | done] | done].
      * destruct Hr as [<- Hall]. split; [done | by constructor].
      * done.
      * destruct Hr as [Hall Hp]. split; [|done].
        apply Forall_app. split; [apply Hout | done].
    + injection H as <- <-. exists [calls]. simpl. rewrite app_nil_r.
      split; [done|]. split; [done|]. destruct Hout as (Hall & _ & Hp). done.
Qed.

(** The start and the end of a run, around the outer loop. *)
Lemma executeSequence_run tasks webview s r s' :
  tasks <> [] ->
  executeSequence tasks (Some webview) s = (r, s') ->
  exists s0 r1 s1,
    started tasks s s0
    /\ jsCalls s0 = jsCalls s /\ webviewCalls s0 = webviewCalls s
    /\ extractedData (storeStatus s0) = extractedData (storeStatus s)
    /\ logs (storeStatus s0)
       = ("Starting execution..."
          :: if hasLoop tasks
             then ["Sequence will loop " ++ pretty (loopCountOf tasks)
                   ++ " times"]
             else [])
    /\ runLoops webview tasks (passesOf tasks) 0 s0 = (r1, s1)
    /\ match r1 with
       | Ret None => r = Ret Completed /\ finished s1 s' /\ loopOnly s1 s'
       | Ret (Some o) => r = Ret o /\ s' = s1
       | Throw e => r = Throw e /\ s' = s1
       | Hang => r = Hang /\ s' = s1
       end.
Proof.
  intros Hne H. unfold executeSequence in H.
  destruct (decide (length tasks = 0%nat)) as [Hl|_];
    [by destruct tasks|].
  set (warn := if isOptimal (analyzeTaskSequence tasks) then _ else _) in H.
  assert (exists extra,
    warn s = (Ret tt, mkState (storeTasks s)
                        (withLogs (storeStatus s)
                           (logs (storeStatus s) ++ extra)%list)
                        (jsCalls s) (webviewCalls s) (alerts s)
                        (dispatched s))) as [extra Hw].
  { subst warn. destruct (isOptimal _).
    - exists []. rewrite app_nil_r. by destruct s as [? []].
    - unfold mbind at 1, M_bind at 1. simpl.
      edestruct suggestions_logged as [extra ->].
      exists ("Sequence analysis warnings:" :: extra). simpl.
      by rewrite <- app_assoc. }
  unfold mbind at 1, M_bind at 1 in H. rewrite Hw in H. clear Hw warn.
  set (announce := if hasLoop tasks then _ else _) in H.
  do 3 (unfold mbind at 1, M_bind at 1 in H; simpl in H).
  unfold mbind at 1, M_bind at 1 in H.
  match type of H with
  | context [announce ?s0] =>
      assert (exists s1, announce s0 = (Ret tt, s1)
                /\ started tasks s s1
                /\ jsCalls s1 = jsCalls s /\ webviewCalls s1 = webviewCalls s
                /\ extractedData (storeStatus s1)
                   = extractedData (storeStatus s)
                /\ logs (storeStatus s1)
                   = ("Starting execution..."
                      :: if hasLoop tasks
                         then ["Sequence will loop "
                               ++ pretty (loopCountOf tasks) ++ " times"]
                         else []))
        as (s1 & Ha & Hst & Hjs & Hwc & Hex & Hlog)
  end.
  { subst announce. destruct (hasLoop tasks) eqn:Hh; eexists;
      (split; [reflexivity|]);
      (split; [split; simpl; try done; try rewrite Hh;
               by destruct (storeStatus s)|]);
      simpl; by destruct (storeStatus s). }
  rewrite Ha in H. clear Ha announce.
  unfold mbind at 1, M_bind at 1 in H.
  destruct (runLoops webview tasks (passesOf tasks) 0 s1) as [r1 s2] eqn:E.
  exists s1, r1, s2. do 5 (split; [done|]). split; [done|].
  destruct r1 as [[o|] | e |]; try by injection H as <- <-.
  injection H as <- <-. split; [done|]. split; [done|].
  split; simpl; try done; destruct (storeStatus s2); simpl; try done;
    by eexists.
Qed.

(** Every task a run dispatches is handed to its handler, on the state
    the run has reached, and the run's outcome is that of its last
    call. *)
Lemma executeSequence_handled tasks webview s r s' :
  tasks <> [] ->
  executeSequence tasks (Some webview) s = (r, s') ->
  let body := tasksToExecute tasks in
  exists s0 segments,
    started tasks s s0
    /\ jsCalls s0 = jsCalls s /\ webviewCalls s0 = webviewCalls s
    /\ logs (storeStatus s0)
       = ("Starting execution..."
          :: if hasLoop tasks
             then ["Sequence will loop " ++ pretty (loopCountOf tasks)
                   ++ " times"]
             else [])
    /\ handled webview (concat segments) s0 s'
    /\ loopCalls 0 body segments
    /\ match r with
       | Ret Completed =>
           length segments = passesOf tasks
           /\ Forall (fullPass body) segments
       | Ret (Failed loop i message) =>
           exists front c,
             concat segments = (front ++ [c])%list /\ Forall returned front
             /\ c_answer c = Throw message
             /\ d_loop (c_dispatch c) = loop /\ d_index (c_dispatch c) = i
       | Hang =>
           Forall returned (concat segments)
           /\ pauseReads (length (dispatched s')) = None
       | Ret Aborted | Throw _ => False
       end.
Proof.
  intros Hne H body.
  apply (executeSequence_run _ _ _ _ _ Hne) in H
    as (s0 & r1 & s1 & Hst & Hjs & Hwc & _ & Hlog & Hrun & Hr).
  apply runLoops_handled in Hrun as (segments & Hh & Hloop & Hout).
  fold body in Hloop, Hout.
  exists s0, segments. do 4 (split; [done|]).
  destruct r1 as [[o|] | e |]; [| |done|].
  - destruct Hr as [-> ->]. split; [done|]. split; [done|].
    destruct Hout as (front & c & message & Hcat & Hf & Hth & ->).
    by exists front, c.
  - destruct Hr as (-> & Hfin & Hlo). split; [|done].
    eapply handled_after; [exact Hh | exact Hlo | apply Hfin].
  - destruct Hr as [-> ->]. done.
Qed.

(** ** The claims about the order of dispatches *)

Lemma schedule_prefix passes p loop n body :
  (p < passes)%nat ->
  (schedule p loop body ++ take n (passFrom (loop + p) 0 body))%list
  `prefix_of` schedule passes loop body.
Proof.
  revert p loop. induction passes as [|passes IH]; intros p loop Hp; [lia|].
  destruct p as [|p]; simpl.
  - rewrite Nat.add_0_r. apply prefix_app_r, prefix_take.
  - rewrite <- app_assoc. apply prefix_app.
    replace (loop + S p)%nat with (S loop + p)%nat by lia.
    apply IH. lia.
Qed.

(** C1. Every task a run dispatches is handed to its handler: the
    dispatches of a run are the calls of [executeTask] the loop makes, in
    the order it makes them, each on the task and the context of its
    dispatch and on the state the run has reached, and what these calls
    do to the page view and to the log is what the run does to them.  In
    every run the tasks are called at their own index, never at that of a
    trailing loop task, and in the order of the passes; a run that is cut
    short has made a front part of them.  A run that completes has made
    all of them and every call has returned: when the last task is a loop
    task with count [N > 1], the tasks in front of it are called [N]
    times, pass after pass and in list order within each pass; when the
    last task is not a loop task, every task is called exactly once, in
    list order.  A run that fails has stopped at the call that threw. *)
Theorem C1_dispatch_order tasks webview s r s' :
  executeSequence tasks (Some webview) s = (r, s') ->
  let body := tasksToExecute tasks in
  exists (calls : list Call) (s0 : State),
    let new := List.map c_dispatch calls in
    dispatched s' = (dispatched s ++ new)%list
    /\ (jsCalls s0 = jsCalls s /\ webviewCalls s0 = webviewCalls s
        /\ dispatched s0 = dispatched s /\ handled webview calls s0 s')
    /\ Forall (fun d => tasks !! d_index d = Some (d_task d)
                 /\ (d_index d
                     < length tasks - (if hasLoop tasks then 1 else 0))%nat)
         new
    /\ List.map dispatchKey new `prefix_of` schedule (passesOf tasks) 0 body
    /\ (r = Ret Completed ->
        Forall returned calls
        /\ List.map dispatchKey new = schedule (passesOf tasks) 0 body
        /\ (forall lastTask N,
              last tasks = Some lastTask -> t_type lastTask = TLoop ->
              loopCount (t_config lastTask) = Some N -> 1 < N ->
              let front := take (length tasks - 1) tasks in
              List.map dispatchKey new = schedule (Z.to_nat N) 0 front
              /\ List.map d_task new = concat (replicate (Z.to_nat N) front)
              /\ Forall (fun d => (d_index d < length tasks - 1)%nat) new)
        /\ (hasLoop tasks = false ->
            List.map dispatchKey new = passFrom 0 0 tasks
            /\ List.map d_task new = tasks))
    /\ (forall loop i message,
          r = Ret (Failed loop i message) ->
          exists made c,
            calls = (made ++ [c])%list /\ Forall returned made
            /\ c_answer c = Throw message
            /\ d_loop (c_dispatch c) = loop /\ d_index (c_dispatch c) = i).
Proof.
  intros H body.
  destruct (decide (tasks = [])) as [->|Hne].
  { rewrite executeSequence_abort in H by auto. injection H as <- <-.
    exists [], s. simpl. rewrite app_nil_r.
    split; [done|]. split; [|split; [constructor|]; split;
                               [apply prefix_nil | done]].
    do 3 (split; [done|]). split; [by split | done]. }
  apply (executeSequence_run _ _ _ _ _ Hne) in H
    as (s0 & r1 & s1 & Hst & Hjs & Hwc & _ & _ & Hrun & Hr).
  pose proof (runLoops_in_body _ _ _ _ _ _ _ Hrun) as (new' & Hd' & _ & Hin).
  pose proof (runLoops_handled _ _ _ _ _ _ _ Hrun)
    as (segments & Hh & _ & Hout).
  apply runLoops_trace in Hrun as (new & Hd & _ & Hkeys).
  fold body in Hkeys, Hout.
  assert (new' = new) as ->
    by (apply (app_inv_head (dispatched s0)); congruence).
  assert (List.map c_dispatch (concat segments) = new) as Hnew.
  { apply (app_inv_head (dispatched s0)).
    by rewrite <- (handled_dispatched _ _ _ _ Hh). }
  assert (dispatched s' = dispatched s1 /\ handled webview (concat segments) s0 s')
    as [Hds' Hh'].
  { destruct r1 as [[o|] | e |].
    - by destruct Hr as [_ ->].
    - destruct Hr as (_ & Hfin & Hlo). split; [apply Hfin|].
      eapply handled_after; [exact Hh | exact Hlo | apply Hfin].
    - by destruct Hr as [_ ->].
    - by destruct Hr as [_ ->]. }
  exists (concat segments), s0. simpl. rewrite Hnew.
  split; [by rewrite Hds', Hd, (start_dispatched _ _ _ Hst)|].
  split; [by rewrite (start_dispatched _ _ _ Hst)|].
  split; [done|].
  assert (List.map d_task new = List.map snd (List.map dispatchKey new)) as Ht.
  { rewrite List.map_map. done. }
  split; [|split].
  - destruct r1 as [[o|] | e |].
    + destruct Hkeys as (p & k & message & _ & Hp & _ & ->).
      by apply schedule_prefix.
    + by rewrite Hkeys.
    + done.
    + destruct Hkeys as (p & k & Hp & _ & ->). by apply schedule_prefix.
  - intros ->.
    destruct r1 as [[o|] | e |]; try (by destruct Hr).
    { destruct Hkeys as (p & k & message & -> & _). by destruct Hr. }
    destruct Hout as [_ Hall].
    split.
    { apply Forall_concat. eapply Forall_impl; [exact Hall|].
      by intros seg [_ ?]. }
    split; [done|]. split.
    + intros lastTask N Hlast Hty HN Hgt.
      set (front := take (length tasks - 1) tasks).
      assert (hasLoop tasks = true) as Hh2.
      { unfold hasLoop. rewrite Hlast. by apply bool_decide_eq_true. }
      assert (passesOf tasks = Z.to_nat N) as Hp.
      { unfold passesOf, loopCountOf, numOr. rewrite Hlast, HN.
        rewrite bool_decide_eq_true_2 by done.
        by rewrite decide_False by lia. }
      subst body. unfold tasksToExecute in Hkeys. rewrite Hh2, Hp in Hkeys.
      fold front in Hkeys.
      split; [done|]. split.
      * by rewrite Ht, Hkeys, schedule_tasks.
      * eapply Forall_impl; [exact Hin|]. intros d [_ Hi].
        by rewrite Hh2 in Hi.
    + intros Hh2.
      assert (passesOf tasks = 1%nat) as Hp.
      { unfold passesOf, loopCountOf. unfold hasLoop in Hh2.
        destruct (last tasks); [by rewrite Hh2 | done]. }
      subst body. unfold tasksToExecute in Hkeys. rewrite Hh2, Hp in Hkeys.
      simpl in Hkeys. rewrite app_nil_r in Hkeys. split; [done|].
      by rewrite Ht, Hkeys, passFrom_tasks.
  - intros loop i message ->.
    destruct r1 as [[o|] | e |]; try (by destruct Hr).
    destruct Hr as [[= <-] _].
    destruct Hout as (made & c & message' & Hcat & Hf & Hth & [= -> -> ->]).
    by exists made, c.
Qed.

(** C3. In every run, whatever its outcome, the dispatches split into the
    passes of the outer loop, and in each pass the contexts start from the
    empty mapping: the task dispatched at index 0 receives [{}], and each
    later task of the pass receives that context extended by the results
    of the handlers that ran before it in the same pass.  Nothing stored in
    the context during one pass reaches a task of a later pass. *)
Theorem C3_context_reset_each_pass tasks webview s :
  exists passes,
    dispatched (executeSequence tasks (Some webview) s).2
    = (dispatched s ++ concat passes)%list
    /\ Forall (chained webview ∅) passes
    /\ Forall (fun d => d_index d = 0%nat -> d_context d = ∅)
         (concat passes).
Proof.
  destruct (decide (tasks = [])) as [->|Hne].
  - rewrite executeSequence_abort by auto. exists []. simpl.
    by rewrite app_nil_r.
  - destruct (executeSequence tasks (Some webview) s) as [r s'] eqn:E.
    apply (executeSequence_spec _ _ _ _ _ Hne) in E
      as (s0 & r1 & s1 & Hst & Hrun & Hr).
    destruct (runLoops_chained _ _ _ _ _ _ _ Hrun) as (passes & Hd' & Hch).
    apply runLoops_in_body in Hrun as (new & Hd & Hctx & _).
    assert (new = concat passes) as ->
      by (apply (app_inv_head (dispatched s0)); congruence).
    exists passes. split; [|done]. simpl.
    rewrite <- (start_dispatched _ _ _ Hst), <- Hd.
    destruct r1 as [[o|] | e |]; destruct Hr as [_ Hr]; try by subst.
    apply (finish_dispatched _ _ Hr).
Qed.

(** C6. With an empty sequence or without a page view the run ends at
    once: one alert is shown, no task is dispatched, no call reaches the
    page view, and the task list and every field of the execution status
    are exactly as before. *)
Theorem C6_precondition_abort tasks webviewRef s :
  tasks = [] \/ webviewRef = None ->
  let (r, s') := executeSequence tasks webviewRef s in
  r = Ret Aborted
  /\ storeStatus s' = storeStatus s
  /\ storeTasks s' = storeTasks s
  /\ dispatched s' = dispatched s
  /\ webviewCalls s' = webviewCalls s
  /\ alerts s'
     = (alerts s ++ [if decide (tasks = []) then "No tasks to execute"
                     else "Webview not available"])%list.
Proof. intros H. by rewrite executeSequence_abort. Qed.

(** ** The task list during a pass *)

Lemma assignTask_id t f : t_id (assignTask t f) = t_id t.
Proof. by destruct t, f. Qed.

Lemma foldl_assignTask_id fs t : t_id (foldl assignTask t fs) = t_id t.
Proof.
  revert t. induction fs as [|f fs IH]; intros t; simpl; [done|].
  by rewrite IH, assignTask_id.
Qed.

Lemma patchTask_id taskId fs t : t_id (patchTask taskId fs t) = t_id t.
Proof.
  unfold patchTask. case_decide; [apply foldl_assignTask_id | done].
Qed.

Lemma patchTask_ids taskId fs (l : list Task) :
  List.map t_id (List.map (patchTask taskId fs) l) = List.map t_id l.
Proof.
  rewrite List.map_map. apply map_ext. intros t. apply patchTask_id.
Qed.

Lemma stepped_store loop i task context final s s' :
  stepped loop i task context final s s' ->
  NoDup (List.map t_id (storeTasks s)) ->
  List.map t_id (storeTasks s) !! i = Some (t_id task) ->
  List.map t_id (storeTasks s') = List.map t_id (storeTasks s)
  /\ (forall j, j <> i -> storeTasks s' !! j = storeTasks s !! j)
  /\ (exists t0,
        storeTasks s !! i = Some t0
        /\ storeTasks s' !! i
           = Some (foldl assignTask (assignTask t0 (SetStatus running)) final)).
Proof.
  intros St Hnd Hi. rewrite (step_tasks _ _ _ _ _ _ _ St).
  split; [by rewrite !patchTask_ids|].
  change (@List.map) with (@fmap list _) in *.
  split.
  - intros j Hj. rewrite !list_lookup_fmap.
    destruct (storeTasks s !! j) as [t|] eqn:Et; [|done]. simpl. f_equal.
    assert (t_id t <> t_id task) as Hne.
    { intros Heq. apply Hj.
      apply (NoDup_lookup (t_id <$> storeTasks s) j i (t_id task) Hnd);
        [|exact Hi].
      rewrite list_lookup_fmap, Et. simpl. by rewrite Heq. }
    unfold patchTask at 2. rewrite decide_False by done.
    unfold patchTask. by rewrite decide_False.
  - rewrite list_lookup_fmap in Hi.
    destruct (storeTasks s !! i) as [t0|] eqn:Et; [|done].
    injection Hi as Hi. exists t0. split; [done|].
    rewrite !list_lookup_fmap, Et. simpl. f_equal.
    unfold patchTask at 2. rewrite decide_True by done.
    unfold patchTask. simpl.
    rewrite decide_True by (by rewrite assignTask_id). done.
Qed.

Lemma runTasks_store webview loop i ts context s r s' :
  NoDup (List.map t_id (storeTasks s)) ->
  (forall k t, ts !! k = Some t ->
     List.map t_id (storeTasks s) !! (i + k)%nat = Some (t_id t)) ->
  runTasks webview loop i ts context s = (r, s') ->
  List.map t_id (storeTasks s') = List.map t_id (storeTasks s)
  /\ match r with
     | Ret None =>
         (forall j, (j < i \/ i + length ts <= j)%nat ->
            storeTasks s' !! j = storeTasks s !! j)
         /\ (forall j, (i <= j < i + length ts)%nat ->
              t_status <$> storeTasks s' !! j = Some completed)
     | Ret (Some o) =>
         exists k message,
           o = Failed loop (i + k) message /\ (k < length ts)%nat
           /\ (forall j, (j < i \/ i + k < j)%nat ->
                storeTasks s' !! j = storeTasks s !! j)
           /\ (forall j, (i <= j < i + k)%nat ->
                t_status <$> storeTasks s' !! j = Some completed)
           /\ (exists t, storeTasks s' !! (i + k)%nat = Some t
                 /\ t_status t = failed /\ t_error t = Some message)
     | _ => True
     end.
Proof.
  revert i context s. induction ts as [|task rest IH];
    intros i context s Hnd Hal H.
  - injection H as <- <-. repeat split; try done. intros j Hj. simpl in Hj. lia.
  - simpl in H. unfold mbind at 1, M_bind at 1 in H.
    destruct (runTask webview loop i task context s) as [r1 s1] eqn:E.
    apply runTask_spec in E
      as [(_ & -> & ->) | [(sa & sb & result & _ & -> & St & _)
                          | (sa & sb & message & _ & -> & St & _)]].
    + by injection H as <- <-.
    + destruct (stepped_store _ _ _ _ _ _ _ St Hnd) as (Hids & Hother & Hat).
      { specialize (Hal 0%nat task eq_refl). by rewrite Nat.add_0_r in Hal. }
      apply IH in H as (Hids' & Hr).
      2:{ by rewrite Hids. }
      2:{ intros k t Hk. rewrite Hids.
          replace (S i + k)%nat with (i + S k)%nat by lia. by apply Hal. }
      split; [congruence|].
      destruct r as [[o|] | |]; try done.
      * destruct Hr as (k & msg & -> & Hk & Ho & Hc & Hf).
        exists (S k), msg.
        replace (i + S k)%nat with (S i + k)%nat by lia.
        split; [done|]. split; [simpl; lia|].
        split; [|split; [|done]].
        -- intros j Hj. rewrite Ho by lia. apply Hother. lia.
        -- intros j Hj. destruct (decide (j = i)) as [->|Hne].
           ++ rewrite Ho by lia. destruct Hat as (t0 & _ & ->). by destruct t0.
           ++ apply Hc. lia.
      * destruct Hr as (Ho & Hc). split.
        -- intros j Hj. simpl in Hj. rewrite Ho by lia. apply Hother. lia.
        -- intros j Hj. simpl in Hj. destruct (decide (j = i)) as [->|Hne].
           ++ rewrite Ho by lia. destruct Hat as (t0 & _ & ->). by destruct t0.
           ++ apply Hc. lia.
    + destruct (stepped_store _ _ _ _ _ _ _ St Hnd) as (Hids & Hother & Hat).
      { specialize (Hal 0%nat task eq_refl). by rewrite Nat.add_0_r in Hal. }
      injection H as <- <-. split; [done|].
      exists 0%nat, message. rewrite Nat.add_0_r.
      split; [done|]. split; [simpl; lia|].
      split; [|split].
      * intros j Hj. apply Hother. lia.
      * intros j Hj. lia.
      * destruct Hat as (t0 & _ & ->). eexists. split; [done|]. by destruct t0.
Qed.

(** ** The execution status during a pass *)

Lemma runTasks_status webview loop i ts context s r s' :
  runTasks webview loop i ts context s = (r, s') ->
  alerts s' = alerts s
  /\ totalTasks (storeStatus s') = totalTasks (storeStatus s)
  /\ totalLoops (storeStatus s') = totalLoops (storeStatus s)
  /\ match r with
     | Ret None =>
         isExecuting (storeStatus s') = isExecuting (storeStatus s)
         /\ isPaused (storeStatus s') = isPaused (storeStatus s)
         /\ currentLoop (storeStatus s') = currentLoop (storeStatus s)
     | Ret (Some o) =>
         exists k message,
           o = Failed loop (i + k) message
           /\ isExecuting (storeStatus s') = false
           /\ isPaused (storeStatus s') = false
           /\ currentTaskIndex (storeStatus s') = Z.of_nat (i + k)
           /\ last (logs (storeStatus s'))
              = Some ("Task " ++ pretty (Z.of_nat (i + k) + 1)
                      ++ " failed: " ++ message)
           /\ (exists task context' sa sb,
                 ts !! k = Some task
                 /\ executeTask task webview context' sa = (Throw message, sb))
     | _ => True
     end.
Proof.
  revert i context s. induction ts as [|task rest IH]; intros i context s H.
  - by injection H as <- <-.
  - simpl in H. unfold mbind at 1, M_bind at 1 in H.
    destruct (runTask webview loop i task context s) as [r1 s1] eqn:E.
    apply runTask_spec in E
      as [(_ & -> & ->) | [(sa & sb & result & _ & -> & St & Hex & Hpa & _)
                          | (sa & sb & message & Hth & -> & St & Hex & Hpa
                             & Hlog)]].
    + by injection H as <- <-.
    + destruct St. apply IH in H as (Hal' & Htt & Htl & Hr).
      split; [congruence|]. split; [congruence|]. split; [congruence|].
      destruct r as [[o|] | |]; try done.
      * destruct Hr as (k & msg & -> & Hex' & Hpa' & Hix & Hlg & Hthrow).
        exists (S k), msg.
        replace (i + S k)%nat with (S i + k)%nat by lia. done.
      * destruct Hr as (Hex' & Hpa' & Hcl).
        split; [congruence|]. split; congruence.
    + destruct St. injection H as <- <-.
      split; [done|]. split; [done|]. split; [done|].
      exists 0%nat, message. rewrite Nat.add_0_r.
      split; [done|]. split; [done|]. split; [done|]. split; [done|].
      split; [done|]. by exists task, context, sa, sb.
Qed.

(** ** The store across the passes *)

Lemma runLoops_status webview tasks passes loop s r s' :
  runLoops webview tasks passes loop s = (r, s') ->
  alerts s' = alerts s
  /\ totalTasks (storeStatus s') = totalTasks (storeStatus s)
  /\ totalLoops (storeStatus s') = totalLoops (storeStatus s)
  /\ match r with
     | Ret None =>
         isExecuting (storeStatus s') = isExecuting (storeStatus s)
         /\ isPaused (storeStatus s') = isPaused (storeStatus s)
     | Ret (Some o) =>
         exists p k message,
           o = Failed (loop + p) k message
           /\ isExecuting (storeStatus s') = false
           /\ isPaused (storeStatus s') = false
           /\ currentTaskIndex (storeStatus s') = Z.of_nat k
           /\ last (logs (storeStatus s'))
              = Some ("Task " ++ pretty (Z.of_nat k + 1)
                      ++ " failed: " ++ message)
           /\ (exists task context sa sb,
                 tasksToExecute tasks !! k = Some task
                 /\ executeTask task webview context sa = (Throw message, sb))
     | _ => True
     end.
Proof.
  revert loop s. induction passes as [|passes IH]; intros loop s H.
  - by injection H as <- <-.
  - simpl in H. unfold mbind at 1, M_bind at 1 in H.
    destruct (announceRestart_spec tasks loop s)
      as (s0 & Hpre & _ & _ & Ha0 & Hex0 & Hpa0 & Htt0 & Htl0).
    rewrite Hpre in H. clear Hpre.
    unfold mbind at 1, M_bind at 1 in H.
    destruct (runTasks webview loop 0 (tasksToExecute tasks) ∅ s0)
      as [r1 s1] eqn:E.
    apply runTasks_status in E as (Ha1 & Htt1 & Htl1 & Hr1).
    destruct r1 as [[o|] | e |]; try (injection H as <- <-).
    + split; [congruence|]. split; [congruence|]. split; [congruence|].
      destruct Hr1 as (k & message & -> & Hr1).
      exists 0%nat, k, message. by rewrite Nat.add_0_r.
    + apply IH in H as (Ha & Htt & Htl & Hr).
      split; [congruence|]. split; [congruence|]. split; [congruence|].
      destruct r as [[o|] | |]; try done.
      * destruct Hr as (p & k & message & -> & Hr).
        exists (S p), k, message.
        by replace (loop + S p)%nat with (S loop + p)%nat by lia.
      * destruct Hr1 as (? & ? & _), Hr. split; congruence.
    + split; [congruence|]. split; [congruence|]. split; congruence.
    + split; [congruence|]. split; [congruence|]. split; congruence.
Qed.

Lemma runLoops_store webview tasks passes loop s r s' :
  let body := tasksToExecute tasks in
  NoDup (List.map t_id (storeTasks s)) ->
  (forall k t, body !! k = Some t ->
     List.map t_id (storeTasks s) !! k = Some (t_id t)) ->
  runLoops webview tasks passes loop s = (r, s') ->
  List.map t_id (storeTasks s') = List.map t_id (storeTasks s)
  /\ match r with
     | Ret (Some o) =>
         exists p k message,
           o = Failed (loop + p) k message
           /\ (forall j, (j < k)%nat ->
                t_status <$> storeTasks s' !! j = Some completed)
           /\ (exists t, storeTasks s' !! k = Some t
                 /\ t_status t = failed /\ t_error t = Some message)
           /\ (forall j, (k < j)%nat -> p = 0%nat \/ (length body <= j)%nat ->
                storeTasks s' !! j = storeTasks s !! j)
           /\ (forall j, (k < j < length body)%nat -> p <> 0%nat ->
                t_status <$> storeTasks s' !! j = Some completed)
     | Ret None =>
         (forall j, (length body <= j)%nat ->
            storeTasks s' !! j = storeTasks s !! j)
         /\ (forall j, (j < length body)%nat -> passes <> 0%nat ->
              t_status <$> storeTasks s' !! j = Some completed)
     | _ => True
     end.
Proof.
  intros body. revert loop s.
  induction passes as [|passes IH]; intros loop s Hnd Hal H.
  - by injection H as <- <-.
  - simpl in H. unfold mbind at 1, M_bind at 1 in H.
    destruct (announceRestart_spec tasks loop s) as (s0 & Hpre & Ht0 & _).
    rewrite Hpre in H. clear Hpre.
    unfold mbind at 1, M_bind at 1 in H. fold body in H.
    destruct (runTasks webview loop 0 body ∅ s0) as [r1 s1] eqn:E.
    apply runTasks_store in E as (Hids1 & Hr1);
      [| by rewrite Ht0 | by rewrite Ht0].
    rewrite Ht0 in Hids1.
    destruct r1 as [[o|] | e |]; try (by injection H as <- <-).
    + injection H as <- <-. split; [done|].
      destruct Hr1 as (k & message & -> & Hk & Ho & Hc & Hf).
      exists 0%nat, k, message. rewrite Nat.add_0_r. simpl in *.
      split; [done|]. split; [intros j Hj; apply Hc; lia|].
      split; [done|]. split.
      * intros j Hj _. rewrite <- Ht0. apply Ho. lia.
      * done.
    + destruct Hr1 as (Ho1 & Hc1). simpl in *.
      destruct (decide (passes = 0%nat)) as [->|Hp0].
      { injection H as <- <-. split; [done|]. split.
        - intros j Hj. rewrite <- Ht0. apply Ho1. lia.
        - intros j Hj _. apply Hc1. lia. }
      apply IH in H as (Hids & Hr);
        [| by rewrite Hids1 | by intros k t Hk; rewrite Hids1; apply Hal].
      split; [congruence|].
      destruct r as [[o|] | |]; try done.
      * destruct Hr as (p & k & message & -> & Hc & Hf & Ho & Hb).
        exists (S p), k, message.
        replace (loop + S p)%nat with (S loop + p)%nat by lia.
        split; [done|]. split; [done|]. split; [done|]. split.
        -- intros j Hj [Hp | Hj']; [done|].
           rewrite Ho; [|lia|by right]. rewrite <- Ht0. apply Ho1. lia.
        -- intros j Hj _. destruct (decide (p = 0%nat)) as [->|Hp].
           ++ rewrite Ho; [|lia|by left]. apply Hc1. lia.
           ++ by apply Hb.
      * destruct Hr as (Ho & Hc). split.
        -- intros j Hj. rewrite Ho by done. rewrite <- Ht0. apply Ho1. lia.
        -- intros j Hj _. by apply Hc.
Qed.

(** ** The claims about failure and the final status *)

(** C2 (as amended). When the handler of the task at index [i] throws in
    pass [loop], that task is marked failed with the thrown message, the
    failure line is the last log line, [isExecuting] is false, and the
    dispatch of that task is the last one of the run.  The tasks in front
    of it are completed.  A task behind it is as it was when the run
    started if the failure is in the first pass or the task is a trailing
    loop task, and is completed (by the pass before) otherwise. *)
Theorem C2_fail_fast tasks webview s s' loop i message :
  storeTasks s = tasks ->
  NoDup (List.map t_id tasks) ->
  executeSequence tasks (Some webview) s = (Ret (Failed loop i message), s') ->
  let body := tasksToExecute tasks in
  (exists task context sa sb,
     body !! i = Some task
     /\ executeTask task webview context sa = (Throw message, sb))
  /\ (exists t, storeTasks s' !! i = Some t
        /\ t_status t = failed /\ t_error t = Some message)
  /\ last (logs (storeStatus s'))
     = Some ("Task " ++ pretty (Z.of_nat i + 1) ++ " failed: " ++ message)
  /\ isExecuting (storeStatus s') = false
  /\ (exists new,
        dispatched s' = (dispatched s ++ new)%list
        /\ List.map dispatchKey new
           = (schedule loop 0 body ++ take (S i) (passFrom loop 0 body))%list)
  /\ (forall j, (j < i)%nat ->
        t_status <$> storeTasks s' !! j = Some completed)
  /\ (forall j, (i < j)%nat -> loop = 0%nat \/ (length body <= j)%nat ->
        storeTasks s' !! j = tasks !! j)
  /\ (forall j, (i < j < length body)%nat -> loop <> 0%nat ->
        t_status <$> storeTasks s' !! j = Some completed).
Proof.
  intros Hs Hnd H body.
  assert (tasks <> []) as Hne.
  { intros ->. by rewrite executeSequence_abort in H by auto. }
  apply (executeSequence_spec _ _ _ _ _ Hne) in H
    as (s0 & r1 & s1 & Hst & Hrun & Hr).
  destruct (runLoops_trace _ _ _ _ _ _ _ Hrun) as (new & Hd & _ & Hkeys).
  destruct (runLoops_status _ _ _ _ _ _ _ Hrun) as (_ & _ & _ & Hstat).
  apply runLoops_store in Hrun as (_ & Hstore).
  2:{ by rewrite (start_tasks _ _ _ Hst), Hs. }
  2:{ intros k t Hk. rewrite (start_tasks _ _ _ Hst), Hs.
      apply tasksToExecute_lookup in Hk as [Hk _].
      change (@List.map) with (@fmap list _). by rewrite list_lookup_fmap, Hk. }
  destruct r1 as [[o|] | e |]; try (by destruct Hr).
  destruct Hr as [[= <-] ->].
  destruct Hkeys as (p & k & msg & [= -> -> ->] & _ & _ & Hkeys).
  destruct Hstat as (p' & k' & msg' & [= <- <- <-] & Hex & _ & _ & Hlog & Hthrow).
  destruct Hstore as (p' & k' & msg' & [= <- <- <-] & Hc & Hf & Ho & Hb).
  fold body in Hkeys, Ho, Hb, Hthrow.
  rewrite (start_tasks _ _ _ Hst), Hs in Ho.
  rewrite (start_dispatched _ _ _ Hst) in Hd. simpl in *.
  split; [done|]. split; [done|]. split; [done|]. split; [done|].
  split; [by exists new|]. done.
Qed.

(** C7 (as amended). After a run that completes, the success line is the
    last log line, [isExecuting] and [isPaused] are false, the current
    index is -1 and [currentLoop] is cleared, while [totalLoops] still
    holds what the start of the run stored in it.  After a run that
    fails, [isExecuting] and [isPaused] are false and the current index
    still is that of the failing task. *)
Theorem C7_status_after_run tasks webview s o s' :
  executeSequence tasks (Some webview) s = (Ret o, s') ->
  let st := storeStatus s' in
  match o with
  | Completed =>
      last (logs st) = Some "All tasks executed successfully!"
      /\ isExecuting st = false /\ isPaused st = false
      /\ currentTaskIndex st = -1
      /\ currentLoop st = None
      /\ totalLoops st
         = (if hasLoop tasks then Some (loopCountOf tasks) else None)
  | Failed loop i message =>
      last (logs st)
      = Some ("Task " ++ pretty (Z.of_nat i + 1) ++ " failed: " ++ message)
      /\ isExecuting st = false /\ isPaused st = false
      /\ currentTaskIndex st = Z.of_nat i
      /\ totalLoops st
         = (if hasLoop tasks then Some (loopCountOf tasks) else None)
  | Aborted => st = storeStatus s
  end.
Proof.
  intros H st. subst st.
  destruct (decide (tasks = [])) as [->|Hne].
  { rewrite executeSequence_abort in H by auto. by injection H as <- <-. }
  apply (executeSequence_spec _ _ _ _ _ Hne) in H
    as (s0 & r1 & s1 & Hst & Hrun & Hr).
  apply runLoops_status in Hrun as (_ & _ & Htl & Hstat).
  rewrite (start_totalLoops _ _ _ Hst) in Htl.
  destruct r1 as [[o1|] | e |]; try (by destruct Hr).
  - destruct Hr as [[= <-] ->].
    destruct Hstat as (p & k & msg & -> & Hex & Hpa & Hix & Hlog & _). done.
  - destruct Hr as [[= ->] []].
    rewrite finish_logs0, last_snoc. repeat split; congruence.
Qed.

(** ** The claims about the handlers *)

(** C5 (as amended). The run keeps one task from the dispatcher: the one
    at the last index when it is a loop task.  Every dispatch is that of
    the task of the sequence at its index, below that bound, whatever its
    type; and the dispatcher, given a loop task, appends one log line and
    returns the context unchanged. *)
Theorem C5_only_trailing_loop_skipped tasks webviewRef s
    loopId config status result error webview context s1 :
  (exists new,
     dispatched (executeSequence tasks webviewRef s).2
     = (dispatched s ++ new)%list
     /\ Forall (fun d =>
                  tasks !! d_index d = Some (d_task d)
                  /\ (d_index d
                      < length tasks - (if hasLoop tasks then 1 else 0))%nat)
          new)
  /\ executeTask (mkTask loopId TLoop config status result error)
       webview context s1
     = (Ret context,
        (addLog "Loop task - execution handled at sequence level" s1).2).
Proof.
  split; [|done].
  destruct (decide (tasks = [] \/ webviewRef = None)) as [Ha|Ha].
  - rewrite executeSequence_abort by done. exists []. simpl.
    by rewrite app_nil_r.
  - destruct webviewRef as [wv|]; [|tauto].
    assert (tasks <> []) as Hne by tauto.
    destruct (executeSequence tasks (Some wv) s) as [r s'] eqn:E.
    apply (executeSequence_spec _ _ _ _ _ Hne) in E
      as (s0 & r1 & s2 & Hst & Hrun & Hr).
    apply runLoops_in_body in Hrun as (new & Hd & _ & Hin).
    exists new. split; [|done]. simpl.
    rewrite <- (start_dispatched _ _ _ Hst), <- Hd.
    destruct r1 as [[o|] | e |]; destruct Hr as [_ Hr]; try by subst.
    apply (finish_dispatched _ _ Hr).
Qed.

(** C9. The extract handler returns, under the key [extractedData], the
    list made of at most 10 link records (title, url, type [link]) taken
    from visible anchors, followed by at most 5 heading records (title, no
    url, type [heading]), and stores the same list in the execution
    status. *)
Theorem C9_extract_handler task webview context s :
  t_type task = TExtractDom ->
  let page := pageAt webview (jsCalls s) in
  let links :=
    List.map linkItem (take 10 (List.filter isExtractLink (anchors page))) in
  let heads := List.map headingItem (take 5 (headings page)) in
  exists s',
    executeTask task webview context s
    = (Ret (<["extractedData" := VItems (links ++ heads)]> context), s')
    /\ extractedData (storeStatus s') = Some (links ++ heads)%list
    /\ (length links <= 10)%nat /\ (length heads <= 5)%nat
    /\ Forall (fun it =>
                 item_type it = link
                 /\ exists a, In a (anchors page) /\ a_visible a = true
                              /\ url it = Some (href a)
                              /\ title it = trim (a_text a)) links
    /\ Forall (fun it => item_type it = heading /\ url it = None) heads.
Proof.
  intros Hty page links heads. unfold executeTask. rewrite Hty.
  eexists. split; [reflexivity|]. simpl.
  split; [by destruct (storeStatus s)|].
  split; [subst links; rewrite length_map, length_take; lia|].
  split; [subst heads; rewrite length_map, length_take; lia|].
  split.
  - subst links. apply Forall_forall. intros it Hit.
    apply list_elem_of_In, in_map_iff in Hit as (a & <- & Ha).
    split; [done|]. exists a.
    apply list_elem_of_In, elem_of_take in Ha as (n & Ha & _).
    apply list_elem_of_lookup_2, list_elem_of_In, filter_In in Ha as [Ha Hf].
    split; [done|]. split; [|done].
    unfold isExtractLink in Hf. by apply andb_prop in Hf as [_ ?].
  - subst heads. apply Forall_forall. intros it Hit.
    by apply list_elem_of_In, in_map_iff in Hit as (h & <- & _).
Qed.

Lemma truthy_orElse a b :
  truthy (orElse a b)
  = match truthy a with Some t => Some t | None => truthy b end.
Proof.
  unfold orElse. destruct (truthy a) as [t|] eqn:E; [|done].
  unfold truthy in *. destruct a as [x|]; [|done].
  case_decide; [done|]. injection E as <-. simpl. by rewrite decide_False.
Qed.

Lemma findText_run webview t s :
  exists s',
    findText webview t s
    = (match scrollToMatchCode t (pageAt webview (jsCalls s)) with
       | inr _ => Ret {[ "lastFoundText" := VStr t ]}
       | inl message => Throw message
       end, s')
    /\ webviewCalls s'
       = (webviewCalls s
          ++ [FindInPage t; ExecuteJavaScript (ScrollToMatch t)])%list.
Proof.
  unfold findText, mbind, M_bind, executeJavaScript. simpl.
  destruct (scrollToMatchCode t _) as [message | [|]]; eexists;
    (split; [reflexivity|]); simpl; by rewrite <- ?app_assoc.
Qed.

Lemma app_longer {A} (l k : list A) : k <> [] -> (l ++ k)%list <> l.
Proof.
  intros Hk H. apply (f_equal length) in H. rewrite length_app in H.
  destruct k; [done | simpl in H; lia].
Qed.

(** C10. The find handler searches for [config.text] when that is set,
    else for [config.selector] when that is set, else for the inherited
    [lastFoundText]; it throws its error 'Text to find is required', before
    any search is made, exactly when none of the three is set (set
    meaning: neither undefined nor empty, as the [||] and [!] of the source
    decide it).  Searching for a text is: the page view's find, then the
    scroll script built from the text; the handler returns the text under
    [lastFoundText] when that script answers, which it does when the text
    is read verbatim, and fails with the script's error otherwise, as it
    does when the text makes the script's literal run over its line. *)
Theorem C10_find_text_resolution task webview context s :
  t_type task = TFind ->
  let config := t_config task in
  let run := executeTask task webview context s in
  let page := pageAt webview (S (jsCalls s)) in
  let cleared :=
    (webviewCalls s
     ++ [StopFindInPage "clearSelection";
         ExecuteJavaScript ClearHighlights])%list in
  let searches t :=
    webviewCalls run.2
    = (cleared ++ [FindInPage t; ExecuteJavaScript (ScrollToMatch t)])%list
    /\ run.1
       = match scrollToMatchCode t page with
         | inr _ => Ret {[ "lastFoundText" := VStr t ]}
         | inl message => Throw message
         end
    /\ (reading Escaped t = Verbatim ->
        run.1 = Ret {[ "lastFoundText" := VStr t ]})
    /\ (reading Escaped t = Unterminated ->
        run.1 = Throw (syntaxError page (ScrollToMatch t))) in
  (forall t, truthy (text config) = Some t -> searches t)
  /\ (forall t, truthy (text config) = None ->
        truthy (selector config) = Some t -> searches t)
  /\ (forall t, truthy (text config) = None ->
        truthy (selector config) = None ->
        context !! "lastFoundText" = Some (VStr t) -> t <> "" ->
        searches t)
  /\ (run.1 = Throw "Text to find is required"
      /\ webviewCalls run.2 = cleared
      <-> truthy (text config) = None /\ truthy (selector config) = None
          /\ truthyValue (context !! "lastFoundText") = None).
Proof.
  intros Hty config run page cleared searches.
  assert (forall t s1 r s',
            jsCalls s1 = S (jsCalls s) -> webviewCalls s1 = cleared ->
            findText webview t s1 = (r, s') ->
            (webviewCalls s'
             = (cleared
                ++ [FindInPage t; ExecuteJavaScript (ScrollToMatch t)])%list
             /\ r = match scrollToMatchCode t page with
                    | inr _ => Ret {[ "lastFoundText" := VStr t ]}
                    | inl message => Throw message
                    end
             /\ (reading Escaped t = Verbatim ->
                 r = Ret {[ "lastFoundText" := VStr t ]})
             /\ (reading Escaped t = Unterminated ->
                 r = Throw (syntaxError page (ScrollToMatch t))))
            /\ ~ (webviewCalls s' = cleared)) as Hfind.
  { intros t s1 r s' Hjs Hc E.
    destruct (findText_run webview t s1) as (s2 & E2 & Hc2).
    rewrite E in E2. injection E2 as -> <-. rewrite Hjs, Hc in *.
    fold page. split; [|rewrite Hc2; by apply app_longer].
    split; [done|]. split; [done|].
    unfold scrollToMatchCode, spliced.
    split; intros ->; done. }
  subst searches. destruct run as [r s'] eqn:E. subst run. simpl.
  unfold executeTask in E. rewrite Hty in E. fold config in E.
  unfold mbind at 1, M_bind at 1 in E. simpl in E.
  unfold mbind at 1, M_bind at 1 in E. simpl in E.
  rewrite truthy_orElse in E.
  set (s1 := mkState _ _ _ _ _ _) in E.
  assert (webviewCalls s1 = cleared) as Hs1
    by (subst s1 cleared; simpl; by rewrite <- app_assoc).
  assert (jsCalls s1 = S (jsCalls s)) as Hjs1 by done.
  destruct (truthy (text config)) as [t1|] eqn:E1.
  { destruct (Hfind _ _ _ _ Hjs1 Hs1 E) as [Hok Hne].
    split; [by intros t [= <-]|]. split; [done|]. split; [done|].
    split; [by intros [_ ?] | by intros (? & _)]. }
  destruct (truthy (selector config)) as [t2|] eqn:E2.
  { destruct (Hfind _ _ _ _ Hjs1 Hs1 E) as [Hok Hne].
    split; [done|]. split; [by intros t _ [= <-]|]. split; [done|].
    split; [by intros [_ ?] | by intros (_ & ? & _)]. }
  destruct (context !! "lastFoundText") as [v|] eqn:E3; simpl in E.
  2:{ injection E as <- <-. done. }
  destruct v as [t3 | items | c]; simpl in E.
  - destruct (decide (t3 = "")) as [->|Hne3].
    { injection E as <- <-. split; [done|]. split; [done|].
      split; [by intros t _ _ [= <-] | done]. }
    unfold mbind at 1, M_bind at 1 in E. simpl in E.
    set (s2 := mkState _ _ _ _ _ _) in E.
    destruct (Hfind t3 s2 r s' Hjs1 Hs1 E) as [Hok Hne].
    split; [done|]. split; [done|]. split; [by intros t _ _ [= <-] _|].
    split; [by intros [_ ?]|]. intros (_ & _ & H). simpl in H.
    by rewrite decide_False in H.
  - unfold mbind, M_bind in E. simpl in E. injection E as <- <-.
    split; [done|]. split; [done|]. split; [done|].
    split; [by intros [? _] | by intros (_ & _ & ?)].
  - unfold mbind, M_bind in E. simpl in E. injection E as <- <-.
    split; [done|]. split; [done|]. split; [done|].
    split; [by intros [? _] | by intros (_ & _ & ?)].
Qed.

(** ** The number of passes *)

(** A positive count is the number of passes. *)
Lemma passesOf_positive tasks lastTask N :
  last tasks = Some lastTask -> t_type lastTask = TLoop ->
  loopCount (t_config lastTask) = Some N -> 0 < N ->
  passesOf tasks = Z.to_nat N.
Proof.
  intros Hl Hty HN Hpos. unfold passesOf, loopCountOf, numOr.
  rewrite Hl, HN, bool_decide_eq_true_2 by done.
  by rewrite decide_False by lia.
Qed.

(** An unset count and the count 0 give one pass. *)
Lemma passesOf_unset_or_zero tasks lastTask :
  last tasks = Some lastTask -> t_type lastTask = TLoop ->
  loopCount (t_config lastTask) = None
  \/ loopCount (t_config lastTask) = Some 0 ->
  passesOf tasks = 1%nat.
Proof.
  intros Hl Hty HN. unfold passesOf, loopCountOf, numOr.
  rewrite Hl, bool_decide_eq_true_2 by done. by destruct HN as [-> | ->].
Qed.

(** A negative count gives no pass at all. *)
Lemma passesOf_negative tasks lastTask N :
  last tasks = Some lastTask -> t_type lastTask = TLoop ->
  loopCount (t_config lastTask) = Some N -> N < 0 ->
  passesOf tasks = 0%nat.
Proof.
  intros Hl Hty HN Hneg. unfold passesOf, loopCountOf, numOr.
  rewrite Hl, HN, bool_decide_eq_true_2 by done.
  rewrite decide_False by lia. lia.
Qed.

(** * Further properties of the run *)

(** X1. No error escapes from [executeSequence]: whatever a handler
    throws is caught by the loop, so a run ends by returning or stays
    suspended on the pause flag. *)
Theorem X1_run_catches_errors tasks webviewRef s :
  match (executeSequence tasks webviewRef s).1 with
  | Throw _ => False
  | _ => True
  end.
Proof.
  destruct (executeSequence tasks webviewRef s).1 as [o | e |] eqn:E;
    [done | | done].
  by apply executeSequence_catches in E.
Qed.

(** X2. When the sequence is not empty and the pause flag always ends
    up reading false, the run returns, and it completes exactly when
    every handler call it makes returns: the run either ends with
    [Completed], or it ends with [Failed] at the call that threw, with the
    message of that call.  What a handler would do in a context or a state
    that the run never reaches is of no account. *)
Theorem X2_run_completes tasks webview s :
  tasks <> [] ->
  (forall n, is_Some (pauseReads n)) ->
  let run := executeSequence tasks (Some webview) s in
  exists (calls : list Call) (s0 : State),
    dispatched run.2 = (dispatched s ++ List.map c_dispatch calls)%list
    /\ (jsCalls s0 = jsCalls s /\ webviewCalls s0 = webviewCalls s
        /\ handled webview calls s0 run.2)
    /\ (run.1 = Ret Completed <-> Forall returned calls)
    /\ (run.1 = Ret Completed
        \/ exists loop i message made c,
             run.1 = Ret (Failed loop i message)
             /\ calls = (made ++ [c])%list /\ Forall returned made
             /\ c_answer c = Throw message
             /\ d_loop (c_dispatch c) = loop /\ d_index (c_dispatch c) = i).
Proof.
  intros Hne Hp run. subst run.
  destruct (executeSequence tasks (Some webview) s) as [r s'] eqn:E.
  destruct (executeSequence_handled _ _ _ _ _ Hne E)
    as (s0 & segments & Hst & Hjs & Hwc & _ & Hh & _ & Hout).
  exists (concat segments), s0. simpl.
  split.
  { rewrite (handled_dispatched _ _ _ _ Hh).
    by rewrite (start_dispatched _ _ _ Hst). }
  split; [done|].
  destruct r as [[| | loop i message] | e |]; try done.
  - destruct Hout as [_ Hall].
    assert (Forall returned (concat segments)) as Hret.
    { apply Forall_concat. eapply Forall_impl; [exact Hall|].
      by intros seg [_ ?]. }
    split; [done | by left].
  - destruct Hout as (made & c & Hcat & Hf & Hth & <- & <-).
    split.
    + split; [done|]. rewrite Hcat. intros Hall.
      apply Forall_app in Hall as [_ Hc]. apply Forall_cons_1 in Hc as [Hc _].
      unfold returned in Hc. by rewrite Hth in Hc.
    + right. by exists (d_loop (c_dispatch c)), (d_index (c_dispatch c)),
                 message, made, c.
  - destruct Hout as [_ Hn].
    destruct (Hp (length (dispatched s'))) as [k Hk]. congruence.
Qed.

(** X3. After a run that completes (task ids being unique), the store
    holds the same tasks in the same order; a trailing loop task is
    untouched, and when at least one pass was made every task in front of
    it has status completed. *)
Theorem X3_completed_run_statuses tasks webview s s' :
  storeTasks s = tasks ->
  NoDup (List.map t_id tasks) ->
  executeSequence tasks (Some webview) s = (Ret Completed, s') ->
  let body := tasksToExecute tasks in
  List.map t_id (storeTasks s') = List.map t_id tasks
  /\ (forall j, (length body <= j)%nat -> storeTasks s' !! j = tasks !! j)
  /\ (passesOf tasks <> 0%nat ->
      forall j, (j < length body)%nat ->
        t_status <$> storeTasks s' !! j = Some completed).
Proof.
  intros Hs Hnd H body.
  assert (tasks <> []) as Hne.
  { intros ->. by rewrite executeSequence_abort in H by auto. }
  apply (executeSequence_spec _ _ _ _ _ Hne) in H
    as (s0 & r1 & s1 & Hst & Hrun & Hr).
  pose proof (runLoops_trace _ _ _ _ _ _ _ Hrun) as (new & _ & _ & Hkeys).
  apply runLoops_store in Hrun as (Hids & Hstore).
  2:{ by rewrite (start_tasks _ _ _ Hst), Hs. }
  2:{ intros k t Hk. rewrite (start_tasks _ _ _ Hst), Hs.
      apply tasksToExecute_lookup in Hk as [Hk _].
      change (@List.map) with (@fmap list _). by rewrite list_lookup_fmap, Hk. }
  rewrite (start_tasks _ _ _ Hst), Hs in Hids, Hstore.
  destruct r1 as [[o|] | e |]; try (by destruct Hr).
  { destruct Hkeys as (p & k & message & -> & _). by destruct Hr. }
  destruct Hr as [_ Hfin]. rewrite (finish_tasks _ _ Hfin).
  destruct Hstore as [Ho Hc]. fold body in Ho, Hc.
  split; [done|]. split; [done|]. intros Hp j Hj. by apply Hc.
Qed.

(** X5. When a run fails, the index left in the status is that of a task
    that was to be executed: it is at least 0 and below [totalTasks], and
    below [totalTasks - 1] when the sequence ends with a loop task, which
    [totalTasks] counts although it is never executed. *)
Theorem X5_failed_index_in_range tasks webview s s' loop i message :
  executeSequence tasks (Some webview) s = (Ret (Failed loop i message), s') ->
  let st := storeStatus s' in
  totalTasks st = Z.of_nat (length tasks)
  /\ 0 <= currentTaskIndex st
       < totalTasks st - (if hasLoop tasks then 1 else 0).
Proof.
  intros H st. subst st.
  assert (tasks <> []) as Hne.
  { intros ->. by rewrite executeSequence_abort in H by auto. }
  apply (executeSequence_spec _ _ _ _ _ Hne) in H
    as (s0 & r1 & s1 & Hst & Hrun & Hr).
  pose proof (runLoops_trace _ _ _ _ _ _ _ Hrun) as (new & _ & _ & Hkeys).
  apply runLoops_status in Hrun as (_ & Htt & _ & Hstat).
  rewrite (start_totalTasks _ _ _ Hst) in Htt.
  destruct r1 as [[o|] | e |]; try (by destruct Hr).
  destruct Hr as [[= <-] ->].
  destruct Hkeys as (p & k & msg & [= -> -> ->] & _ & Hk & _).
  destruct Hstat as (p' & k' & msg' & [= <- <- <-] & _ & _ & Hix & _).
  split; [done|]. rewrite Htt, Hix.
  unfold tasksToExecute in Hk. destruct (hasLoop tasks).
  - rewrite length_take in Hk. lia.
  - lia.
Qed.

(** ** Keys of the context within a pass *)

Lemma passCalls_lookup loop i ts context calls k c :
  passCalls loop i ts context calls ->
  calls !! k = Some c ->
  d_loop (c_dispatch c) = loop /\ d_index (c_dispatch c) = (i + k)%nat
  /\ dom context ⊆ dom (d_context (c_dispatch c))
  /\ passCalls loop (i + k) (drop k ts) (d_context (c_dispatch c))
       (drop k calls).
Proof.
  revert i ts context k. induction calls as [|c0 rest IH];
    intros i ts context k Hpass Hk; [done|].
  destruct ts as [|task ts']; [done|]. destruct Hpass as [Hc0 Hrest].
  destruct k as [|k].
  - injection Hk as <-. rewrite Hc0, Nat.add_0_r. simpl.
    split; [done|]. split; [done|]. split; [done|]. split; [|done].
    by rewrite Hc0.
  - destruct (c_answer c0) as [result | e |]; [|by subst..].
    destruct (IH _ _ _ _ Hrest Hk) as (Hl & Hi & Hdom & Hp).
    split; [done|]. split; [rewrite Hi; lia|]. split.
    + etrans; [|exact Hdom]. rewrite dom_union. apply union_subseteq_r.
    + simpl. by replace (i + S k)%nat with (S i + k)%nat by lia.
Qed.

Lemma loopCalls_lookup loop body segments p segment :
  loopCalls loop body segments ->
  segments !! p = Some segment ->
  passCalls (loop + p) 0 body ∅ segment.
Proof.
  revert loop p. induction segments as [|seg rest IH]; intros loop p H Hp;
    [done|].
  destruct H as (Hseg & _ & Hrest). destruct p as [|p].
  - injection Hp as <-. by rewrite Nat.add_0_r.
  - replace (loop + S p)%nat with (S loop + p)%nat by lia. by eapply IH.
Qed.

(** X6. Within a pass no key is ever dropped from the context: whatever
    the outcome of the run, of two tasks dispatched in the same iteration
    of the outer loop the one dispatched later is handed every key that
    the earlier one was handed (a later handler can overwrite the value,
    not remove the key; a handler that returns a context of its own, as
    the search handler does, does not remove one either). *)
Theorem X6_context_keys_persist_in_pass tasks webview s :
  exists new,
    dispatched (executeSequence tasks (Some webview) s).2
    = (dispatched s ++ new)%list
    /\ forall d d',
         In d new -> In d' new ->
         d_loop d = d_loop d' -> (d_index d <= d_index d')%nat ->
         dom (d_context d) ⊆ dom (d_context d').
Proof.
  destruct (decide (tasks = [])) as [->|Hne].
  { rewrite executeSequence_abort by auto. exists []. simpl.
    by rewrite app_nil_r. }
  destruct (executeSequence tasks (Some webview) s) as [r s'] eqn:E.
  destruct (executeSequence_handled _ _ _ _ _ Hne E)
    as (s0 & segments & Hst & _ & _ & _ & Hh & Hloop & _).
  exists (List.map c_dispatch (concat segments)). simpl. split.
  { rewrite (handled_dispatched _ _ _ _ Hh).
    by rewrite (start_dispatched _ _ _ Hst). }
  assert (forall d, In d (List.map c_dispatch (concat segments)) ->
            exists p segment k c,
              segments !! p = Some segment /\ segment !! k = Some c
              /\ d = c_dispatch c) as Hfind.
  { intros d (c & <- & Hc)%in_map_iff.
    apply in_concat in Hc as (segment & Hseg & Hc).
    apply list_elem_of_In, list_elem_of_lookup in Hseg as [p Hp].
    apply list_elem_of_In, list_elem_of_lookup in Hc as [k Hk].
    by exists p, segment, k, c. }
  intros d d' (p & segment & k & c & Hp & Hk & ->)%Hfind
    (p' & segment' & k' & c' & Hp' & Hk' & ->)%Hfind Hl Hi.
  pose proof (loopCalls_lookup _ _ _ _ _ Hloop Hp) as Hpass.
  pose proof (loopCalls_lookup _ _ _ _ _ Hloop Hp') as Hpass'.
  destruct (passCalls_lookup _ _ _ _ _ _ _ Hpass Hk) as (Hl1 & Hi1 & _ & Hrest).
  destruct (passCalls_lookup _ _ _ _ _ _ _ Hpass' Hk') as (Hl2 & Hi2 & _).
  assert (p' = p) as -> by lia. assert (segment' = segment) as -> by congruence.
  simpl in Hi1, Hi2.
  assert (drop k segment !! (k' - k)%nat = Some c') as Hk2.
  { rewrite lookup_drop. replace (k + (k' - k))%nat with k' by lia. done. }
  by destruct (passCalls_lookup _ _ _ _ _ _ _ Hrest Hk2) as (_ & _ & Hdom & _).
Qed.

(** X8. A handler never touches what the sequence loop owns: whatever
    the task and the context, and whether it returns or throws,
    [executeTask] leaves the task list, the dispatch record, the alerts
    and the status fields [isExecuting], [isPaused], [currentTaskIndex],
    [totalTasks], [currentLoop] and [totalLoops] as they are, and it never
    waits on the pause flag. *)
Theorem X8_handler_leaves_loop_state task webview context s :
  let run := executeTask task webview context s in
  storeTasks run.2 = storeTasks s
  /\ dispatched run.2 = dispatched s
  /\ alerts run.2 = alerts s
  /\ isExecuting (storeStatus run.2) = isExecuting (storeStatus s)
  /\ isPaused (storeStatus run.2) = isPaused (storeStatus s)
  /\ currentTaskIndex (storeStatus run.2) = currentTaskIndex (storeStatus s)
  /\ totalTasks (storeStatus run.2) = totalTasks (storeStatus s)
  /\ currentLoop (storeStatus run.2) = currentLoop (storeStatus s)
  /\ totalLoops (storeStatus run.2) = totalLoops (storeStatus s)
  /\ run.1 <> Hang.
Proof.
  intros run. subst run.
  destruct (executeTask task webview context s) as [r s'] eqn:E.
  by destruct (frames_executeTask _ _ _ _ _ _ E) as [[] ?].
Qed.

(** ** The page-view calls of a run *)

Lemma callsAdded_refl P s : callsAdded P s s.
Proof. exists []. by rewrite app_nil_r. Qed.

Lemma callsAdded_trans P s1 s2 s3 :
  callsAdded P s1 s2 -> callsAdded P s2 s3 -> callsAdded P s1 s3.
Proof.
  intros (n1 & H1 & F1) (n2 & H2 & F2). exists (n1 ++ n2)%list.
  rewrite H2, H1, <- app_assoc. split; [done | by apply Forall_app].
Qed.

Lemma callsAdded_same P s s' :
  webviewCalls s' = webviewCalls s -> callsAdded P s s'.
Proof. intros H. exists []. by rewrite app_nil_r. Qed.

Lemma callsAdded_one P c s s' :
  P c -> webviewCalls s' = (webviewCalls s ++ [c])%list -> callsAdded P s s'.
Proof. intros Hc H. exists [c]. split; [done | by constructor]. Qed.

Lemma keepsCalls_ret {A} P (a : A) : KeepsCalls P (mret a).
Proof. intros s r s' [= <- <-]. apply callsAdded_refl. Qed.

Lemma keepsCalls_throw {A} P e : KeepsCalls P (@throw A e).
Proof. intros s r s' [= <- <-]. apply callsAdded_refl. Qed.

Lemma keepsCalls_bind {A B} P (m : M A) (k : A -> M B) :
  KeepsCalls P m -> (forall a, KeepsCalls P (k a)) -> KeepsCalls P (m ≫= k).
Proof.
  intros Hm Hk s r s' H. unfold mbind, M_bind in H.
  destruct (m s) as [[a | e |] s1] eqn:E; pose proof (Hm _ _ _ E) as H1.
  - eapply callsAdded_trans; [exact H1 | by eapply Hk].
  - by injection H as <- <-.
  - by injection H as <- <-.
Qed.

Lemma keepsCalls_tryCatch {A} P (m : M A) (h : string -> M A) :
  KeepsCalls P m -> (forall e, KeepsCalls P (h e)) ->
  KeepsCalls P (tryCatch m h).
Proof.
  intros Hm Hh s r s' H. unfold tryCatch in H.
  destruct (m s) as [[a | e |] s1] eqn:E; pose proof (Hm _ _ _ E) as H1.
  - by injection H as <- <-.
  - eapply callsAdded_trans; [exact H1 | by eapply Hh].
  - by injection H as <- <-.
Qed.

Lemma keepsCalls_onStatus P f : KeepsCalls P (onStatus f).
Proof. intros s r s' [= <- <-]. by apply callsAdded_same. Qed.

Lemma keepsCalls_onTasks P f : KeepsCalls P (onTasks f).
Proof. intros s r s' [= <- <-]. by apply callsAdded_same. Qed.

Lemma keepsCalls_alert P message : KeepsCalls P (alert message).
Proof. intros s r s' [= <- <-]. by apply callsAdded_same. Qed.

Lemma keepsCalls_recordDispatch P d : KeepsCalls P (recordDispatch d).
Proof. intros s r s' [= <- <-]. by apply callsAdded_same. Qed.

Lemma keepsCalls_awaitResume P : KeepsCalls P awaitResume.
Proof.
  intros s r s' H. unfold awaitResume, hang in H.
  destruct (pauseReads _); injection H as <- <-; apply callsAdded_refl.
Qed.

Lemma keepsCalls_stopFindInPage (P : WebviewCall -> Prop) action :
  P (StopFindInPage action) -> KeepsCalls P (stopFindInPage action).
Proof. intros HP s r s' [= <- <-]. by eapply callsAdded_one. Qed.

Lemma keepsCalls_findInPage (P : WebviewCall -> Prop) t :
  P (FindInPage t) -> KeepsCalls P (findInPage t).
Proof. intros HP s r s' [= <- <-]. by eapply callsAdded_one. Qed.

Lemma keepsCalls_loadURL (P : WebviewCall -> Prop) u :
  P (LoadURL u) -> KeepsCalls P (loadURL u).
Proof. intros HP s r s' [= <- <-]. by eapply callsAdded_one. Qed.

Lemma keepsCalls_executeJavaScript {A} (P : WebviewCall -> Prop) webview sc
    (code : Code A) :
  P (ExecuteJavaScript sc) -> KeepsCalls P (executeJavaScript webview sc code).
Proof.
  intros HP s r s' H. unfold executeJavaScript in H.
  destruct (code _); injection H as <- <-; by eapply callsAdded_one.
Qed.

Ltac keepsCalls :=
  repeat first
    [ apply keepsCalls_bind; [| intros ?]
    | apply keepsCalls_tryCatch; [| intros ?]
    | apply keepsCalls_ret
    | apply keepsCalls_throw
    | apply keepsCalls_onStatus
    | apply keepsCalls_onTasks
    | apply keepsCalls_alert
    | apply keepsCalls_recordDispatch
    | apply keepsCalls_awaitResume
    | apply keepsCalls_stopFindInPage; [simpl; tauto]
    | apply keepsCalls_findInPage; [simpl; tauto]
    | apply keepsCalls_executeJavaScript; [simpl; tauto]
    | case_match ].

(** Only the search handler calls [loadURL]. *)
Lemma executeTask_no_loadURL task webview context :
  t_type task <> TSearch ->
  KeepsCalls (fun c => ~ isLoadURL c) (executeTask task webview context).
Proof.
  intros Hty. unfold executeTask, findText.
  destruct (t_type task); [done|..];
    unfold setExecutionStatus, addLog; keepsCalls.
Qed.

(** The sequence loop makes no page-view call of its own: the calls of a
    run are those of the handlers of the tasks it executes. *)
Lemma runTasks_calls P webview loop i ts context :
  (forall task context', In task ts ->
     KeepsCalls P (executeTask task webview context')) ->
  KeepsCalls P (runTasks webview loop i ts context).
Proof.
  revert i context. induction ts as [|task rest IH]; intros i context Hts;
    simpl; [apply keepsCalls_ret|].
  apply keepsCalls_bind.
  - unfold runTask, updateTask, setExecutionStatus, addLog. keepsCalls.
    apply Hts. by left.
  - intros [context'|o]; [|apply keepsCalls_ret].
    apply IH. intros task' c Hin. apply Hts. by right.
Qed.

Lemma runLoops_calls P webview tasks passes loop :
  (forall task context, In task (tasksToExecute tasks) ->
     KeepsCalls P (executeTask task webview context)) ->
  KeepsCalls P (runLoops webview tasks passes loop).
Proof.
  intros Hts. revert loop. induction passes as [|passes IH]; intros loop;
    simpl; [apply keepsCalls_ret|].
  apply keepsCalls_bind.
  - unfold announceRestart, setExecutionStatus, addLog. keepsCalls.
  - intros _. apply keepsCalls_bind; [by apply runTasks_calls|].
    intros [o|]; [apply keepsCalls_ret | apply IH].
Qed.

Lemma executeSequence_calls P tasks webview :
  (forall task context, In task (tasksToExecute tasks) ->
     KeepsCalls P (executeTask task webview context)) ->
  KeepsCalls P (executeSequence tasks (Some webview)).
Proof.
  intros Hts. unfold executeSequence.
  destruct (decide (length tasks = 0%nat)); [keepsCalls|].
  apply keepsCalls_bind.
  { destruct (isOptimal _); [apply keepsCalls_ret|].
    apply keepsCalls_bind; [apply keepsCalls_onStatus|]. intros _.
    induction (suggestions _) as [|x l IH]; simpl; [apply keepsCalls_ret|].
    apply keepsCalls_bind; [apply keepsCalls_onStatus | by intros _]. }
  intros _. unfold setExecutionStatus, clearLogs, addLog.
  apply keepsCalls_bind; [apply keepsCalls_onStatus|]. intros _.
  apply keepsCalls_bind; [apply keepsCalls_onStatus|]. intros _.
  apply keepsCalls_bind; [apply keepsCalls_onStatus|]. intros _.
  apply keepsCalls_bind; [destruct (hasLoop tasks); keepsCalls|]. intros _.
  apply keepsCalls_bind; [by apply runLoops_calls|].
  intros [o|]; keepsCalls.
Qed.

(** X7. Only search tasks navigate with [loadURL]: in a run of a sequence
    whose tasks to execute include no search task, the page view receives
    no [loadURL] call, whatever the pages answer and however the run
    ends. *)
Theorem X7_no_search_no_loadURL tasks webview s :
  Forall (fun task => t_type task <> TSearch) (tasksToExecute tasks) ->
  exists new,
    webviewCalls (executeSequence tasks (Some webview) s).2
    = (webviewCalls s ++ new)%list
    /\ Forall (fun c => ~ isLoadURL c) new.
Proof.
  intros Hno.
  destruct (executeSequence tasks (Some webview) s) as [r s'] eqn:E.
  eapply executeSequence_calls; [|exact E].
  intros task context Hin. apply executeTask_no_loadURL.
  rewrite Forall_forall in Hno. apply Hno. by apply list_elem_of_In.
Qed.

(** ** The run with the user at the button *)




Lemma unaware_ret {A} (a : A) : Unaware (mret a).
Proof. by intros s1 s2 H. Qed.

Lemma unaware_throw {A} e : Unaware (@throw A e).
Proof. by intros s1 s2 H. Qed.



Lemma assignStatus_unaware st1 st2 f :
  assignStatus st1 (SetIsPaused false) = assignStatus st2 (SetIsPaused false) ->
  assignStatus (assignStatus st1 f) (SetIsPaused false)
  = assignStatus (assignStatus st2 f) (SetIsPaused false).
Proof. destruct st1, st2, f; simpl; congruence. Qed.

Lemma unaware_onStatus (f : ExecutionStatus -> ExecutionStatus) :
  (forall st1 st2,
     assignStatus st1 (SetIsPaused false) = assignStatus st2 (SetIsPaused false) ->
     assignStatus (f st1) (SetIsPaused false)
     = assignStatus (f st2) (SetIsPaused false)) ->
  Unaware (onStatus f).
Proof.
  intros Hf s1 s2 H. split; [done|]. unfold sameButPaused, unpaused in *.
  simpl. injection H as -> Hst -> -> -> ->. f_equal. by apply Hf.
Qed.

Lemma unaware_setExecutionStatus updates :
  Unaware (setExecutionStatus updates).
Proof.
  apply unaware_onStatus. induction updates as [|f rest IH];
    intros st1 st2 H; simpl; [done|].
  apply IH. by apply assignStatus_unaware.
Qed.

Lemma unaware_addLog line : Unaware (addLog line).
Proof.
  apply unaware_onStatus. intros [] [] H. simpl in *. congruence.
Qed.

Lemma unaware_clearLogs : Unaware clearLogs.
Proof.
  apply unaware_onStatus. intros [] [] H. simpl in *. congruence.
Qed.

Lemma unaware_updateTask taskId updates : Unaware (updateTask taskId updates).
Proof.
  intros s1 s2 H. split; [done|]. unfold sameButPaused, unpaused in *.
  simpl. injection H as -> Hst -> -> -> ->. by f_equal.
Qed.

Lemma unaware_alert message : Unaware (alert message).
Proof.
  intros s1 s2 H. split; [done|]. unfold sameButPaused, unpaused in *.
  simpl. injection H as -> Hst -> -> -> ->. by f_equal.
Qed.

Lemma unaware_recordDispatch d : Unaware (recordDispatch d).
Proof.
  intros s1 s2 H. split; [done|]. unfold sameButPaused, unpaused in *.
  simpl. injection H as -> Hst -> -> -> ->. by f_equal.
Qed.

Lemma unaware_loadURL u : Unaware (loadURL u).
Proof.
  intros s1 s2 H. split; [done|]. unfold sameButPaused, unpaused in *.
  simpl. injection H as -> Hst -> -> -> ->. by f_equal.
Qed.

Lemma unaware_findInPage t : Unaware (findInPage t).
Proof.
  intros s1 s2 H. split; [done|]. unfold sameButPaused, unpaused in *.
  simpl. injection H as -> Hst -> -> -> ->. by f_equal.
Qed.

Lemma unaware_stopFindInPage a : Unaware (stopFindInPage a).
Proof.
  intros s1 s2 H. split; [done|]. unfold sameButPaused, unpaused in *.
  simpl. injection H as -> Hst -> -> -> ->. by f_equal.
Qed.

Lemma unaware_executeJavaScript {A} webview sc (code : Code A) :
  Unaware (executeJavaScript webview sc code).
Proof.
  intros s1 s2 H. unfold executeJavaScript, sameButPaused, unpaused in *.
  injection H as -> Hst -> -> -> ->.
  destruct (code _); simpl; (split; [done|]); by f_equal.
Qed.

Lemma unaware_awaitResume : Unaware awaitResume.
Proof.
  intros s1 s2 H. unfold awaitResume.
  assert (dispatched s1 = dispatched s2) as ->
    by (unfold sameButPaused, unpaused in H; by injection H).
  by destruct (pauseReads _).
Qed.

Create HintDb unaware.
#[local] Hint Resolve unaware_ret unaware_throw unaware_setExecutionStatus
  unaware_addLog unaware_clearLogs unaware_updateTask unaware_alert
  unaware_recordDispatch unaware_loadURL unaware_findInPage
  unaware_stopFindInPage unaware_executeJavaScript unaware_awaitResume
  : unaware.









(** While the button is not pressed, the run with the user at the button
    is the run. *)
Lemma runTasksWith_unpressed webview loop i ts context s :
  (x ← runTasksWith (fun _ => 0%nat) webview loop i ts context; mret x.1) s
  = runTasks webview loop i ts context s.
Proof.
  revert i context s. induction ts as [|task rest IH]; intros i context s;
    [done|].
  simpl. unfold mbind, M_bind, storePaused. simpl.
  destruct (runTask webview loop i task context s) as [[[c | o] | e |] s1];
    try done.
  unfold delayWith. simpl.
  specialize (IH (S i) c s1). unfold mbind, M_bind in IH. rewrite <- IH.
  by destruct (runTasksWith _ webview loop (S i) rest c s1) as [[x | e |] s2].
Qed.

Lemma runLoopsWith_unpressed webview tasks passes loop s :
  (x ← runLoopsWith (fun _ => 0%nat) webview tasks passes loop; mret x.1) s
  = runLoops webview tasks passes loop s.
Proof.
  revert loop s. induction passes as [|passes IH]; intros loop s; [done|].
  cbn [runLoopsWith runLoops]. unfold mbind, M_bind.
  destruct (announceRestart tasks loop s) as [[[] | e |] s0]; try done.
  pose proof (runTasksWith_unpressed webview loop 0 (tasksToExecute tasks)
                ∅ s0) as H1.
  unfold mbind, M_bind in H1. rewrite <- H1.
  destruct (runTasksWith _ webview loop 0 (tasksToExecute tasks) ∅ s0)
    as [[[[o|] flags] | e |] s1]; try done.
  simpl. specialize (IH (S loop) s1). unfold mbind, M_bind in IH.
  rewrite <- IH.
  by destruct (runLoopsWith _ webview tasks passes (S loop) s1)
    as [[x | e |] s2].
Qed.

Lemma executeSequenceWith_unpressed tasks webviewRef s :
  (x ← executeSequenceWith (fun _ => 0%nat) tasks webviewRef; mret x.1) s
  = executeSequence tasks webviewRef s.
Proof.
  unfold executeSequenceWith, executeSequence.
  destruct (decide (length tasks = 0%nat)); [done|].
  destruct webviewRef as [webview|]; [|done].
  set (warn := if isOptimal (analyzeTaskSequence tasks) then _ else _).
  set (announce := if hasLoop tasks then _ else _).
  unfold mbind, M_bind.
  destruct (warn s) as [[[] | e |] s1]; try done.
  destruct (setExecutionStatus _ s1) as [[[] | e |] s2]; try done.
  destruct (clearLogs s2) as [[[] | e |] s3]; try done.
  destruct (addLog _ s3) as [[[] | e |] s4]; try done.
  destruct (announce s4) as [[[] | e |] s5]; try done.
  pose proof (runLoopsWith_unpressed webview tasks (passesOf tasks) 0 s5)
    as H1.
  unfold mbind, M_bind in H1. rewrite <- H1.
  by destruct (runLoopsWith _ webview tasks (passesOf tasks) 0 s5)
    as [[[[o|] flags] | e |] s6].
Qed.

(** * Further properties of the handlers *)

(** X9. The search handler needs a query and nothing else: without one
    it throws 'Search query is required' before touching the page view;
    with one it outlines the page, loads the search URL of the encoded
    query and returns the single key [lastSearchQuery].  The context it is
    given plays no part. *)
Theorem X9_search_handler task webview context s :
  t_type task = TSearch ->
  let run := executeTask task webview context s in
  (truthy (searchQuery (t_config task)) = None ->
   run = (Throw "Search query is required", s))
  /\ (forall query,
        truthy (searchQuery (t_config task)) = Some query ->
        run.1 = Ret {[ "lastSearchQuery" := VStr query ]}
        /\ webviewCalls run.2
           = (webviewCalls s
              ++ [ExecuteJavaScript OutlineBody;
                  LoadURL ("https://duckduckgo.com/?q="
                           ++ encodeURIComponent query)])%list)
  /\ (forall context', executeTask task webview context' s = run).
Proof.
  intros Hty run. subst run. unfold executeTask. rewrite Hty.
  destruct (truthy (searchQuery (t_config task))) as [q|].
  - split; [done|]. split; [|done]. intros query [= <-].
    unfold mbind, M_bind. simpl. by rewrite <- app_assoc.
  - done.
Qed.

(** X10. How the click handler picks its target.  A configured selector
    wins: the selector script is injected, and the context is returned
    unchanged when the script answers; the task fails with the script's
    error otherwise, which is 'Element not found' when the page has no
    such element, and a syntax error when the selector makes the script's
    literal run over its line.  Without a selector, an inherited
    [lastFoundText] wins over an inherited [lastSearchQuery]: the element
    holding the found text is clicked.  With neither selector nor found
    text, a search query sends the click to the first result link.  The
    handler's own error 'No click target specified ...' is thrown, before
    the page view is touched, exactly when all three are missing. *)
Theorem X10_click_target_resolution task webview context s :
  t_type task = TClick ->
  let page := pageAt webview (jsCalls s) in
  let target := truthy (clickSelector (t_config task)) in
  let found := truthyValue (context !! "lastFoundText") in
  let searched := truthyValue (context !! "lastSearchQuery") in
  let run := executeTask task webview context s in
  (forall sel, target = Some sel ->
     webviewCalls run.2
     = (webviewCalls s ++ [ExecuteJavaScript (ClickSelector sel)])%list
     /\ run.1 = match clickSelectorCode sel page with
                | inr _ => Ret context
                | inl message => Throw message
                end
     /\ (reading Raw sel = Unterminated ->
         run.1 = Throw (syntaxError page (ClickSelector sel)))
     /\ (reading Raw sel <> Unterminated ->
         fault page (ClickSelector sel) = None ->
         run.1 = if querySelector page sel then Ret context
                 else Throw "Element not found"))
  /\ (forall t, target = None -> found = Some (VStr t) ->
        webviewCalls run.2
        = (webviewCalls s
           ++ [StopFindInPage "activateSelection";
               ExecuteJavaScript (ClickFoundText t)])%list
        /\ run.1
           = match clickFoundTextCode t page with
             | inr hit =>
                 Ret (<["clickedElement" :=
                          VClick (ClickedElement hit.1 hit.2)]> context)
             | inl message => Throw message
             end
        /\ (reading Escaped t = Verbatim ->
            run.1
            = match clickByText page t with
              | Some hit =>
                  Ret (<["clickedElement" :=
                           VClick (ClickedElement hit.1 hit.2)]> context)
              | None => Throw "Element not found for clicking"
              end)
        /\ (reading Escaped t = Unterminated ->
            run.1 = Throw (syntaxError page (ClickFoundText t))))
  /\ (target = None -> found = None -> is_Some searched ->
      webviewCalls run.2
      = (webviewCalls s
         ++ [StopFindInPage "clearSelection";
             ExecuteJavaScript ClickFirstLink])%list)
  /\ (run.1
      = Throw "No click target specified and no context from previous Find/Search"
      /\ webviewCalls run.2 = webviewCalls s
      <-> target = None /\ found = None /\ searched = None).
Proof.
  intros Hty page target found searched run.
  subst run target found searched page.
  unfold executeTask. rewrite Hty.
  destruct (truthy (clickSelector (t_config task))) as [sel|].
  { unfold mbind, M_bind, executeJavaScript. simpl.
    split; [|split; [done|]; split; [done|]; split;
               [intros [_ H] | by intros (? & _)]].
    - intros ? [= <-].
      destruct (clickSelectorCode sel _) as [message | []] eqn:Ec; simpl;
        (split; [done|]); (split; [done|]);
        unfold clickSelectorCode, spliced, unlessFault in Ec;
        (split; [intros Hr; rewrite Hr in Ec; congruence|]);
        intros Hr Hf; rewrite Hf in Ec;
        destruct (reading Raw sel); try done;
        destruct (querySelector _ sel); congruence.
    - destruct (clickSelectorCode sel _) as [message | []]; simpl in H;
        by apply app_longer in H. }
  destruct (truthyValue (context !! "lastFoundText")) as [[t | items | c]|].
  - unfold mbind, M_bind, tryCatch, executeJavaScript. simpl.
    split; [done|]. split.
    2:{ split; [done|]. split; [intros [_ H] | by intros (_ & ? & _)].
        destruct (clickFoundTextCode t _) as [message | hit]; simpl in H;
          rewrite <- !app_assoc in H; by apply app_longer in H. }
    intros ? _ [= <-].
    destruct (clickFoundTextCode t _) as [message | [el txt]] eqn:Ec; simpl;
      rewrite <- !app_assoc; (split; [done|]); (split; [done|]);
      unfold clickFoundTextCode, spliced in Ec;
      (split; intros Hr; rewrite Hr in Ec);
      try destruct (clickByText _ t) as [[el' txt']|]; simpl; congruence.
  - simpl. split; [done|]. split; [done|]. split; [done|].
    split; [by intros [? _] | by intros (_ & ? & _)].
  - simpl. split; [done|]. split; [done|]. split; [done|].
    split; [by intros [? _] | by intros (_ & ? & _)].
  - destruct (truthyValue (context !! "lastSearchQuery")) as [v|].
    + unfold mbind, M_bind, executeJavaScript, clickFirstLinkCode. simpl.
      split; [done|]. split; [done|]. split.
      { intros _ _ _. destruct (List.filter _ _); simpl;
          by rewrite <- !app_assoc. }
      split; [|by intros (_ & _ & ?)].
      intros [_ H]. destruct (List.filter _ _); simpl in H;
        rewrite <- !app_assoc in H; by apply app_longer in H.
    + simpl. split; [done|]. split; [done|]. split; [by intros _ _ []|].
      done.
Qed.

Lemma filter_first {A} (f : A -> bool) (l : list A) :
  match List.filter f l with
  | x :: _ =>
      exists pre post,
        l = (pre ++ x :: post)%list
        /\ Forall (fun y => f y = false) pre /\ f x = true
  | [] => Forall (fun y => f y = false) l
  end.
Proof.
  induction l as [|y l IH]; simpl; [constructor|].
  destruct (f y) eqn:Ey.
  - by exists [], l.
  - destruct (List.filter f l) as [|x rest].
    + by constructor.
    + destruct IH as (pre & post & -> & Hpre & Hx).
      exists (y :: pre), post. split; [done|]. split; [by constructor | done].
Qed.

(** X11. The click that follows a search (no selector, no found text)
    takes the first anchor of the page, in document order, that is
    visible, whose address starts with 'http' and does not contain
    'duckduckgo.com'; every anchor in front of it fails that test.  It
    records the address under [clickedElement].  When no anchor passes the
    test it throws 'No clickable links found'. *)
Theorem X11_click_first_result_link task webview context s :
  t_type task = TClick ->
  truthy (clickSelector (t_config task)) = None ->
  truthyValue (context !! "lastFoundText") = None ->
  is_Some (truthyValue (context !! "lastSearchQuery")) ->
  let page := pageAt webview (jsCalls s) in
  let run := executeTask task webview context s in
  (exists pre a post,
     anchors page = (pre ++ a :: post)%list
     /\ Forall (fun x => isResultLink x = false) pre
     /\ a_visible a = true
     /\ startsWith (href a) "http" = true
     /\ includes (href a) "duckduckgo.com" = false
     /\ run.1
        = Ret (<["clickedElement" := VClick (ClickedLink (href a))]> context))
  \/ (Forall (fun x => isResultLink x = false) (anchors page)
      /\ run.1 = Throw "No clickable links found").
Proof.
  intros Hty Hsel Hfound [v Hsearch] page run. subst run page.
  unfold executeTask. rewrite Hty, Hsel, Hfound, Hsearch.
  unfold mbind, M_bind, executeJavaScript, clickFirstLinkCode. simpl.
  pose proof (filter_first isResultLink
                (anchors (pageAt webview (jsCalls s)))) as Hf.
  destruct (List.filter isResultLink _) as [|a rest]; simpl.
  - by right.
  - left. destruct Hf as (pre & post & Hl & Hpre & Ha).
    exists pre, a, post. split; [done|]. split; [done|].
    unfold isResultLink in Ha.
    apply andb_prop in Ha as [Ha Hv]. apply andb_prop in Ha as [Ha Hd].
    apply andb_prop in Ha as [_ Hh]. apply negb_true_iff in Hd. done.
Qed.

(** X12. The type handler throws 'Text to type is required' before
    touching the page view when no text is configured.  Otherwise it
    injects one script, built from the field hint, the inherited found
    text and the text to type; it returns the context extended by
    [typedText] when the script answers and fails with the script's error
    otherwise.  When the three texts are read verbatim, that error can
    only be 'No input field found' (naming the field when one is
    configured), for a page that offers no input; when one of them makes
    a literal run over its line, the task fails with a syntax error. *)
Theorem X12_type_handler task webview context s :
  t_type task = TType ->
  let page := pageAt webview (jsCalls s) in
  let run := executeTask task webview context s in
  (truthy (typeText (t_config task)) = None ->
   run = (Throw "Text to type is required", s))
  /\ (forall typed,
        truthy (typeText (t_config task)) = Some typed ->
        let field := default "" (truthy (targetField (t_config task))) in
        let searchText :=
          from_option jsString "" (truthyValue (context !! "lastFoundText")) in
        let script := TypeInto field searchText typed in
        webviewCalls run.2
        = (webviewCalls s ++ [ExecuteJavaScript script])%list
        /\ run.1
           = match typeCode field searchText typed page with
             | inr _ => Ret (<["typedText" := VStr typed]> context)
             | inl message => Throw message
             end
        /\ (reading Raw field = Verbatim ->
            reading Raw searchText = Verbatim ->
            reading EscapedTyped typed = Verbatim ->
            run.1
            = match findInput page field searchText with
              | Some _ => Ret (<["typedText" := VStr typed]> context)
              | None =>
                  Throw ("No input field found"
                         ++ (if decide (field = "") then ""
                             else " for " ++ field))
              end)
        /\ (thenReading (reading Raw field)
              (thenReading (reading Raw searchText)
                 (reading EscapedTyped typed)) = Unterminated ->
            run.1 = Throw (syntaxError page script))).
Proof.
  intros Hty page run. subst run page. unfold executeTask. rewrite Hty.
  destruct (truthy (typeText (t_config task))) as [t|]; [|done].
  split; [done|]. intros typed [= <-].
  unfold mbind, M_bind, executeJavaScript. simpl.
  destruct (typeCode _ _ t _) as [message | i] eqn:Ec; simpl;
    (split; [done|]); (split; [done|]);
    unfold typeCode, spliced in Ec; split.
  - intros Hf Hs Ht. rewrite Hf, Hs, Ht in Ec. simpl in Ec.
    destruct (findInput _ _ _); congruence.
  - intros Hr. rewrite Hr in Ec. congruence.
  - intros Hf Hs Ht. rewrite Hf, Hs, Ht in Ec. simpl in Ec.
    destruct (findInput _ _ _); congruence.
  - intros Hr. rewrite Hr in Ec. congruence.
Qed.

(** X13. The handlers that produce nothing hand the context back as it
    is: whenever the handler of an enter, scroll, wait or loop task
    returns, it returns exactly the context it was given. *)
Theorem X13_context_returned_unchanged task webview context s result s' :
  t_type task = TEnter \/ t_type task = TScroll
  \/ t_type task = TWait \/ t_type task = TLoop ->
  executeTask task webview context s = (Ret result, s') ->
  result = context.
Proof.
  intros Hty H. unfold executeTask in H.
  destruct Hty as [Hty | [Hty | [Hty | Hty]]]; rewrite Hty in H;
    unfold mbind, M_bind, mret, M_ret, executeJavaScript, enterCode,
      plainCode in H;
    simpl in H; try destruct (enterTarget _); simpl in H; congruence.
Qed.

(** X14. The defaults of scroll and wait also replace an explicit 0: the
    scroll handler injects its script with the distance 500 when
    [scrollAmount] is unset or 0 and with the configured distance
    otherwise (a negative one included); the wait handler announces
    1000 ms when [waitTime] is unset or 0 and the configured time
    otherwise. *)
Theorem X14_scroll_and_wait_defaults task webview context s :
  (t_type task = TScroll ->
   webviewCalls (executeTask task webview context s).2
   = (webviewCalls s
      ++ [ExecuteJavaScript
            (ScrollBy (match scrollAmount (t_config task) with
                       | Some n => if decide (n = 0) then 500 else n
                       | None => 500
                       end))])%list)
  /\ (t_type task = TWait ->
      last (logs (storeStatus (executeTask task webview context s).2))
      = Some ("  Waiting "
              ++ pretty (match waitTime (t_config task) with
                         | Some n => if decide (n = 0) then 1000 else n
                         | None => 1000
                         end)
              ++ "ms")).
Proof.
  unfold executeTask. split; intros ->.
  - unfold mbind, M_bind. simpl. unfold numOr.
    by destruct (scrollAmount _) as [n|]; [case_decide|].
  - unfold mbind, M_bind. simpl. rewrite last_snoc. unfold numOr.
    by destruct (waitTime _) as [n|]; [case_decide|].
Qed.

End Engine.

(** * The claims on concrete runs *)

(** A run of [tasks] from the idle state, with the sample environment. *)
Abbreviation sampleRun tasks webview :=
  (executeSequence sampleEncode noWarnings neverPaused tasks (Some webview)
     (initialState tasks)).

(** C1 on a run: wait, scroll, loop twice.  The four dispatches are four
    handler calls that returned; the two scroll handlers among them are
    what reached the page view. *)
Lemma C1_witness :
  sampleRun loopedSequence blankView
  = (Ret Completed, (sampleRun loopedSequence blankView).2)
  /\ List.map (fun d => t_id (d_task d))
       (dispatched (sampleRun loopedSequence blankView).2)
     = ["a"; "b"; "a"; "b"]
  /\ (exists calls,
        List.map c_dispatch calls
        = dispatched (sampleRun loopedSequence blankView).2
        /\ Forall returned calls)
  /\ webviewCalls (sampleRun loopedSequence blankView).2
     = [ExecuteJavaScript (ScrollBy 500); ExecuteJavaScript (ScrollBy 500)].
Proof.
  assert (sampleRun loopedSequence blankView
          = (Ret Completed, (sampleRun loopedSequence blankView).2)) as Hrun
    by (vm_compute; reflexivity).
  split; [exact Hrun|].
  destruct (C1_dispatch_order _ _ _ _ _ _ _ _ Hrun)
    as (calls & s0 & Hd & _ & _ & _ & Hdone & _).
  destruct (Hdone eq_refl) as (Hret & _ & Hloop & _).
  destruct (Hloop (newTask "c" TLoop (loopConfig 2)) 2 eq_refl eq_refl eq_refl
              ltac:(lia)) as (_ & Htasks & _).
  change (dispatched (initialState loopedSequence)) with (@nil Dispatch) in Hd.
  rewrite app_nil_l in Hd.
  split; [|split].
  - rewrite Hd, <- (List.map_map d_task t_id), Htasks. reflexivity.
  - exists calls. split; [by rewrite Hd | exact Hret].
  - vm_compute. reflexivity.
Defined.

(** C2 as stated fails: click, wait, loop twice, on a page that loses the
    clicked element after the first pass.  The click fails in the second
    pass, and the wait task behind it is completed, not pending. *)
Lemma C2_counterexample :
  (sampleRun clickLoopSequence vanishingView).1
  = Ret (Failed 1 0 "Element not found")
  /\ List.map t_status (storeTasks (sampleRun clickLoopSequence vanishingView).2)
     = [failed; completed; pending].
Proof. vm_compute. split; reflexivity. Qed.

(** C2 (as amended) on that run. *)
Lemma C2_witness :
  sampleRun clickLoopSequence vanishingView
  = (Ret (Failed 1 0 "Element not found"),
     (sampleRun clickLoopSequence vanishingView).2)
  /\ (exists t,
        storeTasks (sampleRun clickLoopSequence vanishingView).2 !! 0%nat
        = Some t
        /\ t_status t = failed /\ t_error t = Some "Element not found")
  /\ t_status
       <$> storeTasks (sampleRun clickLoopSequence vanishingView).2 !! 1%nat
     = Some completed
  /\ storeTasks (sampleRun clickLoopSequence vanishingView).2 !! 2%nat
     = clickLoopSequence !! 2%nat.
Proof.
  assert (sampleRun clickLoopSequence vanishingView
          = (Ret (Failed 1 0 "Element not found"),
             (sampleRun clickLoopSequence vanishingView).2)) as Hrun
    by (vm_compute; reflexivity).
  assert (NoDup (List.map t_id clickLoopSequence)) as Hnd
    by (apply (bool_decide_unpack (NoDup (List.map t_id clickLoopSequence)));
        vm_compute; exact I).
  split; [exact Hrun|].
  destruct (C2_fail_fast sampleEncode noWarnings neverPaused
              clickLoopSequence vanishingView
              (initialState clickLoopSequence) _ _ _ _ eq_refl Hnd Hrun)
    as (_ & Hfailed & _ & _ & _ & _ & Hkept & Hdone).
  split; [exact Hfailed|]. split.
  - apply Hdone; [simpl; lia | lia].
  - apply Hkept; [lia | right; simpl; lia].
Defined.

(** C4: with the count -3 the outer loop makes no pass at all, although
    the claim asks for one; the run reports success without having
    dispatched a task. *)
Lemma C4_negative_count_runs_no_pass :
  passesOf negativeLoopSequence = 0%nat
  /\ (sampleRun negativeLoopSequence blankView).1 = Ret Completed
  /\ dispatched (sampleRun negativeLoopSequence blankView).2 = []
  /\ logs (storeStatus (sampleRun negativeLoopSequence blankView).2)
     = ["Starting execution..."; "Sequence will loop -3 times";
        "All tasks executed successfully!"].
Proof. vm_compute. repeat split; reflexivity. Qed.

(** C5 as stated fails: a loop task in front of a wait task is dispatched,
    and its handler runs and writes its log line. *)
Lemma C5_counterexample :
  List.map (fun d => t_type (d_task d))
    (dispatched (sampleRun leadingLoopSequence blankView).2)
  = [TLoop; TWait]
  /\ In "Loop task - execution handled at sequence level"
       (logs (storeStatus (sampleRun leadingLoopSequence blankView).2)).
Proof. vm_compute. split; [reflexivity | tauto]. Qed.

(** C6 on an empty sequence. *)
Lemma C6_witness :
  ([] = @nil Task \/ Some blankView = None)
  /\ (executeSequence sampleEncode noWarnings neverPaused [] (Some blankView)
        (initialState [])).1 = Ret Aborted
  /\ storeStatus
       (executeSequence sampleEncode noWarnings neverPaused []
          (Some blankView) (initialState [])).2 = idleStatus
  /\ alerts
       (executeSequence sampleEncode noWarnings neverPaused []
          (Some blankView) (initialState [])).2 = ["No tasks to execute"].
Proof.
  split; [by left|].
  pose proof (C6_precondition_abort sampleEncode noWarnings neverPaused []
                (Some blankView) (initialState []) (or_introl eq_refl)) as H.
  destruct (executeSequence _ _ _ _ _ _) as [r s'].
  destruct H as (Hr & Hst & _ & _ & _ & Hal). simpl.
  rewrite Hr, Hst, Hal. done.
Defined.

(** C7 as stated fails: after the looped run has completed, [totalLoops]
    still holds the count. *)
Lemma C7_counterexample :
  (sampleRun loopedSequence blankView).1 = Ret Completed
  /\ totalLoops (storeStatus (sampleRun loopedSequence blankView).2) = Some 2.
Proof. vm_compute. split; reflexivity. Qed.

(** C7 (as amended) on that run. *)
Lemma C7_witness :
  sampleRun loopedSequence blankView
  = (Ret Completed, (sampleRun loopedSequence blankView).2)
  /\ currentTaskIndex (storeStatus (sampleRun loopedSequence blankView).2) = -1
  /\ currentLoop (storeStatus (sampleRun loopedSequence blankView).2) = None
  /\ isExecuting (storeStatus (sampleRun loopedSequence blankView).2) = false.
Proof.
  assert (sampleRun loopedSequence blankView
          = (Ret Completed, (sampleRun loopedSequence blankView).2)) as Hrun
    by (vm_compute; reflexivity).
  split; [exact Hrun|].
  destruct (C7_status_after_run _ _ _ _ _ _ _ _ Hrun)
    as (_ & Hex & _ & Hix & Hcl & _).
  split; [exact Hix|]. split; [exact Hcl | exact Hex].
Defined.

(** The failing path leaves the index of the failing task in place. *)
Example failed_run_keeps_index :
  let st := storeStatus (sampleRun clickLoopSequence vanishingView).2 in
  isExecuting st = false /\ currentTaskIndex st = 0
  /\ currentLoop st = Some 2 /\ totalLoops st = Some 2.
Proof. vm_compute. repeat split; reflexivity. Qed.

(** ** The pause flag *)

(** A run whose closure holds a record that is not paused never waits:
    every step of its inner loop dispatches its task, whatever the flag
    of the store is at that moment. *)
Lemma closure_not_paused_never_waits encodeURIComponent executionStatus
    webview loop i task context s :
  isPaused executionStatus = false ->
  exists r s',
    runTask encodeURIComponent (closureReads executionStatus) webview loop i
      task context s = (Ret r, s')
    /\ dispatched s'
       = (dispatched s ++ [mkDispatch loop i task context])%list.
Proof.
  intros H. apply runTask_resumed. unfold closureReads. rewrite H.
  by eexists.
Qed.

(** A run whose closure holds a paused record never starts a task,
    whatever the flag of the store becomes. *)
Lemma closure_paused_never_starts encodeURIComponent executionStatus
    webview loop i task context s :
  isPaused executionStatus = true ->
  runTask encodeURIComponent (closureReads executionStatus) webview loop i
    task context s = (Hang, s).
Proof.
  intros H. apply runTask_suspended. unfold closureReads. by rewrite H.
Qed.



(** C9 on a page with 12 links and 6 headings. *)
Lemma C9_witness :
  t_type (newTask "x" TExtractDom emptyConfig) = TExtractDom
  /\ exists items,
       (executeTask sampleEncode (newTask "x" TExtractDom emptyConfig)
          busyView ∅ (initialState [])).1
       = Ret {[ "extractedData" := VItems items ]}
       /\ length items = 15%nat
       /\ List.map item_type items
          = (replicate 10 link ++ replicate 5 heading)%list.
Proof.
  split; [reflexivity|].
  destruct (C9_extract_handler sampleEncode
              (newTask "x" TExtractDom emptyConfig) busyView ∅
              (initialState []) eq_refl) as (s' & Hrun & _).
  eexists. rewrite Hrun. split; [reflexivity|].
  split; vm_compute; reflexivity.
Defined.

(** C10 on a find task that has a selector only, and on one that has
    neither text nor selector and inherits the text of an earlier find. *)
Lemma C10_witness :
  t_type (newTask "f" TFind (selectorConfig "Contact")) = TFind
  /\ (executeTask sampleEncode (newTask "f" TFind (selectorConfig "Contact"))
        blankView ∅ (initialState [])).1
     = Ret {[ "lastFoundText" := VStr "Contact" ]}
  /\ foundContext !! "lastFoundText" = Some (VStr "Contact")
  /\ (executeTask sampleEncode (newTask "g" TFind emptyConfig)
        blankView foundContext (initialState [])).1
     = Ret {[ "lastFoundText" := VStr "Contact" ]}.
Proof.
  assert (foundContext !! "lastFoundText" = Some (VStr "Contact")) as Hctx
    by (vm_compute; reflexivity).
  split; [reflexivity|].
  destruct (C10_find_text_resolution sampleEncode
              (newTask "f" TFind (selectorConfig "Contact")) blankView ∅
              (initialState []) eq_refl) as (_ & Hsel & _).
  destruct (C10_find_text_resolution sampleEncode
              (newTask "g" TFind emptyConfig) blankView foundContext
              (initialState []) eq_refl) as (_ & _ & Hctxt & _).
  split; [apply (Hsel "Contact" eq_refl eq_refl); reflexivity|].
  split; [exact Hctx|].
  apply (Hctxt "Contact" eq_refl eq_refl Hctx); [discriminate | reflexivity].
Defined.

(** ** Further runs *)

(** A click task alone has neither a selector nor a context to go by: it
    fails at once and the run stops. *)
Example lone_click_fails :
  (sampleRun [newTask "k" TClick emptyConfig] blankView).1
  = Ret (Failed 0 0
           "No click target specified and no context from previous Find/Search")
  /\ List.map t_status
       (storeTasks (sampleRun [newTask "k" TClick emptyConfig] blankView).2)
     = [failed].
Proof. vm_compute. split; reflexivity. Qed.

(** A click after a search, without selector and without a find in
    between, takes the first visible link that leaves the search engine
    and records it in the context. *)
Example click_after_search :
  let tasks :=
    [newTask "s" TSearch
       (mkConfig (Some "cats") None None None None None None None None);
     newTask "k" TClick emptyConfig] in
  (sampleRun tasks busyView).1 = Ret Completed
  /\ List.map t_result (storeTasks (sampleRun tasks busyView).2)
     = [Some {[ "lastSearchQuery" := VStr "cats" ]};
        Some (<["clickedElement" :=
                  VClick (ClickedLink "https://a.example/blank")]>
                {[ "lastSearchQuery" := VStr "cats" ]})].
Proof. vm_compute. split; reflexivity. Qed.

(** A find task without text, selector or inherited text fails with the
    message of the handler. *)
Example find_without_text_fails :
  (sampleRun [newTask "f" TFind emptyConfig] blankView).1
  = Ret (Failed 0 0 "Text to find is required").
Proof. vm_compute. reflexivity. Qed.

(** * The run does not depend on the analysis or on the old log *)

Lemma assignStatus_withLogs st lines f :
  assignStatus (withLogs st lines) f = withLogs (assignStatus st f) lines.
Proof. by destruct st, f. Qed.

Lemma foldl_assignStatus_withLogs updates st lines :
  foldl assignStatus (withLogs st lines) updates
  = withLogs (foldl assignStatus st updates) lines.
Proof.
  revert st. induction updates as [|f updates IH]; intros st; [done|].
  change (foldl assignStatus (assignStatus (withLogs st lines) f) updates
          = withLogs (foldl assignStatus (assignStatus st f) updates) lines).
  by rewrite assignStatus_withLogs, IH.
Qed.

Lemma withLogs_withLogs st lines lines' :
  withLogs (withLogs st lines) lines' = withLogs st lines'.
Proof. done. Qed.

Lemma warnings_logged (analyze : list Task -> Analysis) tasks s :
  exists extra,
    (if isOptimal (analyze tasks) then mret tt
     else
       addLog "Sequence analysis warnings:";;
       foldr (fun x k => addLog ("  - " ++ x);; k) (mret tt)
         (suggestions (analyze tasks))) s
    = (Ret tt, replaceLog s (logs (storeStatus s) ++ extra)).
Proof.
  unfold replaceLog. destruct (isOptimal _).
  - exists []. rewrite app_nil_r. by destruct s as [? []].
  - unfold mbind at 1, M_bind at 1. simpl.
    edestruct suggestions_logged as [extra ->].
    exists ("Sequence analysis warnings:" :: extra). simpl.
    by rewrite <- app_assoc.
Qed.

Lemma start_forgets_log {A} (k : unit -> M A) updates s lines :
  (setExecutionStatus updates ≫= fun _ => clearLogs ≫= k) (replaceLog s lines)
  = (setExecutionStatus updates ≫= fun _ => clearLogs ≫= k) s.
Proof.
  unfold mbind, M_bind, setExecutionStatus, clearLogs, onStatus, replaceLog.
  simpl. by rewrite foldl_assignStatus_withLogs.
Qed.

(** X4. A run of a non-empty sequence depends neither on what the
    sequence analysis answers nor on the lines the log held before: the
    warnings are written and then wiped by [clearLogs] together with the
    old log, so the outcome and the whole final state are the same. *)
Theorem X4_run_ignores_analysis_and_old_log encodeURIComponent
    (analyze analyze' : list Task -> Analysis) pauseReads tasks webview s
    oldLog :
  tasks <> [] ->
  executeSequence encodeURIComponent analyze pauseReads tasks (Some webview) s
  = executeSequence encodeURIComponent analyze' pauseReads tasks
      (Some webview) (replaceLog s oldLog).
Proof.
  intros Hne. unfold executeSequence.
  destruct (decide (length tasks = 0%nat)); [by destruct tasks|].
  destruct (warnings_logged analyze tasks s) as [extra Hw].
  destruct (warnings_logged analyze' tasks (replaceLog s oldLog))
    as [extra' Hw'].
  unfold mbind at 1, M_bind at 1. rewrite Hw.
  symmetry. unfold mbind at 1, M_bind at 1. rewrite Hw'.
  change (replaceLog (replaceLog s oldLog)
            (logs (storeStatus (replaceLog s oldLog)) ++ extra'))
    with (replaceLog s (oldLog ++ extra')).
  by rewrite !start_forgets_log.
Qed.

(** * Properties of the panels and dialogs of the sidebar *)

(** X15. In the extracted-data panel a click navigates exactly on the
    link entries: for every entry the extraction script produces, a click
    on a link entry loads its (non-empty) address and logs the navigation,
    while a click on a heading entry does nothing; without a page view no
    click does anything. *)
Theorem X15_panel_click_navigates_links page item webview s :
  In item (extractScript page) ->
  (onItemClick item None s).2 = s
  /\ match item_type item with
     | link =>
         exists address,
           url item = Some address /\ address <> ""
           /\ webviewCalls (onItemClick item (Some webview) s).2
              = (webviewCalls s ++ [LoadURL address])%list
           /\ last (logs (storeStatus (onItemClick item (Some webview) s).2))
              = Some ("Navigated to: " ++ title item)
     | heading => (onItemClick item (Some webview) s).2 = s
     end.
Proof.
  intros Hin. split.
  { unfold onItemClick. by destruct (truthy (url item)). }
  unfold extractScript in Hin. apply in_app_or in Hin as [Hin | Hin].
  - apply in_map_iff in Hin as (a & <- & Ha). simpl.
    assert (In a (List.filter isExtractLink (anchors page))) as Hf.
    { apply list_elem_of_In. apply list_elem_of_In in Ha.
      apply elem_of_take in Ha as (n & Ha & _).
      by eapply list_elem_of_lookup_2. }
    apply filter_In in Hf as [_ Hf]. unfold isExtractLink in Hf.
    apply andb_prop in Hf as [Hf _]. apply andb_prop in Hf as [Hf _].
    apply negb_true_iff, bool_decide_eq_false in Hf.
    exists (href a). split; [done|]. split; [done|].
    unfold onItemClick. simpl. rewrite decide_False by done.
    unfold mbind, M_bind. simpl. split; [done | by rewrite last_snoc].
  - by apply in_map_iff in Hin as (h & <- & _).
Qed.

(** X16. The log panel shows the last lines of the log, at most 10 of
    them and all of them while the log has no more than 10: what it shows
    is a suffix of the log, so the most recent line is always the last
    one shown. *)
Theorem X16_log_panel_shows_last_lines st :
  length (visibleLogs st) = Nat.min 10 (length (logs st))
  /\ visibleLogs st `suffix_of` logs st
  /\ last (visibleLogs st) = last (logs st)
  /\ ((length (logs st) <= 10)%nat -> visibleLogs st = logs st).
Proof.
  unfold visibleLogs, sliceLast. set (l := logs st).
  split; [rewrite length_drop; lia|].
  split; [apply suffix_drop|]. split.
  - rewrite !last_lookup, lookup_drop, length_drop.
    destruct (decide (length l = 0%nat)) as [H0|H0].
    + destruct l; [done | simpl in H0; lia].
    + f_equal. lia.
  - intros Hle. replace (length l - 10)%nat with 0%nat by lia. apply drop_0.
Qed.

(** X17. Toggling a section flips that section and no other, so toggling
    the same section twice restores the accordion, and toggles of
    different sections commute. *)
Theorem X17_toggle_section a b prev :
  expanded (toggleSection a prev) b
  = (if decide (a = b) then negb (expanded prev b) else expanded prev b)
  /\ toggleSection a (toggleSection a prev) = prev
  /\ toggleSection a (toggleSection b prev)
     = toggleSection b (toggleSection a prev).
Proof.
  split; [|split].
  - destruct a, b; by try (rewrite decide_True by done).
  - destruct a, prev; simpl; by rewrite negb_involutive.
  - by destruct a, b.
Qed.

(** X18. Saving a sequence.  A name that is blank once trimmed never
    reaches the database: the handler only alerts.  Any other name is
    sent as typed, with the tasks of the store, in exactly one save call.
    Only when that call succeeds is the success logged, the dialog closed,
    the name cleared and the list asked for again; when it fails the user
    is alerted with the error and the dialog and the name stay.  In no
    case are the tasks of the store changed. *)
Theorem X18_save_sequence db u :
  let u' := handleSaveSequence db u in
  let tasks := storeTasks (store u) in
  let answer :=
    saveSequence db (length (databaseCalls u)) (sequenceName u) tasks in
  storeTasks (store u') = tasks
  /\ (trim (sequenceName u) = "" ->
      databaseCalls u' = databaseCalls u
      /\ alerts (store u')
         = (alerts (store u) ++ ["Please enter a sequence name"])%list
      /\ showSaveDialog u' = showSaveDialog u
      /\ sequenceName u' = sequenceName u)
  /\ (trim (sequenceName u) <> "" -> answer.1 = true ->
      databaseCalls u'
      = (databaseCalls u
         ++ [SaveSequence (sequenceName u) tasks; GetAllSequences])%list
      /\ alerts (store u') = alerts (store u)
      /\ last (logs (storeStatus (store u')))
         = Some ("Sequence " ++ quoted (sequenceName u)
                 ++ " saved successfully")
      /\ showSaveDialog u' = false
      /\ sequenceName u' = "")
  /\ (trim (sequenceName u) <> "" -> answer.1 = false ->
      databaseCalls u'
      = (databaseCalls u ++ [SaveSequence (sequenceName u) tasks])%list
      /\ alerts (store u')
         = (alerts (store u)
            ++ ["Failed to save: " +:+ jsOptional answer.2])%list
      /\ logs (storeStatus (store u')) = logs (storeStatus (store u))
      /\ showSaveDialog u' = showSaveDialog u
      /\ sequenceName u' = sequenceName u
      /\ savedSequences u' = savedSequences u).
Proof.
  intros u' tasks answer. subst u' answer tasks. unfold handleSaveSequence.
  destruct (decide (trim (sequenceName u) = "")) as [Hb|Hb].
  { split; [done|]. split; [done|]. split; intros; done. }
  destruct (saveSequence db _ _ _) as [[|] err]; simpl.
  - unfold loadSavedSequences. simpl.
    destruct (getAllSequences db _) as [[|] l]; simpl;
      (split; [done|]); (split; [done|]); (split; [|done]); intros _ _;
      rewrite <- app_assoc, last_snoc; done.
  - split; [done|]. split; [done|]. split; [done|]. by intros _ _.
Qed.

(** X19. Deleting a saved sequence needs the confirmation: when it is
    declined nothing at all happens.  When it is given, one delete call is
    made; the list is asked for again only if the deletion succeeded, and
    on failure the user is alerted and the list shown stays as it was.
    The list shown is only ever replaced by what a successful
    [getAllSequences] answers. *)
Theorem X19_delete_sequence db name confirmed u :
  let u' := handleDeleteSequence db name confirmed u in
  let answer := deleteSequence db (length (databaseCalls u)) name in
  (confirmed = false -> u' = u)
  /\ (confirmed = true -> answer.1 = true ->
      databaseCalls u'
      = (databaseCalls u ++ [DeleteSequence name; GetAllSequences])%list
      /\ last (logs (storeStatus (store u')))
         = Some ("Deleted sequence " ++ quoted name)
      /\ savedSequences u'
         = (let listing :=
              getAllSequences db (S (length (databaseCalls u))) in
            if listing.1 then default [] listing.2 else savedSequences u))
  /\ (confirmed = true -> answer.1 = false ->
      databaseCalls u' = (databaseCalls u ++ [DeleteSequence name])%list
      /\ alerts (store u')
         = (alerts (store u)
            ++ ["Failed to delete: " +:+ jsOptional answer.2])%list
      /\ savedSequences u' = savedSequences u).
Proof.
  intros u' answer. subst u' answer. unfold handleDeleteSequence.
  destruct confirmed; simpl; [|done].
  split; [done|].
  destruct (deleteSequence db _ _) as [[|] err]; simpl.
  - split; [|done]. intros _ _. unfold loadSavedSequences. simpl.
    rewrite length_app. simpl.
    replace (length (databaseCalls u) + 1)%nat
      with (S (length (databaseCalls u))) by lia.
    destruct (getAllSequences db _) as [[|] l]; simpl;
      rewrite <- app_assoc, last_snoc; done.
  - split; [done|]. by intros _ _.
Qed.

(** X25. Loading a saved sequence makes exactly one database call.  The
    answer is handed to the store, the load logged and the dialog closed
    exactly when the call succeeds and carries a sequence; in every other
    case, a successful answer without a sequence included, the store is
    not given anything, the dialog stays as it is and the user is alerted
    with the error of the answer, which reads 'undefined' when the answer
    has none. *)
Theorem X25_load_sequence db name u :
  let u' := handleLoadSequence db name u in
  let answer := loadSequence db (length (databaseCalls u)) name in
  databaseCalls u' = (databaseCalls u ++ [LoadSequence name])%list
  /\ storeTasks (store u') = storeTasks (store u)
  /\ (forall sequence,
        answer.1 = (true, Some sequence) ->
        storeLoads u' = (storeLoads u ++ [sequence])%list
        /\ showLoadDialog u' = false
        /\ alerts (store u') = alerts (store u)
        /\ last (logs (storeStatus (store u')))
           = Some ("Loaded sequence " ++ quoted name))
  /\ ((answer.1.1 = false \/ answer.1.2 = None) ->
      storeLoads u' = storeLoads u
      /\ showLoadDialog u' = showLoadDialog u
      /\ logs (storeStatus (store u')) = logs (storeStatus (store u))
      /\ alerts (store u')
         = (alerts (store u)
            ++ ["Failed to load: " +:+ jsOptional answer.2])%list).
Proof.
  intros u' answer. subst u' answer. unfold handleLoadSequence.
  destruct (loadSequence db _ name) as [[[|] [sequence|]] err]; simpl.
  - split; [done|]. split; [done|]. split.
    + intros ? [= <-]. by rewrite last_snoc.
    + by intros [|].
  - split; [done|]. split; [done|]. split; [done|]. by intros _.
  - split; [done|]. split; [done|]. split; [done|]. by intros _.
  - split; [done|]. split; [done|]. split; [done|]. by intros _.
Qed.

(** * Properties of the settings modal *)

Lemma filter_idempotent {A} (f : A -> bool) (l : list A) :
  List.filter f (List.filter f l) = List.filter f l.
Proof.
  induction l as [|x l IH]; simpl; [done|].
  destruct (f x) eqn:E; simpl; [rewrite E; by f_equal | done].
Qed.

Lemma filter_sublist {A} (f : A -> bool) (l : list A) :
  List.filter f l `sublist_of` l.
Proof.
  induction l as [|x l IH]; simpl; [done|].
  destruct (f x); by constructor.
Qed.

(** X20. Removing a bookmark goes by address.  After a successful
    removal the list holds exactly the bookmarks with another address, in
    their former order: every bookmark with that address is gone, also
    those that differ in id or title.  Removing the same address again
    changes nothing more.  When the bridge reports no success, is missing,
    or rejects, the list stays as it is. *)
Theorem X20_remove_bookmark address reply st :
  let st' := (SettingsModal.handleRemove address reply st).2 in
  SettingsModal.loading st' = SettingsModal.loading st
  /\ SettingsModal.bookmarks st' `sublist_of` SettingsModal.bookmarks st
  /\ (forall res,
        reply = SettingsModal.Replied res ->
        SettingsModal.succeeded res = true ->
        (forall b,
           In b (SettingsModal.bookmarks st')
           <-> In b (SettingsModal.bookmarks st)
               /\ SettingsModal.url b <> address)
        /\ (SettingsModal.handleRemove address reply st').2 = st')
  /\ ((forall res,
         reply = SettingsModal.Replied res ->
         SettingsModal.succeeded res = false) ->
      st' = st).
Proof.
  intros st'. subst st'. unfold SettingsModal.handleRemove.
  destruct reply as [res | message]; simpl.
  - destruct (SettingsModal.succeeded res) eqn:Es; simpl.
    + split; [done|]. split; [apply filter_sublist|]. split.
      * intros res' [= <-] _. split.
        -- intros b. rewrite filter_In, negb_true_iff, bool_decide_eq_false.
           done.
        -- simpl. by rewrite filter_idempotent.
      * intros H. specialize (H res eq_refl). congruence.
    + split; [done|]. split; [done|]. split; [|done].
      intros res' [= <-] H. congruence.
  - split; [done|]. split; [done|]. split; [done|]. done.
Qed.

(** X21. Loading the bookmarks always ends with the loading flag off:
    when the bridge answers, when it is missing, and when the call
    rejects (the [finally] clause), in which case the error escapes from
    [load].  The list is replaced only by a successful answer, by an empty
    list when the answer carries none; in every other case it stays. *)
Theorem X21_load_bookmarks reply st :
  let run := SettingsModal.load reply st in
  SettingsModal.loading run.2 = false
  /\ (run.1 = None <-> exists res, reply = SettingsModal.Replied res)
  /\ (forall res,
        reply = SettingsModal.Replied res ->
        SettingsModal.succeeded res = true ->
        SettingsModal.bookmarks run.2
        = default [] (res ≫= SettingsModal.listed))
  /\ ((forall res,
         reply = SettingsModal.Replied res ->
         SettingsModal.succeeded res = false) ->
      SettingsModal.bookmarks run.2 = SettingsModal.bookmarks st).
Proof.
  intros run. subst run. unfold SettingsModal.load.
  destruct reply as [res | message]; simpl.
  - destruct (SettingsModal.succeeded res) eqn:Es; simpl.
    + split; [done|]. split; [split; [by eexists | done]|].
      split; [by intros res' [= <-] _|].
      intros H. specialize (H res eq_refl). congruence.
    + split; [done|]. split; [split; [by eexists | done]|].
      split; [|done]. intros res' [= <-] H. congruence.
  - split; [done|]. split; [split; [done | by intros [res H]]|].
    split; done.
Qed.

(** * Properties of the first version of the sidebar *)

Lemma removeFrom_past i idx (prev : list string) :
  (idx < i)%nat -> SimpleSidebar.removeFrom i idx prev = prev.
Proof.
  revert i. induction prev as [|task rest IH]; intros i Hlt; simpl; [done|].
  rewrite bool_decide_eq_true_2 by lia. f_equal. apply IH. lia.
Qed.

Lemma removeFrom_delete i idx (prev : list string) :
  (i <= idx)%nat ->
  SimpleSidebar.removeFrom i idx prev = delete (idx - i)%nat prev.
Proof.
  revert i. induction prev as [|task rest IH]; intros i Hle; simpl; [done|].
  destruct (decide (i = idx)) as [->|Hne].
  - rewrite bool_decide_eq_false_2 by (by intros H; apply H).
    rewrite Nat.sub_diag. simpl. apply removeFrom_past. lia.
  - rewrite bool_decide_eq_true_2 by done.
    replace (idx - i)%nat with (S (idx - S i)) by lia. simpl. f_equal.
    apply IH. lia.
Qed.

(** X23. The Remove button of the first sidebar removes by position: it
    deletes exactly the entry at the clicked index and keeps all others in
    order, also when the same action occurs several times in the list; an
    index outside the list removes nothing. *)
Theorem X23_remove_entry_by_index idx (prev : list string) :
  SimpleSidebar.remove idx prev = (take idx prev ++ drop (S idx) prev)%list
  /\ ((idx < length prev)%nat ->
      length (SimpleSidebar.remove idx prev) = (length prev - 1)%nat)
  /\ ((length prev <= idx)%nat -> SimpleSidebar.remove idx prev = prev).
Proof.
  unfold SimpleSidebar.remove.
  rewrite removeFrom_delete by lia. rewrite Nat.sub_0_r.
  split; [apply delete_take_drop|]. split.
  - intros Hlt. apply length_delete. by apply lookup_lt_is_Some.
  - intros Hge. rewrite delete_take_drop, take_ge, drop_ge by lia.
    apply app_nil_r.
Qed.

Lemma executeFrom_windows encode query i tasks :
  List.filter SimpleSidebar.isWindowOpen
    (SimpleSidebar.executeFrom encode query i tasks)
  = if decide (query = "") then []
    else replicate
           (length (List.filter (fun t => bool_decide (t = "Search")) tasks))
           (SimpleSidebar.WindowOpen
              ("https://www.google.com/search?q=" ++ encode query)).
Proof.
  revert i. induction tasks as [|task rest IH]; intros i; simpl.
  - by destruct (decide _).
  - rewrite List.filter_app, IH. unfold SimpleSidebar.executeTask.
    destruct (decide (task = "Search")) as [->|Hne].
    + rewrite bool_decide_eq_true_2 by done.
      by destruct (decide (query = "")).
    + rewrite bool_decide_eq_false_2 by done.
      repeat case_decide; done.
Qed.

(** X22. [executeAll] of the first sidebar never stops early: whatever
    the tasks, its last effect is the alert that all tasks were executed.
    A browser window is opened once for every Search entry when a query
    is set, always with the same search address, and never when the query
    is empty (each Search entry then only raises an alert). *)
Theorem X22_execute_all_effects encodeURIComponent searchQuery tasks :
  let effects :=
    SimpleSidebar.executeAll encodeURIComponent searchQuery tasks in
  last effects = Some (SimpleSidebar.Alert "All tasks executed in sequence!")
  /\ List.filter SimpleSidebar.isWindowOpen effects
     = (if decide (searchQuery = "") then []
        else replicate
               (length (List.filter (fun t => bool_decide (t = "Search"))
                          tasks))
               (SimpleSidebar.WindowOpen
                  ("https://www.google.com/search?q="
                   ++ encodeURIComponent searchQuery)))
  /\ (length tasks < length effects)%nat.
Proof.
  intros effects. subst effects. unfold SimpleSidebar.executeAll.
  split; [apply last_snoc|]. split.
  - rewrite List.filter_app, executeFrom_windows. simpl. apply app_nil_r.
  - rewrite length_app. simpl.
    assert (forall i, (length tasks
                       <= length (SimpleSidebar.executeFrom
                                    encodeURIComponent searchQuery i tasks))%nat)
      as H; [|specialize (H 0%nat); lia].
    induction tasks as [|task rest IH]; intros i; simpl; [lia|].
    specialize (IH (S i)). rewrite length_app. simpl. lia.
Qed.

(** * Properties of the agent bar *)

Lemma whiteSpace_nonempty : Forall (fun w => w <> []) whiteSpace.
Proof. unfold whiteSpace. simpl. repeat constructor; discriminate. Qed.

Lemma spaceAhead_Some l l' :
  spaceAhead l = Some l' -> exists w, w <> [] /\ l = (w ++ l')%list.
Proof.
  unfold spaceAhead.
  destruct (list_find _ whiteSpace) as [[i w]|] eqn:E; [|done].
  intros [= <-]. apply list_find_Some in E as (Hi & [k ->] & _).
  exists w. rewrite drop_app_length. split; [|done].
  pose proof whiteSpace_nonempty as Hne. rewrite Forall_forall in Hne.
  apply Hne. by eapply list_elem_of_lookup_2.
Qed.

Lemma spaceBehind_Some l l' :
  spaceBehind l = Some l' -> exists w, w <> [] /\ l = (l' ++ w)%list.
Proof.
  unfold spaceBehind.
  destruct (list_find _ whiteSpace) as [[i w]|] eqn:E; [|done].
  intros [= <-]. apply list_find_Some in E as (Hi & [k ->] & _).
  exists w. rewrite length_app.
  replace (length k + length w - length w)%nat with (length k) by lia.
  rewrite take_app_length. split; [|done].
  pose proof whiteSpace_nonempty as Hne. rewrite Forall_forall in Hne.
  apply Hne. by eapply list_elem_of_lookup_2.
Qed.

Lemma spaceAhead_shorter l l' :
  spaceAhead l = Some l' -> (length l' < length l)%nat.
Proof.
  intros (w & Hw & ->)%spaceAhead_Some. rewrite length_app.
  destruct w; [done | simpl; lia].
Qed.

Lemma spaceBehind_shorter l l' :
  spaceBehind l = Some l' -> (length l' < length l)%nat.
Proof.
  intros (w & Hw & ->)%spaceBehind_Some. rewrite length_app.
  destruct w; [done | simpl; lia].
Qed.

Lemma strip_done step fuel l :
  (forall k k', step k = Some k' -> (length k' < length k)%nat) ->
  (length l <= fuel)%nat -> step (strip step fuel l) = None.
Proof.
  intros Hstep. revert l. induction fuel as [|fuel IH]; intros l Hl; simpl.
  - destruct (step l) as [l'|] eqn:E; [|done].
    apply Hstep in E. lia.
  - destruct (step l) as [l'|] eqn:E; [|done].
    apply IH. apply Hstep in E. lia.
Qed.

Lemma strip_fixed step fuel l : step l = None -> strip step fuel l = l.
Proof. intros H. destruct fuel; simpl; [done|]. by rewrite H. Qed.

Lemma strip_prefix fuel l : strip spaceBehind fuel l `prefix_of` l.
Proof.
  revert l. induction fuel as [|fuel IH]; intros l; simpl; [done|].
  destruct (spaceBehind l) as [l'|] eqn:E; [|done].
  apply spaceBehind_Some in E as (w & _ & ->).
  by apply prefix_app_r.
Qed.

Lemma trimStart_noLeadingSpace s : noLeadingSpace (trimStart s).
Proof.
  unfold noLeadingSpace, trimStart.
  rewrite String.list_ascii_of_string_of_list_ascii.
  set (l := strip spaceAhead _ _).
  apply (list_find_None (fun w => w `prefix_of` l)). subst l.
  pose proof (strip_done spaceAhead
                (length (String.list_ascii_of_string s))
                (String.list_ascii_of_string s) spaceAhead_shorter
                (Nat.le_refl _)) as H.
  unfold spaceAhead in H at 1. by destruct (list_find _ whiteSpace) as [[]|].
Qed.

Lemma trimEnd_noTrailingSpace s : noTrailingSpace (trimEnd s).
Proof.
  unfold noTrailingSpace, trimEnd.
  rewrite String.list_ascii_of_string_of_list_ascii.
  set (l := strip spaceBehind _ _).
  apply (list_find_None (fun w => w `suffix_of` l)). subst l.
  pose proof (strip_done spaceBehind
                (length (String.list_ascii_of_string s))
                (String.list_ascii_of_string s) spaceBehind_shorter
                (Nat.le_refl _)) as H.
  unfold spaceBehind in H at 1. by destruct (list_find _ whiteSpace) as [[]|].
Qed.

Lemma trimStart_fixed s : noLeadingSpace s -> trimStart s = s.
Proof.
  intros H. unfold trimStart. rewrite strip_fixed.
  - apply String.string_of_list_ascii_of_string.
  - unfold spaceAhead.
    apply (list_find_None
             (fun w => w `prefix_of` String.list_ascii_of_string s)) in H.
    by rewrite H.
Qed.

Lemma trimEnd_fixed s : noTrailingSpace s -> trimEnd s = s.
Proof.
  intros H. unfold trimEnd. rewrite strip_fixed.
  - apply String.string_of_list_ascii_of_string.
  - unfold spaceBehind.
    apply (list_find_None
             (fun w => w `suffix_of` String.list_ascii_of_string s)) in H.
    by rewrite H.
Qed.

Lemma trimEnd_noLeadingSpace s :
  noLeadingSpace s -> noLeadingSpace (trimEnd s).
Proof.
  unfold noLeadingSpace, trimEnd.
  rewrite String.list_ascii_of_string_of_list_ascii.
  intros H. eapply Forall_impl; [exact H|]. intros w Hw Hp. apply Hw.
  etrans; [exact Hp | apply strip_prefix].
Qed.

Lemma trim_fixed s : trim (trim s) = trim s.
Proof.
  unfold trim.
  rewrite (trimStart_fixed (trimEnd (trimStart s))).
  - apply trimEnd_fixed, trimEnd_noTrailingSpace.
  - apply trimEnd_noLeadingSpace, trimStart_noLeadingSpace.
Qed.

(** X24. The agent bar forwards a prompt only when the field holds more
    than white space, and then exactly once: the prompt it forwards is
    never empty, neither starts nor ends with a white space character
    (U+00A0, U+3000 and the other Unicode spaces included), and trimming
    it again changes nothing. *)
Theorem X24_agent_bar_submit input :
  (AgentBar.handleSubmit input = [] <-> trim input = "")
  /\ (length (AgentBar.handleSubmit input) <= 1)%nat
  /\ Forall (fun prompt =>
               prompt <> "" /\ noLeadingSpace prompt
               /\ noTrailingSpace prompt /\ trim prompt = prompt)
       (AgentBar.handleSubmit input).
Proof.
  unfold AgentBar.handleSubmit.
  destruct (decide (trim input = "")) as [He|Hne].
  - split; [done|]. split; [simpl; lia | constructor].
  - split; [done|]. split; [simpl; lia|].
    constructor; [|constructor]. split; [done|].
    split; [apply trimEnd_noLeadingSpace, trimStart_noLeadingSpace|].
    split; [apply trimEnd_noTrailingSpace | apply trim_fixed].
Qed.

(** What the trimming removes, on a field that holds a no-break space,
    an ideographic space and a line feed around the prompt. *)
Example trim_unicode_spaces :
  let nbsp := String.string_of_list_ascii
                (List.map Ascii.ascii_of_nat [194; 160]%nat) in
  let ideographic := String.string_of_list_ascii
                       (List.map Ascii.ascii_of_nat [227; 128; 128]%nat) in
  let lineFeed := String (Ascii.ascii_of_nat 10) EmptyString in
  trim (nbsp ++ " go " ++ ideographic ++ lineFeed) = "go"
  /\ AgentBar.handleSubmit (nbsp ++ ideographic) = [].
Proof. vm_compute. split; reflexivity. Qed.

(** ** Texts that break a script *)

(** How the spliced texts are read. *)
Example readings :
  reading Escaped ("say " ++ quote ++ "hi" ++ quote) = Verbatim
  /\ reading Raw ("a[href=" ++ quote ++ "x" ++ quote ++ "]") = Other
  /\ reading Escaped ("50%" ++ backslash) = Unterminated
  /\ reading Escaped ("a" ++ backslash ++ "nb") = Other
  /\ reading Escaped ("two" ++ lineFeed ++ "lines") = Unterminated
  /\ reading EscapedTyped ("two" ++ lineFeed ++ "lines") = Verbatim.
Proof. vm_compute. repeat split; reflexivity. Qed.

(** A find for a text that ends in a backslash stops the run: the scroll
    script does not parse, although the page shows the text. *)
Example find_text_ending_in_backslash_fails :
  let tasks :=
    [newTask "f" TFind (textConfig ("50%" ++ backslash));
     newTask "a" TWait emptyConfig] in
  (sampleRun tasks busyView).1 = Ret (Failed 0 0 "SyntaxError")
  /\ List.map t_status (storeTasks (sampleRun tasks busyView).2)
     = [failed; pending].
Proof. vm_compute. split; reflexivity. Qed.

(** A click on a selector that holds a double quote fails on a page view
    that rejects the script it then receives. *)
Example click_selector_with_quote_fails :
  (executeTask sampleEncode
     (newTask "k" TClick
        (clickConfig ("a[href=" ++ quote ++ "x" ++ quote ++ "]")))
     strictView ∅ (initialState [])).1
  = Throw "SyntaxError".
Proof. vm_compute. reflexivity. Qed.

(** A type task that inherits a found text with a double quote fails on
    such a page view, and one whose text holds a carriage return fails on
    every page view. *)
Example type_with_broken_texts_fails :
  (executeTask sampleEncode (newTask "t" TType (typeConfig "hello"))
     strictView {[ "lastFoundText" := VStr ("say " ++ quote ++ "hi" ++ quote) ]}
     (initialState [])).1
  = Throw "SyntaxError"
  /\ (executeTask sampleEncode
        (newTask "t" TType
           (typeConfig ("a" ++ String (Ascii.ascii_of_nat 13) EmptyString)))
        busyView ∅ (initialState [])).1
     = Throw "SyntaxError".
Proof. vm_compute. split; reflexivity. Qed.

(** * The further properties on concrete runs *)

(** X2 on the run search, click: the click handler throws when it is
    handed an empty context, but in this run it is handed the search
    query, returns, and the run completes. *)
Lemma X2_witness :
  searchThenClick <> []
  /\ (sampleRun searchThenClick busyView).1 = Ret Completed
  /\ (executeTask sampleEncode (newTask "k" TClick emptyConfig) busyView ∅
        (initialState searchThenClick)).1
     = Throw "No click target specified and no context from previous Find/Search"
  /\ exists calls, length calls = 2%nat /\ Forall returned calls.
Proof.
  assert ((sampleRun searchThenClick busyView).1 = Ret Completed) as Hrun
    by (vm_compute; reflexivity).
  assert (length (dispatched (sampleRun searchThenClick busyView).2) = 2%nat)
    as Hlen by (vm_compute; reflexivity).
  split; [done|]. split; [exact Hrun|]. split; [vm_compute; reflexivity|].
  destruct (X2_run_completes sampleEncode noWarnings neverPaused
              searchThenClick busyView (initialState searchThenClick))
    as (calls & s0 & Hd & _ & Hiff & _); [done | by intros n; eexists |].
  exists calls. split; [|by apply Hiff].
  rewrite Hd, length_app, length_map in Hlen. exact Hlen.
Defined.


(** X3 on that run: both tasks in front of the loop task end completed. *)
Lemma X3_witness :
  NoDup (List.map t_id loopedSequence)
  /\ t_status <$> storeTasks (sampleRun loopedSequence blankView).2 !! 1%nat
     = Some completed.
Proof.
  assert (sampleRun loopedSequence blankView
          = (Ret Completed, (sampleRun loopedSequence blankView).2)) as Hrun
    by (vm_compute; reflexivity).
  assert (NoDup (List.map t_id loopedSequence)) as Hnd
    by (apply (bool_decide_unpack (NoDup (List.map t_id loopedSequence)));
        vm_compute; exact I).
  split; [exact Hnd|].
  destruct (X3_completed_run_statuses sampleEncode noWarnings neverPaused
              loopedSequence blankView (initialState loopedSequence) _
              eq_refl Hnd Hrun) as (_ & _ & Hdone).
  apply Hdone; [vm_compute; lia | vm_compute; lia].
Defined.

(** X4 on that run: another analysis and an old log make no difference. *)
Lemma X4_witness :
  loopedSequence <> []
  /\ sampleRun loopedSequence blankView
     = executeSequence sampleEncode fussy neverPaused loopedSequence
         (Some blankView)
         (replaceLog (initialState loopedSequence) ["an old line"]).
Proof.
  split; [done|].
  by apply X4_run_ignores_analysis_and_old_log.
Defined.

(** X5 on the run whose click fails in the second pass. *)
Lemma X5_witness :
  sampleRun clickLoopSequence vanishingView
  = (Ret (Failed 1 0 "Element not found"),
     (sampleRun clickLoopSequence vanishingView).2)
  /\ 0 <= currentTaskIndex
            (storeStatus (sampleRun clickLoopSequence vanishingView).2)
       < 3 - 1.
Proof.
  assert (sampleRun clickLoopSequence vanishingView
          = (Ret (Failed 1 0 "Element not found"),
             (sampleRun clickLoopSequence vanishingView).2)) as Hrun
    by (vm_compute; reflexivity).
  split; [exact Hrun|].
  destruct (X5_failed_index_in_range _ _ _ _ _ _ _ _ _ _ Hrun) as [Htt Hix].
  rewrite Htt in Hix. exact Hix.
Defined.

(** X7 on the run click, wait, loop twice: no [loadURL] call is made. *)
Lemma X7_witness :
  Forall (fun task => t_type task <> TSearch)
    (tasksToExecute clickLoopSequence)
  /\ exists new,
       webviewCalls (sampleRun clickLoopSequence vanishingView).2 = new
       /\ Forall (fun c => ~ isLoadURL c) new.
Proof.
  assert (Forall (fun task => t_type task <> TSearch)
            (tasksToExecute clickLoopSequence)) as Hno
    by (repeat constructor; done).
  split; [exact Hno|].
  destruct (X7_no_search_no_loadURL sampleEncode noWarnings neverPaused
              clickLoopSequence vanishingView
              (initialState clickLoopSequence) Hno) as (new & Hc & Hall).
  exists new. split; [exact Hc | exact Hall].
Defined.

(** X9 on a search for 'cats'. *)
Lemma X9_witness :
  t_type (newTask "s" TSearch (searchConfig "cats")) = TSearch
  /\ (executeTask sampleEncode (newTask "s" TSearch (searchConfig "cats"))
        blankView ∅ (initialState [])).1
     = Ret searchedContext.
Proof.
  split; [reflexivity|].
  destruct (X9_search_handler sampleEncode
              (newTask "s" TSearch (searchConfig "cats")) blankView ∅
              (initialState []) eq_refl) as (_ & Hq & _).
  apply (Hq "cats" eq_refl).
Defined.

(** X10 on a click with a selector, on a page without the element. *)
Lemma X10_witness :
  t_type (newTask "k" TClick (clickConfig "#next")) = TClick
  /\ (executeTask sampleEncode (newTask "k" TClick (clickConfig "#next"))
        blankView searchedContext (initialState [])).1
     = Throw "Element not found".
Proof.
  split; [reflexivity|].
  destruct (X10_click_target_resolution sampleEncode
              (newTask "k" TClick (clickConfig "#next")) blankView
              searchedContext (initialState []) eq_refl) as (Hsel & _).
  destruct (Hsel "#next" eq_refl) as (_ & _ & _ & Hplain).
  apply Hplain; [vm_compute; discriminate | reflexivity].
Defined.

(** X11 on a click after a search, on the page with 12 links: the hidden
    link in front is passed over. *)
Lemma X11_witness :
  t_type (newTask "k" TClick emptyConfig) = TClick
  /\ truthy (clickSelector (t_config (newTask "k" TClick emptyConfig))) = None
  /\ truthyValue (searchedContext !! "lastFoundText") = None
  /\ is_Some (truthyValue (searchedContext !! "lastSearchQuery"))
  /\ (executeTask sampleEncode (newTask "k" TClick emptyConfig) busyView
        searchedContext (initialState [])).1
     <> Throw "No clickable links found".
Proof.
  assert (truthyValue (searchedContext !! "lastFoundText") = None) as Hfound
    by (vm_compute; reflexivity).
  assert (is_Some (truthyValue (searchedContext !! "lastSearchQuery")))
    as Hsearch by (eexists; vm_compute; reflexivity).
  split; [reflexivity|]. split; [reflexivity|].
  split; [exact Hfound|]. split; [exact Hsearch|].
  destruct (X11_click_first_result_link sampleEncode
              (newTask "k" TClick emptyConfig) busyView searchedContext
              (initialState []) eq_refl eq_refl Hfound Hsearch)
    as [(pre & a & post & _ & _ & _ & _ & _ & ->) | [Hnone _]].
  - discriminate.
  - exfalso. apply Forall_cons_1 in Hnone as [_ Hnone].
    apply Forall_cons_1 in Hnone as [Hblank _].
    vm_compute in Hblank. discriminate.
Defined.

(** X12 on a type task, on a page without an input. *)
Lemma X12_witness :
  t_type (newTask "t" TType (typeConfig "hello")) = TType
  /\ (executeTask sampleEncode (newTask "t" TType (typeConfig "hello"))
        blankView ∅ (initialState [])).1
     = Throw "No input field found".
Proof.
  split; [reflexivity|].
  destruct (X12_type_handler sampleEncode
              (newTask "t" TType (typeConfig "hello")) blankView ∅
              (initialState []) eq_refl) as (_ & Hty).
  destruct (Hty "hello" eq_refl) as (_ & _ & Hverbatim & _).
  apply Hverbatim; vm_compute; reflexivity.
Defined.

(** X13 on a wait task that is handed the context of a search. *)
Lemma X13_witness :
  exists result s',
    executeTask sampleEncode (newTask "a" TWait emptyConfig) blankView
      searchedContext (initialState [])
    = (Ret result, s')
    /\ result = searchedContext.
Proof.
  destruct (executeTask sampleEncode (newTask "a" TWait emptyConfig)
              blankView searchedContext (initialState []))
    as [r s'] eqn:Hrun.
  assert (exists result, r = Ret result) as [result ->]
    by (injection Hrun as <- _; by eexists).
  exists result, s'. split; [reflexivity|].
  apply (X13_context_returned_unchanged sampleEncode
           (newTask "a" TWait emptyConfig) blankView searchedContext
           (initialState []) result s');
    [right; right; left; reflexivity | exact Hrun].
Defined.

(** X15 on the first entry extracted from the page with 12 links. *)
Lemma X15_witness :
  In (linkItem (mkAnchor "https://a.example/0" " link 0 " true))
    (extractScript busyPage)
  /\ webviewCalls
       (onItemClick (linkItem (mkAnchor "https://a.example/0" " link 0 " true))
          (Some busyView) (initialState [])).2
     = [LoadURL "https://a.example/0"].
Proof.
  assert (In (linkItem (mkAnchor "https://a.example/0" " link 0 " true))
            (extractScript busyPage)) as Hin
    by (vm_compute; left; reflexivity).
  split; [exact Hin|].
  destruct (X15_panel_click_navigates_links busyPage _ busyView
              (initialState []) Hin) as (_ & address & [= <-] & _ & Hc & _).
  exact Hc.
Defined.
